(** * Mero-Ausadi OCR match pipeline: a shallow embedding of
      [backend/services/ocr_service.py] and the catalog queries it calls.

    Conventions of the embedding.
    - A Python [str] is a [list ascii]; the model covers 7-bit ASCII text,
      where [str.lower], [str.isupper], [str.strip] and the [re] classes
      [\s], [\w], [\d], [\b] have the definitions given below.
    - A Python [float] confidence is an exact rational ([Q]); the literals
      [0.95], [0.9], [0.8], [0.7] and the operations [x / 100], [x * 0.8],
      [x > y] are the rational ones. Binary rounding is not modelled; the
      results on ranking use of the confidences only their order.
    - An attribute that may hold [None] is an [option].
    - A call that may raise is a [Result]; [try: ... except Exception:] is
      [try_except].
    - [fuzz.ratio] and [fuzz.partial_ratio] (package fuzzywuzzy), the image
      decoder, the OCR engine and the base64 decoder are not part of the
      repository: they are parameters. *)

From Stdlib Require Import Ascii String QArith.
From stdpp Require Import base option list gmap sorting.

Set Default Proof Using "Type".

(** ** Python strings *)

Module Py.

Abbreviation str := (list ascii).

Definition str_of (s : string) : str := list_ascii_of_string s.
Arguments str_of s%_string.

Definition code (c : ascii) : N := N_of_ascii c.

Definition between (lo hi : N) (c : ascii) : bool :=
  ((lo <=? code c) && (code c <=? hi))%N.

(** [str.isspace] on ASCII: TAB..CR, FS..US and the space. The [re] class
    [\s] of a [str] pattern is the same set. *)
Definition is_space (c : ascii) : bool := between 9 13 c || between 28 32 c.
Definition is_digit (c : ascii) : bool := between 48 57 c.
Definition is_upper (c : ascii) : bool := between 65 90 c.
Definition is_lower (c : ascii) : bool := between 97 122 c.
Definition is_alpha (c : ascii) : bool := is_upper c || is_lower c.
Definition is_underscore (c : ascii) : bool := (code c =? 95)%N.
(** The [re] class [\w]: alphanumeric or underscore. *)
Definition is_word (c : ascii) : bool := is_alpha c || is_digit c || is_underscore c.

Definition lower_char (c : ascii) : ascii :=
  if is_upper c then ascii_of_N (code c + 32) else c.

(** [s.lower()] *)
Definition lower (s : str) : str := map lower_char s.

(** [s.isupper()]: at least one cased character and no lower-case one. *)
Definition isupper (s : str) : bool :=
  existsb is_upper s && negb (existsb is_lower s).

Fixpoint lstrip (s : str) : str :=
  match s with
  | c :: s' => if is_space c then lstrip s' else s
  | [] => []
  end.

Definition rstrip (s : str) : str :=
  foldr (fun c acc => match acc with
                      | [] => if is_space c then [] else [c]
                      | _ => c :: acc
                      end) [] s.

(** [s.strip()] *)
Definition strip (s : str) : str := rstrip (lstrip s).

Definition eqb_char (a b : ascii) : bool := Ascii.eqb a b.

(** [s.startswith(p)] *)
Fixpoint startswith (p s : str) : bool :=
  match p, s with
  | [], _ => true
  | a :: p', b :: s' => eqb_char a b && startswith p' s'
  | _ :: _, [] => false
  end.

(** [needle in hay] *)
Fixpoint contains (needle hay : str) : bool :=
  startswith needle hay ||
  match hay with
  | [] => false
  | _ :: hay' => contains needle hay'
  end.

(** [s.split(sep)] for a one-character separator: never the empty list. *)
Fixpoint split (sep : ascii) (s : str) : list str :=
  match s with
  | [] => [[]]
  | c :: s' =>
      if eqb_char c sep then [] :: split sep s'
      else match split sep s' with
           | h :: t => (c :: h) :: t
           | [] => [[c]]
           end
  end.

(** Truth value of a [str]: non-empty. *)
Definition truthy (s : str) : bool :=
  match s with [] => false | _ :: _ => true end.

Definition eqb_str (a b : str) : bool := bool_decide (a = b).

(** [l[:n]] for an [int] bound: a negative bound counts from the end. *)
Definition slice_to {A} (l : list A) (n : Z) : list A :=
  if (0 <=? n)%Z then take (Z.to_nat n) l
  else take (length l - Z.to_nat (- n)) l.

End Py.

(** ** The fragment of [re] the service uses *)

Module Re.
Import Py.

Inductive regex : Type :=
| Cls (p : ascii -> bool)                        (* one character of a class *)
| Rep (p : ascii -> bool) (lo : nat) (hi : option nat)
                                                 (* greedy p{lo,hi}; no [hi]: unbounded *)
| Bnd                                            (* \b *)
| Eps                                            (* the empty pattern *)
| Seq (r1 r2 : regex)
| Alt (r1 r2 : regex)                            (* r1|r2, left first *)
| Opt (r : regex).                               (* (?:r)?, greedy *)

(** [\b] holds where the word-character status changes; the ends of the
    string count as non-word. *)
Definition is_word_opt (c : option ascii) : bool :=
  match c with Some c => is_word c | None => false end.

Definition at_boundary (prev : option ascii) (s : str) : bool :=
  xorb (is_word_opt prev) (is_word_opt (head s)).

Definition hi_allows (hi : option nat) : bool :=
  match hi with Some 0 => false | _ => true end.

Section matcher.
Context {A : Type}.

(** Greedy bounded repetition of a character class, backtracking to
    shorter runs when the continuation [k] fails. *)
Fixpoint rep (p : ascii -> bool) (lo : nat) (hi : option nat)
    (prev : option ascii) (s : str)
    (k : option ascii -> str -> option A) : option A :=
  let stop := match lo with 0 => k prev s | S _ => None end in
  match s with
  | c :: s' =>
      if p c && hi_allows hi then
        match rep p (pred lo) (pred <$> hi) (Some c) s' k with
        | Some x => Some x
        | None => stop
        end
      else stop
  | [] => stop
  end.

(** Backtracking matcher in continuation-passing style: [prev] is the
    character before the current position, [s] what is left. *)
Fixpoint rmatch (r : regex) (prev : option ascii) (s : str)
    (k : option ascii -> str -> option A) : option A :=
  match r with
  | Cls p =>
      match s with
      | c :: s' => if p c then k (Some c) s' else None
      | [] => None
      end
  | Rep p lo hi => rep p lo hi prev s k
  | Bnd => if at_boundary prev s then k prev s else None
  | Eps => k prev s
  | Seq r1 r2 => rmatch r1 prev s (fun prev' s' => rmatch r2 prev' s' k)
  | Alt r1 r2 =>
      match rmatch r1 prev s k with
      | Some x => Some x
      | None => rmatch r2 prev s k
      end
  | Opt r1 =>
      match rmatch r1 prev s k with
      | Some x => Some x
      | None => k prev s
      end
  end.
End matcher.

(** The text matched at the current position, if any. *)
Definition match_here (r : regex) (prev : option ascii) (s : str) : option str :=
  rmatch r prev s (fun _ rest => Some (take (length s - length rest) s)).

Fixpoint search_from (r : regex) (prev : option ascii) (s : str) : option str :=
  match match_here r prev s with
  | Some g => Some g
  | None =>
      match s with
      | [] => None
      | c :: s' => search_from r (Some c) s'
      end
  end.

(** [re.search(r, s)], giving [m.group()] of the leftmost match. *)
Definition search (r : regex) (s : str) : option str := search_from r None s.

(** A literal under [re.IGNORECASE]. *)
Definition chr_i (c : ascii) : regex :=
  Cls (fun x => eqb_char (lower_char x) (lower_char c)).

Definition lit_i (w : str) : regex := foldr (fun c r => Seq (chr_i c) r) Eps w.

Definition chr (c : ascii) : regex := Cls (eqb_char c).

(** [re.sub(r'\s+', ' ', s)]: [in_run] tells that the previous character
    belonged to the whitespace run being replaced. *)
Fixpoint sub_ws_from (in_run : bool) (s : str) : str :=
  match s with
  | [] => []
  | c :: s' =>
      if is_space c then
        if in_run then sub_ws_from true s' else " "%char :: sub_ws_from true s'
      else c :: sub_ws_from false s'
  end.

Definition sub_ws (s : str) : str := sub_ws_from false s.

End Re.

(** ** Exceptions *)

Module Exc.

Inductive exn : Type :=
| AttributeError                  (* a method called on [None] *)
| IndexError                      (* list index out of range *)
| ValueError (msg : string)
| LibraryError (origin : string). (* raised by SQLAlchemy, cv2, base64, pytesseract *)

Inductive Result (A : Type) : Type :=
| Ok (a : A)
| Raise (e : exn).
Arguments Ok {A} a.
Arguments Raise {A} e.

#[global] Instance Result_ret : MRet Result := fun A a => Ok a.
#[global] Instance Result_bind : MBind Result := fun A B f r =>
  match r with
  | Ok a => f a
  | Raise e => Raise e
  end.

(** [try: body  except Exception as e: handler(e)] *)
Definition try_except {A} (body : Result A) (handler : exn -> Result A) : Result A :=
  match body with
  | Ok a => Ok a
  | Raise e => handler e
  end.

(** The same with a handler that logs and returns a default: the
    statement as a whole cannot raise. *)
Definition try_default {A} (body : Result A) (default : A) : A :=
  match body with
  | Ok a => a
  | Raise _ => default
  end.

(** A loop that appends what [f] yields for each element; a raise in the
    body leaves the loop. *)
Fixpoint for_each {A B} (f : A -> Result (list B)) (l : list A) : Result (list B) :=
  match l with
  | [] => Ok []
  | x :: l' => ys ← f x; zs ← for_each f l'; Ok (ys ++ zs)
  end.

Definition raises {A} (r : Result A) : Prop := ∃ e, r = Raise e.

End Exc.

(** ** Data model: [database/models.py] and the dicts of the service *)

Module Medicine.
(** The columns of [medicines] the OCR service reads. A column read from
    the database is [None] when the row holds NULL. *)
Record t : Type := {
  id : Z;
  brand_name : option Py.str;
  generic_name : option Py.str;
  strength : option Py.str;
  manufacturer : option Py.str;
  barcode : option Py.str;
}.
End Medicine.

Module Info.
(** The [info] dict of [extract_medicine_info]. *)
Record t : Type := {
  brand_name : Py.str;
  generic_name : Py.str;
  strength : Py.str;
  manufacturer : Py.str;
  barcode : Py.str;
  confidence_score : Q;
}.
End Info.

Module Names.
(** The [names] dict of [extract_potential_names]. *)
Record t : Type := {
  brand_name : Py.str;
  generic_name : Py.str;
}.
End Names.

Module Tag.
(** The values of the key ['match_type']. *)
Inductive t : Type := barcode | brand_name | generic_name | manufacturer | fuzzy.

#[global] Instance eq_dec : EqDecision t.
Proof. solve_decision. Defined.

(** Position in the strategy order: smaller is higher priority. *)
Definition priority (x : t) : nat :=
  match x with
  | barcode => 0
  | brand_name => 1
  | generic_name => 2
  | manufacturer => 3
  | fuzzy => 4
  end.
End Tag.

Module Candidate.
(** A result dict of [search_medicines_by_ocr_text]. *)
Record t : Type := {
  medicine : Medicine.t;
  confidence_score : Q;
  matched_text : option Py.str;
  match_type : Tag.t;
}.

Definition id (r : t) : Z := Medicine.id (medicine r).
End Candidate.

(** ** The catalog: [services/medicine_service.py] over a session *)

Module MedicineService.
Import Py Exc.

(** The statements the OCR service sends to the database. *)
Inductive query : Type :=
| ByBarcode (barcode : str)
| Search (q : str) (limit : Z)
| Page (skip limit : Z).

(** A database session: the rows of [medicines] in the order the backend
    scans them, and the statements whose execution fails (connection lost,
    operational error). *)
Record Session : Type := {
  rows : list Medicine.t;
  fails : query -> bool;
}.

Definition execute {A} (db : Session) (q : query) (answer : A) : Result A :=
  if fails db q then Raise (LibraryError "sqlalchemy") else Ok answer.

(** [LIKE] with the wildcards [%] and [_]. *)
Fixpoint like (p s : str) : bool :=
  match p with
  | [] => match s with [] => true | _ :: _ => false end
  | c :: p' =>
      if eqb_char c "%"%char then
        (fix any (s : str) : bool :=
           like p' s || match s with [] => false | _ :: s' => any s' end) s
      else
        match s with
        | [] => false
        | x :: s' => (eqb_char c "_"%char || eqb_char c x) && like p' s'
        end
  end.

(** [column.ilike(pattern)]: [lower(column) LIKE lower(pattern)]; NULL
    matches nothing. *)
Definition ilike (column : option str) (pattern : str) : bool :=
  match column with
  | Some v => like (lower pattern) (lower v)
  | None => false
  end.

(** [.limit(n)] and [.offset(n)] as SQLite executes them: a negative
    limit is no limit, a negative offset is no offset. *)
Definition sql_limit {A} (n : Z) (l : list A) : list A :=
  if (n <? 0)%Z then l else take (Z.to_nat n) l.

Definition sql_offset {A} (n : Z) (l : list A) : list A := drop (Z.to_nat n) l.

Definition get_medicines (db : Session) (skip limit : Z) : Result (list Medicine.t) :=
  execute db (Page skip limit) (sql_limit limit (sql_offset skip (rows db))).

Definition get_medicine_by_barcode (db : Session) (barcode : str)
    : Result (option Medicine.t) :=
  execute db (ByBarcode barcode)
    (head (filter (fun m => Medicine.barcode m = Some barcode) (rows db))).

Definition search_medicines (db : Session) (query : str) (limit : Z)
    : Result (list Medicine.t) :=
  let pattern := "%"%char :: query ++ ["%"%char] in
  execute db (Search query limit)
    (sql_limit limit
       (filter (fun m => ilike (Medicine.brand_name m) pattern
                         || ilike (Medicine.generic_name m) pattern
                         || ilike (Medicine.manufacturer m) pattern)
               (rows db))).

End MedicineService.

(** ** [services/ocr_service.py] *)

Module OCRService.
Import Py Re Exc.

(** [x > y] on confidences. *)
Definition Qgtb (x y : Q) : bool := negb (Qle_bool x y).

(** [o.lower()] for an attribute that may be [None]. *)
Definition attr_lower (o : option str) : Result str :=
  match o with
  | Some s => Ok (lower s)
  | None => Raise AttributeError
  end.

(** Truth value of an attribute that may be [None]. *)
Definition truthy_attr (o : option str) : bool :=
  match o with
  | Some s => truthy s
  | None => false
  end.

(** *** [clean_extracted_text] *)

(** The class [[\w\s\-\.\,\:\;\(\)\[\]\{\}]] whose complement is removed. *)
Definition kept_punctuation : str := str_of "-.,:;()[]{}".

Definition kept (c : ascii) : bool :=
  is_word c || is_space c || existsb (eqb_char c) kept_punctuation.

Definition clean_extracted_text (text : str) : str :=
  let text := sub_ws (strip text) in
  let text := filter kept text in
  let text := sub_ws text in
  strip text.

(** *** [extract_potential_names] *)

Definition skip_words : list str :=
  map str_of ["tablet"; "capsule"; "injection"; "mg"; "mcg"; "ml"]%string.

Definition names_step (names : Names.t) (line : str) : Names.t :=
  let line := strip line in
  if negb (truthy line) || (length line <? 3) then names
  else if existsb (fun skip_word => contains skip_word (lower line)) skip_words then names
  else if (length line <=? 30) && isupper line then
    if negb (truthy (Names.brand_name names))
    then {| Names.brand_name := line; Names.generic_name := Names.generic_name names |}
    else names
  else if (10 <? length line) && (length line <=? 50) then
    if negb (truthy (Names.generic_name names))
    then {| Names.brand_name := Names.brand_name names; Names.generic_name := line |}
    else names
  else names.

Definition extract_potential_names (lines : list str) : Names.t :=
  foldl names_step {| Names.brand_name := []; Names.generic_name := [] |} lines.

(** *** [extract_medicine_info] *)

(** [\b\d{8,13}\b] *)
Definition barcode_re : regex := Seq Bnd (Seq (Rep is_digit 8 (Some 13)) Bnd).

(** [\b\d+(?:\.\d+)?\s*(?:mg|mcg|g|ml|IU)\b] with [re.IGNORECASE] *)
Definition strength_re : regex :=
  Seq Bnd
 (Seq (Rep is_digit 1 None)
 (Seq (Opt (Seq (chr "."%char) (Rep is_digit 1 None)))
 (Seq (Rep is_space 0 None)
 (Seq (Alt (lit_i (str_of "mg"))
      (Alt (lit_i (str_of "mcg"))
      (Alt (lit_i (str_of "g"))
      (Alt (lit_i (str_of "ml"))
           (lit_i (str_of "IU"))))))
      Bnd)))).

Definition manufacturer_keywords : list str :=
  map str_of ["ltd"; "inc"; "corp"; "pharma"; "pharmaceuticals"; "company"]%string.

Definition info_step (info : Info.t) (line : str) : Info.t :=
  let line := strip line in
  if negb (truthy line) then info
  else
    let barcode :=
      match search barcode_re line with
      | Some g => if negb (truthy (Info.barcode info)) then g else Info.barcode info
      | None => Info.barcode info
      end in
    let strength :=
      match search strength_re line with
      | Some g => if negb (truthy (Info.strength info)) then g else Info.strength info
      | None => Info.strength info
      end in
    let manufacturer :=
      if existsb (fun keyword => contains keyword (lower line)) manufacturer_keywords
      then if negb (truthy (Info.manufacturer info)) then line else Info.manufacturer info
      else Info.manufacturer info in
    {| Info.brand_name := Info.brand_name info;
       Info.generic_name := Info.generic_name info;
       Info.strength := strength;
       Info.manufacturer := manufacturer;
       Info.barcode := barcode;
       Info.confidence_score := Info.confidence_score info |}.

Definition empty_info : Info.t :=
  {| Info.brand_name := []; Info.generic_name := []; Info.strength := [];
     Info.manufacturer := []; Info.barcode := []; Info.confidence_score := 0 |}.

Definition extract_medicine_info (text : str) : Info.t :=
  let lines := split "010"%char text in
  let info := foldl info_step empty_info lines in
  let potential_names := extract_potential_names lines in
  {| Info.brand_name := Names.brand_name potential_names;
     Info.generic_name := Names.generic_name potential_names;
     Info.strength := Info.strength info;
     Info.manufacturer := Info.manufacturer info;
     Info.barcode := Info.barcode info;
     Info.confidence_score := Info.confidence_score info |}.

(** *** [remove_duplicate_results] *)

(** The loop body: [seen] is the set [seen_medicines]; the kept results
    are produced in the order they are appended. *)
Fixpoint remove_duplicates_from (seen : gset Z) (results : list Candidate.t)
    : list Candidate.t :=
  match results with
  | [] => []
  | result :: rest =>
      let medicine_id := Candidate.id result in
      if decide (medicine_id ∈ seen) then remove_duplicates_from seen rest
      else result :: remove_duplicates_from ({[medicine_id]} ∪ seen) rest
  end.

Definition remove_duplicate_results (results : list Candidate.t) : list Candidate.t :=
  remove_duplicates_from ∅ results.

(** *** [list.sort(key=lambda x: x['confidence_score'], reverse=True)]

    Python's sort is stable, also with [reverse=True]: results of equal
    confidence keep their relative order. Insertion from the right, past
    the results of strictly greater confidence only, is that sort. *)
Fixpoint insert_by_confidence (x : Candidate.t) (l : list Candidate.t)
    : list Candidate.t :=
  match l with
  | [] => [x]
  | y :: l' =>
      if Qgtb (Candidate.confidence_score y) (Candidate.confidence_score x)
      then y :: insert_by_confidence x l'
      else x :: y :: l'
  end.

Definition sort_by_confidence (l : list Candidate.t) : list Candidate.t :=
  foldr insert_by_confidence [] l.

(** Lines 251-255: deduplicate, sort, truncate. *)
Definition rank_results (results : list Candidate.t) (limit : Z) : list Candidate.t :=
  let unique_results := remove_duplicate_results results in
  let unique_results := sort_by_confidence unique_results in
  slice_to unique_results limit.

Section fuzzywuzzy.
(** [fuzz.ratio] and [fuzz.partial_ratio]: integers on a 0-100 scale. *)
Variables fuzz_ratio fuzz_partial_ratio : str -> str -> Z.

(** *** [calculate_name_confidence] *)

Definition calculate_name_confidence (extracted_name : str)
    (database_name : option str) : Q :=
  try_default
    (if negb (truthy extracted_name) || negb (truthy_attr database_name)
     then Ok 0%Q
     else
       database_lower ← attr_lower database_name;
       if eqb_str (lower extracted_name) database_lower then Ok 1%Q
       else if contains (lower extracted_name) database_lower
               || contains database_lower (lower extracted_name)
       then Ok 0.9%Q
       else
         let similarity := fuzz_ratio (lower extracted_name) database_lower in
         Ok (inject_Z similarity / 100)%Q)
    0%Q.

(** *** [get_best_match] *)

Definition get_best_match (text : str) (medicine : Medicine.t) : option str :=
  try_default
    (let text_lower := lower text in
     brand ← attr_lower (Medicine.brand_name medicine);
     let brand_score := fuzz_partial_ratio text_lower brand in
     generic ← attr_lower (Medicine.generic_name medicine);
     let generic_score := fuzz_partial_ratio text_lower generic in
     manufacturer ← attr_lower (Medicine.manufacturer medicine);
     let manufacturer_score := fuzz_partial_ratio text_lower manufacturer in
     (* [max(scores, key=...)]: the first of the maximal entries *)
     let best := (brand_score, Medicine.brand_name medicine) in
     let best := if (best.1 <? generic_score)%Z
                 then (generic_score, Medicine.generic_name medicine) else best in
     let best := if (best.1 <? manufacturer_score)%Z
                 then (manufacturer_score, Medicine.manufacturer medicine) else best in
     Ok best.2)
    (Medicine.brand_name medicine).

(** *** The five strategies of [search_medicines_by_ocr_text] *)

Definition barcode_candidate (medicine_info : Info.t) (medicine : Medicine.t)
    : Candidate.t :=
  {| Candidate.medicine := medicine;
     Candidate.confidence_score := 0.95;
     Candidate.matched_text := Some (Info.barcode medicine_info);
     Candidate.match_type := Tag.barcode |}.

Definition barcode_strategy (db : MedicineService.Session) (medicine_info : Info.t)
    : Result (list Candidate.t) :=
  if truthy (Info.barcode medicine_info) then
    medicine ← MedicineService.get_medicine_by_barcode db (Info.barcode medicine_info);
    match medicine with
    | Some medicine => Ok [barcode_candidate medicine_info medicine]
    | None => Ok []
    end
  else Ok [].

Definition brand_candidates (hint : str) (medicines : list Medicine.t)
    : list Candidate.t :=
  omap (fun medicine =>
          let confidence := calculate_name_confidence hint (Medicine.brand_name medicine) in
          if Qgtb confidence 0.7 then
            Some {| Candidate.medicine := medicine;
                    Candidate.confidence_score := confidence;
                    Candidate.matched_text := Medicine.brand_name medicine;
                    Candidate.match_type := Tag.brand_name |}
          else None) medicines.

Definition brand_strategy (db : MedicineService.Session) (medicine_info : Info.t)
    (limit : Z) : Result (list Candidate.t) :=
  if truthy (Info.brand_name medicine_info) then
    medicines ← MedicineService.search_medicines db (Info.brand_name medicine_info) limit;
    Ok (brand_candidates (Info.brand_name medicine_info) medicines)
  else Ok [].

Definition generic_candidates (hint : str) (medicines : list Medicine.t)
    : list Candidate.t :=
  omap (fun medicine =>
          let confidence := calculate_name_confidence hint (Medicine.generic_name medicine) in
          if Qgtb confidence 0.7 then
            Some {| Candidate.medicine := medicine;
                    Candidate.confidence_score := confidence;
                    Candidate.matched_text := Medicine.generic_name medicine;
                    Candidate.match_type := Tag.generic_name |}
          else None) medicines.

Definition generic_strategy (db : MedicineService.Session) (medicine_info : Info.t)
    (limit : Z) : Result (list Candidate.t) :=
  if truthy (Info.generic_name medicine_info) then
    medicines ← MedicineService.search_medicines db (Info.generic_name medicine_info) limit;
    Ok (generic_candidates (Info.generic_name medicine_info) medicines)
  else Ok [].

Definition manufacturer_candidates (hint : str) (medicines : list Medicine.t)
    : list Candidate.t :=
  omap (fun medicine =>
          let confidence := calculate_name_confidence hint (Medicine.manufacturer medicine) in
          if Qgtb confidence 0.8 then
            Some {| Candidate.medicine := medicine;
                    Candidate.confidence_score := confidence * 0.8;
                    Candidate.matched_text := Medicine.manufacturer medicine;
                    Candidate.match_type := Tag.manufacturer |}
          else None) medicines.

Definition manufacturer_strategy (db : MedicineService.Session) (medicine_info : Info.t)
    (limit : Z) : Result (list Candidate.t) :=
  if truthy (Info.manufacturer medicine_info) then
    medicines ← MedicineService.search_medicines db (Info.manufacturer medicine_info) limit;
    Ok (manufacturer_candidates (Info.manufacturer medicine_info) medicines)
  else Ok [].

(** The body of the fuzzy loop for one catalog entry. *)
Definition fuzzy_candidate (text : str) (medicine : Medicine.t)
    : Result (list Candidate.t) :=
  brand ← attr_lower (Medicine.brand_name medicine);
  let brand_similarity := fuzz_partial_ratio (lower text) brand in
  generic ← attr_lower (Medicine.generic_name medicine);
  let generic_similarity := fuzz_partial_ratio (lower text) generic in
  manufacturer ← attr_lower (Medicine.manufacturer medicine);
  let manufacturer_similarity := fuzz_partial_ratio (lower text) manufacturer in
  let max_similarity :=
    Z.max (Z.max brand_similarity generic_similarity) manufacturer_similarity in
  if (70 <? max_similarity)%Z then
    Ok [ {| Candidate.medicine := medicine;
            Candidate.confidence_score := inject_Z max_similarity / 100;
            Candidate.matched_text := get_best_match text medicine;
            Candidate.match_type := Tag.fuzzy |} ]
  else Ok [].

Definition fuzzy_strategy (db : MedicineService.Session) (text : str)
    : Result (list Candidate.t) :=
  all_medicines ← MedicineService.get_medicines db 0 100;
  for_each (fuzzy_candidate text) all_medicines.

(** The [try] block of [search_medicines_by_ocr_text]: [results] grows
    strategy by strategy. *)
Definition collect_candidates (db : MedicineService.Session) (text : str) (limit : Z)
    : Result (list Candidate.t) :=
  let medicine_info := extract_medicine_info text in
  by_barcode ← barcode_strategy db medicine_info;
  by_brand ← brand_strategy db medicine_info limit;
  by_generic ← generic_strategy db medicine_info limit;
  by_manufacturer ← manufacturer_strategy db medicine_info limit;
  by_fuzzy ← fuzzy_strategy db text;
  Ok (by_barcode ++ by_brand ++ by_generic ++ by_manufacturer ++ by_fuzzy).

Definition search_medicines_by_ocr_text (db : MedicineService.Session) (text : str)
    (limit : Z) : list Candidate.t :=
  try_default
    (results ← collect_candidates db text limit;
     Ok (rank_results results limit))
    [].

End fuzzywuzzy.

(** *** The scan entry points *)

Section imaging.
(** A decoded bitmap ([np.ndarray]) and the external capabilities:
    [cv2.imdecode(np.frombuffer(b, np.uint8), cv2.IMREAD_COLOR)], which
    returns [None] for a buffer that is no image and may raise; the cv2
    calls of [preprocess_image]; [pytesseract.image_to_string]; and
    [base64.b64decode]. *)
Variable Image : Type.
Variable imdecode : list Byte.byte -> Result (option Image).
Variable cv2_binarize : Image -> Result Image.
Variable image_to_string : Image -> Result str.
Variable b64decode : str -> Result (list Byte.byte).

Definition preprocess_image (image : Image) : Image :=
  try_default (cv2_binarize image) image.

Definition extract_text_from_image (image : Image) : str :=
  try_default
    (let processed_image := preprocess_image image in
     text ← image_to_string processed_image;
     Ok (clean_extracted_text text))
    [].

(** What the entry points return: the text and the info dict; the
    dict [{}] of the handlers is [None]. *)
Definition scan_result : Type := str * option Info.t.

(** Lines 331-343 and 359-372: decode, recognise, extract. *)
Definition scan_bytes (image_bytes : list Byte.byte) : Result scan_result :=
  image ← imdecode image_bytes;
  match image with
  | None => Raise (ValueError "Could not decode image")
  | Some image =>
      let extracted_text := extract_text_from_image image in
      let medicine_info := extract_medicine_info extracted_text in
      Ok (extracted_text, Some medicine_info)
  end.

(** [image_bytes] is what [image_file.read()] returned. *)
Definition process_image_file (image_bytes : list Byte.byte) : Result scan_result :=
  try_except (scan_bytes image_bytes) (fun _ => Ok ([], None)).

Definition process_base64_image (base64_string : str) : Result scan_result :=
  try_except
    (base64_string ←
       (if startswith (str_of "data:image") base64_string
        then match split ","%char base64_string !! 1%nat with
             | Some payload => Ok payload
             | None => Raise IndexError
             end
        else Ok base64_string);
     image_bytes ← b64decode base64_string;
     scan_bytes image_bytes)
    (fun _ => Ok ([], None)).

End imaging.

End OCRService.

(** * Vocabulary of the properties and the catalogs of the examples *)

Import Py Re Exc OCRService.

Abbreviation score := Candidate.confidence_score.
Abbreviation tag := Candidate.match_type.
Abbreviation space := " "%char.
Abbreviation newline := "010"%char.

(** A name hint is either unset or the stripped form of one of the lines,
    of length at least three. *)
Definition hint_ok (lines : list str) (hint : str) : Prop :=
  hint = [] ∨ ∃ line, line ∈ lines ∧ hint = strip line ∧ 3 ≤ length hint.

Definition names_ok (lines : list str) (names : Names.t) : Prop :=
  hint_ok lines (Names.brand_name names) ∧ hint_ok lines (Names.generic_name names).

#[global] Instance Qlt_decision (x y : Q) : Decision (x < y)%Q :=
  match Qlt_le_dec x y with
  | left H => left H
  | right H => right (Qle_not_lt _ _ H)
  end.

(** [a] occurs in [b] as a contiguous substring. *)
Definition substring (a b : str) : Prop := ∃ pre post, b = pre ++ a ++ post.

(** The score the manufacturer strategy computes for a catalog entry. *)
Definition manufacturer_score (fuzz_ratio : str -> str -> Z) (hint : str)
    (medicine : Medicine.t) : Q :=
  calculate_name_confidence fuzz_ratio hint (Medicine.manufacturer medicine).

(** [r] is the candidate the manufacturer strategy emits for [medicine]. *)
Definition emitted_for (fuzz_ratio : str -> str -> Z) (hint : str)
    (medicine : Medicine.t) (r : Candidate.t) : Prop :=
  Candidate.medicine r = medicine
  ∧ Candidate.confidence_score r = (manufacturer_score fuzz_ratio hint medicine * 0.8)%Q
  ∧ Candidate.matched_text r = Medicine.manufacturer medicine
  ∧ Candidate.match_type r = Tag.manufacturer.

(** The first result of a list that is about catalog entry [i]. *)
Definition first_seen (results : list Candidate.t) (i : Z) : option Candidate.t :=
  head (filter (λ r, Candidate.id r = i) results).

(** [a] stands before [b] in [l]. *)
Definition before {A} (l : list A) (a b : A) : Prop :=
  ∃ i j, i < j ∧ l !! i = Some a ∧ l !! j = Some b.

(** The order of the sorted list: greater confidence first; among equal
    confidences, the order of the list that was sorted. *)
Definition ranks_before (input : list Candidate.t) (a b : Candidate.t) : Prop :=
  (score b < score a)%Q ∨ ((score a == score b)%Q ∧ before input a b).

(** Priority never increases from [a] to [b]. *)
Definition tag_order (a b : Candidate.t) : Prop :=
  Tag.priority (tag a) ≤ Tag.priority (tag b).

(** The end-to-end scenario of the specification. *)
Module Scenario.

Definition napa : Medicine.t :=
  {| Medicine.id := 1;
     Medicine.brand_name := Some (str_of "Napa");
     Medicine.generic_name := Some (str_of "Paracetamol");
     Medicine.strength := Some (str_of "500mg");
     Medicine.manufacturer := Some (str_of "Beximco Pharma");
     Medicine.barcode := Some (str_of "8901234567") |}.

(** A session on which every statement succeeds. *)
Definition healthy (rows : list Medicine.t) : MedicineService.Session :=
  {| MedicineService.rows := rows; MedicineService.fails := λ _, false |}.

Definition scan_text : str := str_of "NAPA 500MG TABLET BEXIMCO PHARMA 8901234567".

(** A similarity that rates every pair at 100, for the examples whose
    outcome does not depend on the fuzzy scores. *)
Definition all_similar : str -> str -> Z := λ _ _, 100%Z.

Definition barcode_hit : Candidate.t :=
  {| Candidate.medicine := napa;
     Candidate.confidence_score := 0.95;
     Candidate.matched_text := Some (str_of "8901234567");
     Candidate.match_type := Tag.barcode |}.

End Scenario.

Module Duplicates.
(** The same entry found by the brand strategy at 0.9 and then by the
    fuzzy strategy at 1.0. *)
Definition by_brand : Candidate.t :=
  {| Candidate.medicine := Scenario.napa;
     Candidate.confidence_score := 0.9;
     Candidate.matched_text := Some (str_of "Napa");
     Candidate.match_type := Tag.brand_name |}.

Definition by_fuzzy : Candidate.t :=
  {| Candidate.medicine := Scenario.napa;
     Candidate.confidence_score := 1;
     Candidate.matched_text := Some (str_of "Napa");
     Candidate.match_type := Tag.fuzzy |}.
End Duplicates.

(** The order the specification asks for between two results. *)
Definition specified_precedence (r1 r2 : Candidate.t) : Prop :=
  (score r2 < score r1)%Q
  ∨ ((score r1 == score r2)%Q ∧ Tag.priority (tag r1) < Tag.priority (tag r2))
  ∨ ((score r1 == score r2)%Q ∧ Tag.priority (tag r1) = Tag.priority (tag r2)
     ∧ (Candidate.id r1 < Candidate.id r2)%Z).

Definition ranked_as_specified (out : list Candidate.t) : Prop :=
  ∀ i j r1 r2, out !! i = Some r1 → out !! j = Some r2 →
               specified_precedence r1 r2 → i < j.

Module TwoNapas.
(** A catalog whose scan order is not the order of the ids. *)
Definition napa_extra : Medicine.t :=
  {| Medicine.id := 5;
     Medicine.brand_name := Some (str_of "Napa Extra");
     Medicine.generic_name := Some (str_of "Paracetamol + Caffeine");
     Medicine.strength := Some (str_of "500mg");
     Medicine.manufacturer := Some (str_of "Beximco Pharma");
     Medicine.barcode := None |}.

Definition napa_rapid : Medicine.t :=
  {| Medicine.id := 2;
     Medicine.brand_name := Some (str_of "Napa Rapid");
     Medicine.generic_name := Some (str_of "Paracetamol");
     Medicine.strength := Some (str_of "500mg");
     Medicine.manufacturer := Some (str_of "Beximco Pharma");
     Medicine.barcode := None |}.

Definition db : MedicineService.Session := Scenario.healthy [napa_extra; napa_rapid].

Definition brand_hit (medicine : Medicine.t) : Candidate.t :=
  {| Candidate.medicine := medicine;
     Candidate.confidence_score := 0.9;
     Candidate.matched_text := Medicine.brand_name medicine;
     Candidate.match_type := Tag.brand_name |}.

End TwoNapas.

(** A catalog entry with a missing name. *)
Definition poisoned (medicine : Medicine.t) : Prop :=
  Medicine.brand_name medicine = None
  ∨ Medicine.generic_name medicine = None
  ∨ Medicine.manufacturer medicine = None.

(** Some strategy ran to its end and found a candidate. *)
Definition some_strategy_found (fuzz_ratio fuzz_partial_ratio : str -> str -> Z)
    (db : MedicineService.Session) (text : str) (limit : Z) : Prop :=
  ∃ r found, r ∈ found
    ∧ (barcode_strategy db (extract_medicine_info text) = Ok found
       ∨ brand_strategy fuzz_ratio db (extract_medicine_info text) limit = Ok found
       ∨ generic_strategy fuzz_ratio db (extract_medicine_info text) limit = Ok found
       ∨ manufacturer_strategy fuzz_ratio db (extract_medicine_info text) limit = Ok found
       ∨ fuzzy_strategy fuzz_partial_ratio db text = Ok found).

(** The isolation the specification asks for: what the strategies that did
    not fail have found is not lost, so the match is not empty. *)
Definition failures_isolated (fuzz_ratio fuzz_partial_ratio : str -> str -> Z)
    (db : MedicineService.Session) (text : str) (limit : Z) : Prop :=
  some_strategy_found fuzz_ratio fuzz_partial_ratio db text limit →
  search_medicines_by_ocr_text fuzz_ratio fuzz_partial_ratio db text limit ≠ [].

Module Failing.
(** The scenario catalog on a session whose page listing, the catalog call
    of the fuzzy strategy, fails. *)
Definition page_down : MedicineService.Session :=
  {| MedicineService.rows := [Scenario.napa];
     MedicineService.fails := λ q, match q with
                                   | MedicineService.Page _ _ => true
                                   | _ => false
                                   end |}.

(** A row without a brand name. *)
Definition nameless : Medicine.t :=
  {| Medicine.id := 2;
     Medicine.brand_name := None;
     Medicine.generic_name := Some (str_of "Ibuprofen");
     Medicine.strength := Some (str_of "200mg");
     Medicine.manufacturer := Some (str_of "Square Pharma");
     Medicine.barcode := None |}.

(** The scenario catalog with that row added, on a healthy session. *)
Definition with_nameless : MedicineService.Session :=
  Scenario.healthy [Scenario.napa; nameless].
End Failing.

Module Label.
(** Recognised text of a two-line label. *)
Definition raw : str := str_of "NAPA" ++ [newline] ++ str_of "Beximco Pharma Ltd".
End Label.

(** The allow-list of the specification: letters, digits, spaces and the
    punctuation set. *)
Definition specified_allowed (c : ascii) : bool :=
  is_alpha c || is_digit c || eqb_char c space || existsb (eqb_char c) kept_punctuation.

Module NoImage.
(** A decoder for which no buffer is an image: it raises on the empty
    buffer and returns [None] otherwise. *)
Definition imdecode (image_bytes : list Byte.byte) : Result (option unit) :=
  match image_bytes with
  | [] => Raise (LibraryError "cv2")
  | _ :: _ => Ok None
  end.

Definition cv2_binarize (image : unit) : Result unit := Ok image.
Definition image_to_string (image : unit) : Result str := Ok [].

(** [base64.b64decode] on the empty string and on ["AA=="]. *)
Definition b64decode (s : str) : Result (list Byte.byte) :=
  if eqb_str s [] then Ok []
  else if eqb_str s (str_of "AA==") then Ok [Byte.x00]
  else Raise (LibraryError "binascii").
End NoImage.

(** The buffer cannot be decoded: the decoder returns [None] or raises. *)
Definition undecodable (Image : Type) (imdecode : list Byte.byte -> Result (option Image))
    (image_bytes : list Byte.byte) : Prop :=
  imdecode image_bytes = Ok None ∨ raises (imdecode image_bytes).

(** No whitespace character follows another one; [after_space] tells that
    the character before the text is one. *)
Fixpoint single_spaced (after_space : bool) (s : str) : bool :=
  match s with
  | [] => true
  | c :: s' =>
      if is_space c then negb after_space && single_spaced true s'
      else single_spaced false s'
  end.

(** [c] is a character the normaliser lets through: a letter, a digit,
    the underscore, the space or one of the punctuation marks. *)
Definition normal_char (c : ascii) : bool :=
  is_alpha c || is_digit c || is_underscore c || eqb_char c space
  || existsb (eqb_char c) kept_punctuation.

(** ** Further methods of [MedicineService]: barcode validation and the
       text search with confidence *)

Module MedicineSearch.
Import Py Exc.

(** [s.isdigit()]: non-empty and digits only. *)
Definition isdigit (s : str) : bool := truthy s && forallb is_digit s.

(** The class [[\s-]] that [validate_barcode] removes. *)
Definition separator (c : ascii) : bool := is_space c || eqb_char c "-"%char.

Definition validate_barcode (barcode : str) : bool :=
  if negb (truthy barcode) then true
  else
    let clean_barcode := filter (λ c, negb (separator c)) barcode in
    if negb (isdigit clean_barcode) then false
    else if (length clean_barcode <? 8) || (13 <? length clean_barcode) then false
    else true.

(** [_calculate_confidence_score]: the names are read in the order brand,
    generic, manufacturer; [.lower()] on a missing one raises. *)
Definition _calculate_confidence_score (query : str) (medicine : Medicine.t) : Result Q :=
  let query_lower := lower query in
  let score := 0%Q in
  brand ← OCRService.attr_lower (Medicine.brand_name medicine);
  let score :=
    if eqb_str brand query_lower then (score + 1)%Q
    else if startswith query_lower brand then (score + 0.8)%Q
    else if contains query_lower brand then (score + 0.6)%Q
    else score in
  generic ← OCRService.attr_lower (Medicine.generic_name medicine);
  let score :=
    if eqb_str generic query_lower then (score + 0.9)%Q
    else if startswith query_lower generic then (score + 0.7)%Q
    else if contains query_lower generic then (score + 0.5)%Q
    else score in
  manufacturer ← OCRService.attr_lower (Medicine.manufacturer medicine);
  let score :=
    if eqb_str manufacturer query_lower then (score + 0.5)%Q
    else if contains query_lower manufacturer then (score + 0.3)%Q
    else score in
  (* [min(score, 1.0)] *)
  Ok (if OCRService.Qgtb score 1 then 1%Q else score).

(** [_get_matched_text]: the first name that contains the query, or [""]. *)
Definition _get_matched_text (query : str) (medicine : Medicine.t)
    : Result (option str) :=
  let query_lower := lower query in
  brand ← OCRService.attr_lower (Medicine.brand_name medicine);
  if contains query_lower brand then Ok (Medicine.brand_name medicine)
  else
    generic ← OCRService.attr_lower (Medicine.generic_name medicine);
    if contains query_lower generic then Ok (Medicine.generic_name medicine)
    else
      manufacturer ← OCRService.attr_lower (Medicine.manufacturer medicine);
      if contains query_lower manufacturer then Ok (Medicine.manufacturer medicine)
      else Ok (Some []).

(** A result dict of [search_medicines_with_confidence]. *)
Record Scored : Type := {
  medicine : Medicine.t;
  confidence_score : Q;
  matched_text : option str;
}.

(** [list.sort(key=..., reverse=True)]: the stable sort by decreasing key. *)
Fixpoint insert_desc {A} (key : A → Q) (x : A) (l : list A) : list A :=
  match l with
  | [] => [x]
  | y :: l' =>
      if OCRService.Qgtb (key y) (key x) then y :: insert_desc key x l'
      else x :: y :: l'
  end.

Definition sort_desc {A} (key : A → Q) (l : list A) : list A :=
  foldr (insert_desc key) [] l.

(** The loop body of [search_medicines_with_confidence]. *)
Definition score_medicine (query : str) (medicine : Medicine.t) : Result (list Scored) :=
  confidence ← _calculate_confidence_score query medicine;
  matched ← _get_matched_text query medicine;
  Ok [ {| medicine := medicine; confidence_score := confidence;
          matched_text := matched |} ].

Definition search_medicines_with_confidence (db : MedicineService.Session)
    (query : str) (limit : Z) : Result (list Scored) :=
  medicines ← MedicineService.search_medicines db query limit;
  results ← for_each (score_medicine query) medicines;
  Ok (sort_desc confidence_score results).

End MedicineSearch.

(** ** The first qualifying line of each field *)

(** The manufacturer test of [extract_medicine_info] on a stripped line. *)
Definition has_manufacturer_keyword (line : str) : bool :=
  existsb (λ keyword, contains keyword (lower line)) manufacturer_keywords.

(** The tests of [extract_potential_names] on a stripped line: long enough
    and free of dosage-form words; then upper-case and short for the brand
    name, and otherwise of middle length for the generic name. *)
Definition name_line (line : str) : bool :=
  negb (length line <? 3)
  && negb (existsb (λ skip_word, contains skip_word (lower line)) skip_words).

Definition brand_line (line : str) : bool :=
  name_line line && ((length line <=? 30) && isupper line).

Definition generic_line (line : str) : bool :=
  name_line line && negb ((length line <=? 30) && isupper line)
  && ((10 <? length line) && (length line <=? 50)).

(** The stripped lines of a text. *)
Definition stripped_lines (text : str) : list str := strip <$> split newline text.

(** The text is blank: whitespace only. *)
Definition blank (text : str) : Prop := Forall (λ c, is_space c = true) text.

(** A similarity with the guards of [fuzz.partial_ratio]: two equal strings
    are rated 100, also two empty ones; otherwise a pair with an empty
    string is rated 0; every other pair is rated 100 here. *)
Definition guarded_ratio : str -> str -> Z :=
  λ s1 s2, if eqb_str s1 s2 then 100%Z
           else if negb (truthy s1) || negb (truthy s2) then 0%Z
           else 100%Z.

(** None of the names of the entry is the empty string. *)
Definition no_empty_name (medicine : Medicine.t) : Prop :=
  Medicine.brand_name medicine ≠ Some []
  ∧ Medicine.generic_name medicine ≠ Some []
  ∧ Medicine.manufacturer medicine ≠ Some [].

(** The names of a catalog entry are present, with these lower-case
    forms. *)
Definition lower_names (medicine : Medicine.t) (brand generic manufacturer : str) : Prop :=
  attr_lower (Medicine.brand_name medicine) = Ok brand
  ∧ attr_lower (Medicine.generic_name medicine) = Ok generic
  ∧ attr_lower (Medicine.manufacturer medicine) = Ok manufacturer.

(** How the strategies can have found a result [r] for the fields [info]
    of a text. *)
Definition found_by_barcode (db : MedicineService.Session) (info : Info.t)
    (r : Candidate.t) : Prop :=
  tag r = Tag.barcode ∧ score r = 0.95%Q
  ∧ Candidate.matched_text r = Some (Info.barcode info)
  ∧ MedicineService.get_medicine_by_barcode db (Info.barcode info)
    = Ok (Some (Candidate.medicine r)).

Definition found_by_name (fuzz_ratio : str -> str -> Z) (db : MedicineService.Session)
    (limit : Z) (hint : str) (field : Medicine.t → option str) (r : Candidate.t) : Prop :=
  (∃ medicines, MedicineService.search_medicines db hint limit = Ok medicines
                ∧ Candidate.medicine r ∈ medicines)
  ∧ Candidate.matched_text r = field (Candidate.medicine r)
  ∧ score r = calculate_name_confidence fuzz_ratio hint (field (Candidate.medicine r)).

Definition found_by_manufacturer (fuzz_ratio : str -> str -> Z)
    (db : MedicineService.Session) (limit : Z) (hint : str) (r : Candidate.t) : Prop :=
  (∃ medicines, MedicineService.search_medicines db hint limit = Ok medicines
                ∧ Candidate.medicine r ∈ medicines)
  ∧ Candidate.matched_text r = Medicine.manufacturer (Candidate.medicine r)
  ∧ (0.8 < manufacturer_score fuzz_ratio hint (Candidate.medicine r))%Q
  ∧ score r = (manufacturer_score fuzz_ratio hint (Candidate.medicine r) * 0.8)%Q.

Definition found_by_fuzzy (fuzz_partial_ratio : str -> str -> Z)
    (db : MedicineService.Session) (text : str) (r : Candidate.t) : Prop :=
  (∃ medicines, MedicineService.get_medicines db 0 100 = Ok medicines
                ∧ Candidate.medicine r ∈ medicines)
  ∧ Candidate.matched_text r = get_best_match fuzz_partial_ratio text (Candidate.medicine r)
  ∧ ∃ brand generic manufacturer,
      lower_names (Candidate.medicine r) brand generic manufacturer
      ∧ (70 < Z.max (Z.max (fuzz_partial_ratio (lower text) brand)
                           (fuzz_partial_ratio (lower text) generic))
                    (fuzz_partial_ratio (lower text) manufacturer))%Z
      ∧ score r = (inject_Z (Z.max (Z.max (fuzz_partial_ratio (lower text) brand)
                                          (fuzz_partial_ratio (lower text) generic))
                                   (fuzz_partial_ratio (lower text) manufacturer))
                   / 100)%Q.

Module OneImage.
(** A decoder that accepts every non-empty buffer, and an engine that
    reads the two-line label on every image. *)
Definition imdecode (image_bytes : list Byte.byte) : Result (option unit) :=
  match image_bytes with
  | [] => Ok None
  | _ :: _ => Ok (Some tt)
  end.

Definition image_to_string (image : unit) : Result str := Ok Label.raw.

(** An engine that fails. *)
Definition no_engine (image : unit) : Result str := Raise (LibraryError "pytesseract").
End OneImage.


(** The query occurs in the column, case apart; never in a NULL. *)
Definition column_contains (query : str) (column : option str) : bool :=
  match column with
  | Some v => contains (lower query) (lower v)
  | None => false
  end.

Definition name_contains (query : str) (medicine : Medicine.t) : bool :=
  column_contains query (Medicine.brand_name medicine)
  || column_contains query (Medicine.generic_name medicine)
  || column_contains query (Medicine.manufacturer medicine).

(** One of the three names of the medicine is missing. *)
Definition name_missing (medicine : Medicine.t) : Prop :=
  Medicine.brand_name medicine = None
  ∨ Medicine.generic_name medicine = None
  ∨ Medicine.manufacturer medicine = None.

#[global] Instance name_missing_dec medicine : Decision (name_missing medicine).
Proof. unfold name_missing. apply _. Defined.

(** The order of a list sorted by decreasing key: greater key first; among
    equal keys, the order of the list that was sorted. *)
Definition desc_before {A} (key : A → Q) (input : list A) (a b : A) : Prop :=
  (key b < key a)%Q ∨ ((key a == key b)%Q ∧ before input a b).

(** A catalog entry whose generic name contains its brand name. *)
Module Plain.
Definition aspirin : Medicine.t :=
  {| Medicine.id := 7;
     Medicine.brand_name := Some (str_of "Aspirin");
     Medicine.generic_name := Some (str_of "Aspirin 75");
     Medicine.strength := Some (str_of "75mg");
     Medicine.manufacturer := Some (str_of "Bayer");
     Medicine.barcode := None |}.
End Plain.



Module SameMaker.
(** Another product of the manufacturer of entry 1. *)
Definition ace : Medicine.t :=
  {| Medicine.id := 2;
     Medicine.brand_name := Some (str_of "Ace");
     Medicine.generic_name := Some (str_of "Paracetamol");
     Medicine.strength := Some (str_of "500mg");
     Medicine.manufacturer := Some (str_of "Beximco Pharma");
     Medicine.barcode := None |}.

(** The scenario catalog with that entry added. *)
Definition db : MedicineService.Session := Scenario.healthy [Scenario.napa; ace].

End SameMaker.


(** * Properties *)

(** ** Facts about the string operations *)

Lemma eqb_char_true (a b : ascii) : eqb_char a b = true ↔ a = b.
Proof. apply Ascii.eqb_eq. Qed.

Lemma eqb_str_true (a b : str) : eqb_str a b = true ↔ a = b.
Proof. unfold eqb_str. apply bool_decide_eq_true. Qed.

Lemma truthy_true (s : str) : truthy s = true ↔ s ≠ [].
Proof. destruct s; simpl; split; congruence. Qed.

Lemma truthy_lower (s : str) : truthy (lower s) = truthy s.
Proof. by destruct s. Qed.

Lemma startswith_spec (p s : str) : startswith p s = true ↔ ∃ q, s = p ++ q.
Proof.
  revert s. induction p as [|a p IH]; intros s; simpl.
  - split; [eauto | done].
  - destruct s as [|b s].
    + split; [done | intros [q Hq]; discriminate].
    + rewrite andb_true_iff, eqb_char_true, IH. split.
      * intros [-> [q ->]]. eauto.
      * intros [q Hq]. injection Hq as -> ->. eauto.
Qed.

(** [contains] decides the substring relation. *)
Lemma contains_spec (needle hay : str) :
  contains needle hay = true ↔ ∃ pre post, hay = pre ++ needle ++ post.
Proof.
  induction hay as [|c hay IH]; simpl.
  - rewrite orb_false_r, startswith_spec. split.
    + intros [q Hq]. exists [], q. done.
    + intros (pre & post & H). destruct pre; [|discriminate].
      exists post. done.
  - rewrite orb_true_iff, startswith_spec, IH. split.
    + intros [[q Hq] | (pre & post & ->)].
      * exists [], q. done.
      * exists (c :: pre), post. done.
    + intros (pre & post & H). destruct pre as [|c' pre]; simpl in H.
      * left. eauto.
      * right. injection H as -> ->. eauto.
Qed.

Lemma lstrip_suffix (s : str) : ∃ pre, s = pre ++ lstrip s ∧ Forall (λ c, is_space c = true) pre.
Proof.
  induction s as [|c s (pre & Hs & Hpre)]; simpl.
  - exists []. done.
  - destruct (is_space c) eqn:Hc.
    + exists (c :: pre). split; [by rewrite Hs at 1 | by constructor].
    + exists []. done.
Qed.

Lemma rstrip_prefix (s : str) : ∃ post, s = rstrip s ++ post ∧ Forall (λ c, is_space c = true) post.
Proof.
  induction s as [|c s (post & Hs & Hpost)]; simpl.
  - exists []. done.
  - unfold rstrip in *. simpl. destruct (foldr _ [] s) as [|d r] eqn:Hr.
    + simpl in Hs. destruct (is_space c) eqn:Hc.
      * exists (c :: post). split; [by rewrite Hs at 1 | by constructor].
      * exists post. split; [by rewrite Hs at 1 | done].
    + exists post. split; [by rewrite Hs at 1 | done].
Qed.

Lemma strip_sublist (s : str) : strip s `sublist_of` s.
Proof.
  unfold strip. destruct (lstrip_suffix s) as (pre & Hs & _).
  destruct (rstrip_prefix (lstrip s)) as (post & Hl & _).
  rewrite Hs at 2. rewrite Hl at 2.
  apply sublist_inserts_l, sublist_inserts_r. done.
Qed.

(** ** C10: short lines are never name hints *)

Section names.
Variable lines : list str.

Lemma names_step_ok names line :
  line ∈ lines → names_ok lines names → names_ok lines (names_step names line).
Proof.
  intros Hin [Hb Hg]. unfold names_step.
  destruct (negb (truthy (strip line)) || (length (strip line) <? 3)) eqn:Hshort;
    [done|].
  apply orb_false_iff in Hshort as [_ Hlen%Nat.ltb_ge].
  repeat case_match; try done; split; simpl; try done; right; eauto.
Qed.

Lemma names_fold_ok ls names :
  ls ⊆ lines → names_ok lines names → names_ok lines (foldl names_step names ls).
Proof.
  revert names. induction ls as [|l ls IH]; intros names Hsub Hok; simpl; [done|].
  apply IH; [intros x Hx; apply Hsub; by right|].
  apply names_step_ok; [apply Hsub; by left | done].
Qed.
End names.

Lemma names_step_short names line :
  length (strip line) < 3 → names_step names line = names.
Proof.
  intros Hlen%Nat.ltb_lt. unfold names_step. by rewrite Hlen, orb_true_r.
Qed.

(** C10. The name-hint extractor skips every line whose stripped form has
    fewer than three characters, whatever its case and content: such a
    line leaves the hints unchanged, and a hint that was set is the
    stripped form of one of the lines and has at least three characters.
    The hints of [extract_medicine_info] are those of the extractor. *)
Theorem C10_short_line_never_hint (lines : list str) :
  (∀ names line, length (strip line) < 3 → names_step names line = names)
  ∧ names_ok lines (extract_potential_names lines)
  ∧ (∀ line, line ∈ lines → length (strip line) < 3 →
       truthy (Names.brand_name (extract_potential_names lines)) = true →
       Names.brand_name (extract_potential_names lines) ≠ strip line)
  ∧ (∀ line, line ∈ lines → length (strip line) < 3 →
       truthy (Names.generic_name (extract_potential_names lines)) = true →
       Names.generic_name (extract_potential_names lines) ≠ strip line).
Proof.
  assert (Hok : names_ok lines (extract_potential_names lines)).
  { apply names_fold_ok; [done|]. split; by left. }
  split; [apply names_step_short|]. split; [done|].
  destruct Hok as [Hb Hg].
  split; intros line _ Hlen Hset Heq; apply truthy_true in Hset.
  - destruct Hb as [?|(? & _ & _ & ?)]; [done|]. rewrite Heq in *. lia.
  - destruct Hg as [?|(? & _ & _ & ?)]; [done|]. rewrite Heq in *. lia.
Qed.

(** The claim at an upper-case two-letter line that no dosage-form word
    excludes. *)
Lemma C10_witness :
  Names.brand_name (extract_potential_names [str_of "AB"; str_of "NAPA"]) ≠ str_of "AB".
Proof.
  destruct (C10_short_line_never_hint [str_of "AB"; str_of "NAPA"])
    as (_ & _ & Hbrand & _).
  apply (Hbrand (str_of "AB")).
  - set_solver.
  - vm_compute. lia.
  - vm_compute. reflexivity.
Defined.

(** ** Confidences *)

Lemma Qgtb_true (x y : Q) : Qgtb x y = true ↔ (y < x)%Q.
Proof.
  unfold Qgtb. rewrite negb_true_iff, <- not_true_iff_false, Qle_bool_iff.
  split; [apply Qnot_le_lt | apply Qlt_not_le].
Qed.

Lemma Qgtb_false (x y : Q) : Qgtb x y = false ↔ (x <= y)%Q.
Proof.
  unfold Qgtb. rewrite negb_false_iff. apply Qle_bool_iff.
Qed.

(** ** C5: name confidence *)

Section name_confidence.
Variable fuzz_ratio : str -> str -> Z.

Lemma name_confidence_empty extracted catalog_value :
  extracted = [] ∨ catalog_value = [] →
  calculate_name_confidence fuzz_ratio extracted (Some catalog_value) = 0%Q.
Proof.
  unfold calculate_name_confidence. intros [-> | ->]; [done|].
  simpl. by rewrite orb_true_r.
Qed.

Lemma name_confidence_unfold extracted catalog_value :
  extracted ≠ [] → catalog_value ≠ [] →
  calculate_name_confidence fuzz_ratio extracted (Some catalog_value) =
    if eqb_str (lower extracted) (lower catalog_value) then 1%Q
    else if contains (lower extracted) (lower catalog_value)
            || contains (lower catalog_value) (lower extracted) then 0.9%Q
    else (inject_Z (fuzz_ratio (lower extracted) (lower catalog_value)) / 100)%Q.
Proof.
  intros He%truthy_true Hc%truthy_true. unfold calculate_name_confidence.
  simpl. rewrite He, Hc. simpl. by repeat case_match.
Qed.

Lemma name_confidence_exact extracted catalog_value :
  extracted ≠ [] → catalog_value ≠ [] →
  lower extracted = lower catalog_value →
  calculate_name_confidence fuzz_ratio extracted (Some catalog_value) = 1%Q.
Proof.
  intros He Hc Heq. rewrite name_confidence_unfold by done.
  apply eqb_str_true in Heq. by rewrite Heq.
Qed.

Lemma name_confidence_substring extracted catalog_value :
  extracted ≠ [] → catalog_value ≠ [] →
  lower extracted ≠ lower catalog_value →
  substring (lower extracted) (lower catalog_value)
  ∨ substring (lower catalog_value) (lower extracted) →
  calculate_name_confidence fuzz_ratio extracted (Some catalog_value) = 0.9%Q.
Proof.
  intros He Hc Hne Hsub. rewrite name_confidence_unfold by done.
  destruct (eqb_str _ _) eqn:Heq; [by apply eqb_str_true in Heq|].
  assert (contains (lower extracted) (lower catalog_value)
          || contains (lower catalog_value) (lower extracted) = true) as ->; [|done].
  apply orb_true_iff. destruct Hsub as [H|H]; [left | right]; by apply contains_spec.
Qed.

Lemma name_confidence_case extracted catalog_value extracted' catalog_value' :
  lower extracted' = lower extracted →
  lower catalog_value' = lower catalog_value →
  calculate_name_confidence fuzz_ratio extracted' (Some catalog_value') =
  calculate_name_confidence fuzz_ratio extracted (Some catalog_value).
Proof.
  intros He Hc. unfold calculate_name_confidence. simpl.
  rewrite <- (truthy_lower extracted'), <- (truthy_lower catalog_value'),
    <- (truthy_lower extracted), <- (truthy_lower catalog_value).
  by rewrite He, Hc.
Qed.

Lemma name_confidence_None extracted :
  calculate_name_confidence fuzz_ratio extracted None = 0%Q.
Proof. unfold calculate_name_confidence. simpl. by rewrite orb_true_r. Qed.
End name_confidence.

(** C5. [calculate_name_confidence] is 0.0 when an input is empty, 1.0 on
    equality up to case of two non-empty strings, and 0.9 when two
    non-empty strings differ up to case and one contains the other up to
    case; it depends on its inputs only through their lower-case forms;
    none of the three values depends on [fuzz.ratio]. The three examples
    of the specification are instances. *)
Theorem C5_name_confidence (fuzz_ratio : str -> str -> Z) (extracted catalog_value : str) :
  (extracted = [] ∨ catalog_value = [] →
     calculate_name_confidence fuzz_ratio extracted (Some catalog_value) = 0%Q)
  ∧ (extracted ≠ [] → catalog_value ≠ [] → lower extracted = lower catalog_value →
     calculate_name_confidence fuzz_ratio extracted (Some catalog_value) = 1%Q)
  ∧ (extracted ≠ [] → catalog_value ≠ [] → lower extracted ≠ lower catalog_value →
     substring (lower extracted) (lower catalog_value)
     ∨ substring (lower catalog_value) (lower extracted) →
     calculate_name_confidence fuzz_ratio extracted (Some catalog_value) = 0.9%Q)
  ∧ (∀ extracted' catalog_value',
       lower extracted' = lower extracted → lower catalog_value' = lower catalog_value →
       calculate_name_confidence fuzz_ratio extracted' (Some catalog_value') =
       calculate_name_confidence fuzz_ratio extracted (Some catalog_value))
  ∧ calculate_name_confidence fuzz_ratio (str_of "Panadol") (Some (str_of "Panadol")) = 1%Q
  ∧ calculate_name_confidence fuzz_ratio (str_of "Pana") (Some (str_of "Panadol")) = 0.9%Q
  ∧ calculate_name_confidence fuzz_ratio (str_of "") (Some (str_of "Panadol")) = 0%Q.
Proof.
  split; [apply name_confidence_empty|].
  split; [apply name_confidence_exact|].
  split; [apply name_confidence_substring|].
  split; [intros; by apply name_confidence_case|].
  split; [|split]; reflexivity.
Qed.

(** The substring clause at ["PANA"] against ["Panadol"], with a
    [fuzz.ratio] that would answer 0. *)
Lemma C5_witness :
  calculate_name_confidence (λ _ _, 0%Z) (str_of "PANA") (Some (str_of "Panadol")) = 0.9%Q.
Proof.
  destruct (C5_name_confidence (λ _ _, 0%Z) (str_of "PANA") (str_of "Panadol"))
    as (_ & _ & Hsub & _).
  apply Hsub.
  - discriminate.
  - discriminate.
  - vm_compute. discriminate.
  - left. exists [], (str_of "dol"). vm_compute. reflexivity.
Defined.

(** ** C8: the manufacturer strategy *)

Section manufacturer.
Variable fuzz_ratio : str -> str -> Z.

Lemma manufacturer_candidates_cons hint medicine medicines :
  manufacturer_candidates fuzz_ratio hint (medicine :: medicines) =
  (if decide (0.8 < manufacturer_score fuzz_ratio hint medicine)%Q
   then [ {| Candidate.medicine := medicine;
             Candidate.confidence_score := manufacturer_score fuzz_ratio hint medicine * 0.8;
             Candidate.matched_text := Medicine.manufacturer medicine;
             Candidate.match_type := Tag.manufacturer |} ]
   else [])
  ++ manufacturer_candidates fuzz_ratio hint medicines.
Proof.
  unfold manufacturer_candidates at 1. simpl.
  fold (manufacturer_score fuzz_ratio hint medicine).
  fold (manufacturer_candidates fuzz_ratio hint medicines).
  destruct (Qgtb (manufacturer_score fuzz_ratio hint medicine) 0.8) eqn:Hgt; case_decide; try done.
  - apply Qgtb_true in Hgt. done.
  - apply Qgtb_false in Hgt. by apply Qlt_not_le in Hgt.
Qed.

Lemma manufacturer_candidates_elem hint medicines r :
  r ∈ manufacturer_candidates fuzz_ratio hint medicines ↔
  ∃ medicine, medicine ∈ medicines
              ∧ (0.8 < manufacturer_score fuzz_ratio hint medicine)%Q
              ∧ emitted_for fuzz_ratio hint medicine r.
Proof.
  induction medicines as [|m ms IH].
  - split; [by intros ?%elem_of_nil | intros (? & ?%elem_of_nil & _); done].
  - rewrite manufacturer_candidates_cons, elem_of_app, IH. split.
    + intros [Hr | (m' & Hm' & Hgt & Hr)].
      * case_decide; [|by apply elem_of_nil in Hr].
        apply list_elem_of_singleton in Hr as ->.
        exists m. split; [left|]. done.
      * exists m'. split; [by right | done].
    + intros (m' & [-> | Hm']%elem_of_cons & Hgt & Hr).
      * left. rewrite decide_True by done. apply list_elem_of_singleton.
        destruct r, Hr as (? & ? & ? & ?). simpl in *. by subst.
      * right. eauto.
Qed.

Lemma manufacturer_candidates_length hint medicines :
  length (manufacturer_candidates fuzz_ratio hint medicines) ≤ length medicines.
Proof.
  induction medicines as [|m ms IH]; [done|].
  rewrite manufacturer_candidates_cons, length_app. simpl.
  case_decide; simpl; lia.
Qed.

Lemma manufacturer_candidates_medicines hint medicines :
  Candidate.medicine <$> manufacturer_candidates fuzz_ratio hint medicines =
  filter (λ medicine, (0.8 < manufacturer_score fuzz_ratio hint medicine)%Q) medicines.
Proof.
  induction medicines as [|m ms IH]; [done|].
  rewrite manufacturer_candidates_cons, fmap_app, filter_cons.
  case_decide; simpl; by rewrite IH.
Qed.
End manufacturer.

(** C8. When the extracted manufacturer hint is non-empty and the catalog
    search answers, the manufacturer strategy emits, for the entries the
    search returned and in their order, one candidate for an entry exactly
    when the name confidence between the hint and the entry's manufacturer
    exceeds 0.8; the candidate carries that confidence multiplied by 0.8,
    the entry's manufacturer as matched text and the tag [manufacturer]. *)
Theorem C8_manufacturer_strategy (fuzz_ratio : str -> str -> Z)
    (db : MedicineService.Session) (medicine_info : Info.t) (limit : Z)
    (medicines : list Medicine.t) :
  truthy (Info.manufacturer medicine_info) = true →
  MedicineService.search_medicines db (Info.manufacturer medicine_info) limit = Ok medicines →
  ∃ emitted,
    manufacturer_strategy fuzz_ratio db medicine_info limit = Ok emitted
    ∧ (∀ r, r ∈ emitted ↔
         ∃ medicine, medicine ∈ medicines
           ∧ (0.8 < manufacturer_score fuzz_ratio (Info.manufacturer medicine_info) medicine)%Q
           ∧ emitted_for fuzz_ratio (Info.manufacturer medicine_info) medicine r)
    ∧ Candidate.medicine <$> emitted =
        filter (λ medicine,
                  (0.8 < manufacturer_score fuzz_ratio (Info.manufacturer medicine_info)
                           medicine)%Q) medicines.
Proof.
  intros Hhint Hsearch. unfold manufacturer_strategy. rewrite Hhint, Hsearch. simpl.
  eexists. split; [reflexivity|]. split.
  - apply manufacturer_candidates_elem.
  - apply manufacturer_candidates_medicines.
Qed.

(** The strategy on the scenario catalog, for the hint extracted from the
    text ["Beximco Pharma"]. *)
Lemma C8_witness :
  ∃ emitted,
    manufacturer_strategy Scenario.all_similar (Scenario.healthy [Scenario.napa])
      (extract_medicine_info (str_of "Beximco Pharma")) 10 = Ok emitted
    ∧ (∀ r, r ∈ emitted ↔
         ∃ medicine, medicine ∈ [Scenario.napa]
           ∧ (0.8 < manufacturer_score Scenario.all_similar
                      (Info.manufacturer (extract_medicine_info (str_of "Beximco Pharma")))
                      medicine)%Q
           ∧ emitted_for Scenario.all_similar
               (Info.manufacturer (extract_medicine_info (str_of "Beximco Pharma")))
               medicine r)
    ∧ Candidate.medicine <$> emitted =
        filter (λ medicine,
                  (0.8 < manufacturer_score Scenario.all_similar
                           (Info.manufacturer
                              (extract_medicine_info (str_of "Beximco Pharma")))
                           medicine)%Q) [Scenario.napa].
Proof.
  apply (C8_manufacturer_strategy Scenario.all_similar (Scenario.healthy [Scenario.napa])
           (extract_medicine_info (str_of "Beximco Pharma")) 10 [Scenario.napa]).
  - vm_compute. reflexivity.
  - vm_compute. reflexivity.
Defined.

(** ** Deduplication *)

Lemma first_seen_cons x results i :
  first_seen (x :: results) i =
  if decide (Candidate.id x = i) then Some x else first_seen results i.
Proof. unfold first_seen. rewrite filter_cons. by case_decide. Qed.

Lemma first_seen_id results i r : first_seen results i = Some r → Candidate.id r = i.
Proof.
  unfold first_seen. intros H%head_Some_elem_of.
  by apply list_elem_of_filter in H as [? _].
Qed.

Lemma first_seen_elem results i r : first_seen results i = Some r → r ∈ results.
Proof.
  unfold first_seen. intros H%head_Some_elem_of.
  by apply list_elem_of_filter in H as [_ ?].
Qed.

Lemma first_seen_is_Some results r :
  r ∈ results → is_Some (first_seen results (Candidate.id r)).
Proof.
  induction results as [|x l IH]; [by intros ?%elem_of_nil|].
  intros Hin. rewrite first_seen_cons. case_decide; [eauto|].
  apply elem_of_cons in Hin as [-> | Hin]; [done | auto].
Qed.

Lemma remove_duplicates_from_elem seen results r :
  r ∈ remove_duplicates_from seen results ↔
  (Candidate.id r ∉ seen) ∧ first_seen results (Candidate.id r) = Some r.
Proof.
  revert seen. induction results as [|x l IH]; intros seen; simpl.
  - split; [by intros ?%elem_of_nil | by intros [_ ?]].
  - rewrite first_seen_cons. destruct (decide (Candidate.id x ∈ seen)) as [Hx|Hx].
    + rewrite IH. case_decide as Heq; [|done].
      split; intros [Hr ?]; exfalso; apply Hr; by rewrite <- Heq.
    + rewrite elem_of_cons, IH, not_elem_of_union, not_elem_of_singleton.
      case_decide as Heq.
      * split.
        -- intros [-> | [[Hr _] _]]; [done | congruence].
        -- intros [_ [= ->]]. by left.
      * split.
        -- intros [-> | [[_ Hr] ?]]; [done | done].
        -- intros [Hr ?]. right. split; [split|]; [congruence | done | done].
Qed.

Lemma remove_duplicates_from_sublist seen results :
  remove_duplicates_from seen results `sublist_of` results.
Proof.
  revert seen. induction results as [|x l IH]; intros seen; simpl; [done|].
  case_decide; [apply sublist_cons | apply sublist_skip]; apply IH.
Qed.

Lemma remove_duplicates_from_NoDup seen results :
  NoDup (Candidate.id <$> remove_duplicates_from seen results).
Proof.
  revert seen. induction results as [|x l IH]; intros seen; simpl; [constructor|].
  case_decide; [apply IH|]. rewrite fmap_cons. constructor; [|apply IH].
  intros (r & Hid & Hr)%list_elem_of_fmap.
  apply remove_duplicates_from_elem in Hr as [Hr _].
  apply Hr, elem_of_union. left. by apply elem_of_singleton.
Qed.

(** ** The sort *)

Lemma insert_by_confidence_perm x l : insert_by_confidence x l ≡ₚ x :: l.
Proof.
  induction l as [|y l IH]; simpl; [done|].
  case_match; [|done]. rewrite IH. apply perm_swap.
Qed.

Lemma sort_by_confidence_perm l : sort_by_confidence l ≡ₚ l.
Proof.
  induction l as [|x l IH]; simpl; [done|].
  by rewrite insert_by_confidence_perm, IH.
Qed.

Lemma before_cons {A} (x : A) l a b :
  before (x :: l) a b ↔ (a = x ∧ b ∈ l) ∨ before l a b.
Proof.
  split.
  - intros (i & j & Hij & Hi & Hj). destruct j as [|j]; [lia|]. simpl in Hj.
    destruct i as [|i]; simpl in Hi.
    + left. injection Hi as <-. split; [done|]. by eapply list_elem_of_lookup_2.
    + right. exists i, j. split; [lia | done].
  - intros [[-> (j & Hj)%list_elem_of_lookup_1] | (i & j & Hij & Hi & Hj)].
    + exists 0, (S j). split; [lia | done].
    + exists (S i), (S j). split; [lia | done].
Qed.

Lemma before_nil {A} (a b : A) : ¬ before [] a b.
Proof. intros (i & j & _ & Hi & _). by rewrite lookup_nil in Hi. Qed.

Lemma before_sublist {A} (l1 l2 : list A) a b :
  l1 `sublist_of` l2 → before l1 a b → before l2 a b.
Proof.
  induction 1 as [|x l1 l2 Hsub IH|x l1 l2 Hsub IH]; [done|..];
    rewrite ?before_cons.
  - intros [[-> Hb] | H]; [left | right; auto].
    split; [done|]. by eapply elem_of_sublist.
  - intros H. right. auto.
Qed.

Lemma StronglySorted_before {A} (R : relation A) l a b :
  StronglySorted R l → before l a b → R a b.
Proof.
  induction 1 as [|x l Hl IH Hx]; [by intros ?%before_nil|].
  rewrite before_cons. intros [[-> Hb] | H]; [|auto].
  rewrite Forall_forall in Hx. auto.
Qed.

Lemma StronglySorted_impl {A} (R1 R2 : relation A) l :
  (∀ a b, R1 a b → R2 a b) → StronglySorted R1 l → StronglySorted R2 l.
Proof.
  intros HR. induction 1 as [|x l Hl IH Hx]; constructor; [done|].
  eapply Forall_impl; eauto.
Qed.

Lemma ranks_before_le input a b : ranks_before input a b → (score b <= score a)%Q.
Proof.
  intros [H | [H _]]; [by apply Qlt_le_weak | rewrite H; apply Qle_refl].
Qed.

Lemma insert_by_confidence_sorted (R : relation Candidate.t) x l :
  (∀ a b, R a b → (score b <= score a)%Q) →
  (∀ y, y ∈ l → (score x < score y)%Q → R y x) →
  (∀ y, y ∈ l → (score y <= score x)%Q → R x y) →
  StronglySorted R l → StronglySorted R (insert_by_confidence x l).
Proof.
  intros Hle Habove Hbelow. induction 1 as [|y l Hl IH Hy]; simpl.
  - repeat constructor.
  - destruct (Qgtb (score y) (score x)) eqn:Hgt.
    + apply Qgtb_true in Hgt. constructor.
      * apply IH; intros; [apply Habove | apply Hbelow]; by try right.
      * rewrite insert_by_confidence_perm. constructor; [|done].
        apply Habove; [by left | done].
    + apply Qgtb_false in Hgt. constructor; [by constructor|].
      rewrite Forall_forall in Hy. apply Forall_forall.
      intros z [-> | Hz]%elem_of_cons.
      * apply Hbelow; [by left | done].
      * apply Hbelow; [by right|]. eapply Qle_trans; [|exact Hgt]. auto.
Qed.

Lemma sort_by_confidence_sorted l :
  StronglySorted (ranks_before l) (sort_by_confidence l).
Proof.
  induction l as [|x l IH]; simpl; [constructor|].
  apply insert_by_confidence_sorted.
  - apply ranks_before_le.
  - intros y _ Hlt. by left.
  - intros y Hy Hle. rewrite sort_by_confidence_perm in Hy.
    apply Qle_lt_or_eq in Hle as [Hlt | Heq]; [by left | right].
    split; [done|]. apply before_cons. by left.
  - eapply StronglySorted_impl; [|exact IH].
    intros a b [H | [H1 H2]]; [by left | right].
    split; [done|]. apply before_cons. by right.
Qed.

Lemma slice_to_sublist {A} (l : list A) n : slice_to l n `sublist_of` l.
Proof. unfold slice_to. case_match; apply sublist_take. Qed.

Lemma slice_to_prefix {A} (l : list A) n : ∃ k, slice_to l n = take k l.
Proof. unfold slice_to. case_match; eauto. Qed.

Lemma before_take {A} (l : list A) k a b : before (take k l) a b → before l a b.
Proof. apply before_sublist, sublist_take. Qed.

(** What lines 251-255 guarantee for any list of results. *)
Lemma rank_results_before results limit a b :
  before (rank_results results limit) a b →
  ranks_before (remove_duplicate_results results) a b.
Proof.
  unfold rank_results. destruct (slice_to_prefix
    (sort_by_confidence (remove_duplicate_results results)) limit) as [k ->].
  intros H%before_take. eapply StronglySorted_before; [|exact H].
  apply sort_by_confidence_sorted.
Qed.

Lemma rank_results_elem results limit r :
  r ∈ rank_results results limit → r ∈ remove_duplicate_results results.
Proof.
  intros H. eapply elem_of_sublist in H; [|apply slice_to_sublist].
  by rewrite sort_by_confidence_perm in H.
Qed.

Lemma rank_results_NoDup results limit :
  NoDup (Candidate.id <$> rank_results results limit).
Proof.
  eapply sublist_NoDup; [|apply fmap_sublist, slice_to_sublist].
  rewrite sort_by_confidence_perm. apply remove_duplicates_from_NoDup.
Qed.

(** ** The candidate list of the pipeline *)

Lemma bind_Ok {A B} (r : Result A) (f : A → Result B) (b : B) :
  r ≫= f = Ok b ↔ ∃ a, r = Ok a ∧ f a = Ok b.
Proof.
  destruct r as [a|e]; simpl; split.
  - eauto.
  - by intros (? & [= <-] & ?).
  - done.
  - by intros (? & ? & _).
Qed.

Lemma for_each_Forall {A B} (P : B → Prop) (f : A → Result (list B)) l ys :
  (∀ x zs, f x = Ok zs → Forall P zs) →
  for_each f l = Ok ys → Forall P ys.
Proof.
  intros Hf. revert ys. induction l as [|x l IH]; intros ys; simpl.
  - intros [= <-]. constructor.
  - intros (zs & Hzs & (ws & Hws & [= <-])%bind_Ok)%bind_Ok.
    apply Forall_app. eauto.
Qed.

Section pipeline.
Variables fuzz_ratio fuzz_partial_ratio : str -> str -> Z.
Variable db : MedicineService.Session.

Lemma barcode_strategy_tag info cs :
  barcode_strategy db info = Ok cs → Forall (λ r, tag r = Tag.barcode) cs.
Proof.
  unfold barcode_strategy. case_match; [|intros [= <-]; constructor].
  intros ([m|] & _ & [= <-])%bind_Ok; repeat constructor.
Qed.

Lemma brand_strategy_tag info limit cs :
  brand_strategy fuzz_ratio db info limit = Ok cs →
  Forall (λ r, tag r = Tag.brand_name) cs.
Proof.
  unfold brand_strategy. case_match; [|intros [= <-]; constructor].
  intros (ms & _ & [= <-])%bind_Ok. apply Forall_forall.
  intros r (m & _ & Hr)%list_elem_of_omap. cbv zeta in Hr.
  by destruct (Qgtb _ _); simplify_eq.
Qed.

Lemma generic_strategy_tag info limit cs :
  generic_strategy fuzz_ratio db info limit = Ok cs →
  Forall (λ r, tag r = Tag.generic_name) cs.
Proof.
  unfold generic_strategy. case_match; [|intros [= <-]; constructor].
  intros (ms & _ & [= <-])%bind_Ok. apply Forall_forall.
  intros r (m & _ & Hr)%list_elem_of_omap. cbv zeta in Hr.
  by destruct (Qgtb _ _); simplify_eq.
Qed.

Lemma manufacturer_strategy_tag info limit cs :
  manufacturer_strategy fuzz_ratio db info limit = Ok cs →
  Forall (λ r, tag r = Tag.manufacturer) cs.
Proof.
  unfold manufacturer_strategy. case_match; [|intros [= <-]; constructor].
  intros (ms & _ & [= <-])%bind_Ok. apply Forall_forall.
  intros r (m & _ & Hr)%list_elem_of_omap. cbv zeta in Hr.
  by destruct (Qgtb _ _); simplify_eq.
Qed.

Lemma fuzzy_strategy_tag text cs :
  fuzzy_strategy fuzz_partial_ratio db text = Ok cs →
  Forall (λ r, tag r = Tag.fuzzy) cs.
Proof.
  unfold fuzzy_strategy. intros (ms & _ & Hcs)%bind_Ok.
  eapply for_each_Forall; [|exact Hcs].
  intros m zs. unfold fuzzy_candidate.
  intros (? & _ & (? & _ & (? & _ & H)%bind_Ok)%bind_Ok)%bind_Ok.
  case_match; simplify_eq; repeat constructor.
Qed.

(** The candidates are collected strategy by strategy. *)
Lemma collect_candidates_Ok text limit candidates :
  collect_candidates fuzz_ratio fuzz_partial_ratio db text limit = Ok candidates ↔
  ∃ by_barcode by_brand by_generic by_manufacturer by_fuzzy,
    barcode_strategy db (extract_medicine_info text) = Ok by_barcode
    ∧ brand_strategy fuzz_ratio db (extract_medicine_info text) limit = Ok by_brand
    ∧ generic_strategy fuzz_ratio db (extract_medicine_info text) limit = Ok by_generic
    ∧ manufacturer_strategy fuzz_ratio db (extract_medicine_info text) limit
      = Ok by_manufacturer
    ∧ fuzzy_strategy fuzz_partial_ratio db text = Ok by_fuzzy
    ∧ candidates = by_barcode ++ by_brand ++ by_generic ++ by_manufacturer ++ by_fuzzy.
Proof.
  unfold collect_candidates. split.
  - intros (c1 & H1 & (c2 & H2 & (c3 & H3 & (c4 & H4 & (c5 & H5 & [= <-])
      %bind_Ok)%bind_Ok)%bind_Ok)%bind_Ok)%bind_Ok.
    by exists c1, c2, c3, c4, c5.
  - intros (c1 & c2 & c3 & c4 & c5 & -> & -> & -> & -> & -> & ->). done.
Qed.

Lemma same_tag_sorted k cs :
  Forall (λ r, tag r = k) cs → StronglySorted tag_order cs.
Proof.
  induction 1 as [|r cs Hr Hcs IH]; constructor; [done|].
  eapply Forall_impl; [exact Hcs|]. intros r' Hr'. unfold tag_order.
  by rewrite Hr, Hr'.
Qed.

Lemma collect_candidates_tag_order text limit candidates :
  collect_candidates fuzz_ratio fuzz_partial_ratio db text limit = Ok candidates →
  StronglySorted tag_order candidates.
Proof.
  intros (c1 & c2 & c3 & c4 & c5 & H1%barcode_strategy_tag & H2%brand_strategy_tag
    & H3%generic_strategy_tag & H4%manufacturer_strategy_tag & H5%fuzzy_strategy_tag
    & ->)%collect_candidates_Ok.
  pose proof (same_tag_sorted _ _ H1). pose proof (same_tag_sorted _ _ H2).
  pose proof (same_tag_sorted _ _ H3). pose proof (same_tag_sorted _ _ H4).
  pose proof (same_tag_sorted _ _ H5).
  rewrite Forall_forall in H1, H2, H3, H4, H5.
  repeat (apply StronglySorted_app_2; [|done|]); [..|done];
    intros x1 x2 Hx1 Hx2; rewrite ?elem_of_app in Hx2; unfold tag_order;
    repeat match goal with
           | H : _ ∨ _ |- _ => destruct H
           | H : ∀ x, x ∈ ?l → _, Hx : _ ∈ ?l |- _ => rewrite (H _ Hx); clear Hx
           end; simpl; lia.
Qed.

Lemma search_cases text limit :
  (∃ candidates,
     collect_candidates fuzz_ratio fuzz_partial_ratio db text limit = Ok candidates
     ∧ search_medicines_by_ocr_text fuzz_ratio fuzz_partial_ratio db text limit
       = rank_results candidates limit)
  ∨ (raises (collect_candidates fuzz_ratio fuzz_partial_ratio db text limit)
     ∧ search_medicines_by_ocr_text fuzz_ratio fuzz_partial_ratio db text limit = []).
Proof.
  unfold search_medicines_by_ocr_text.
  destruct (collect_candidates _ _ _ _ _) as [cs|e]; simpl; [left | right].
  - eauto.
  - split; [by exists e | done].
Qed.
End pipeline.

(** ** The end-to-end scenario of the specification *)

Lemma sql_limit_nil {A} (n : Z) : MedicineService.sql_limit n (@nil A) = [].
Proof. unfold MedicineService.sql_limit. case_match; [done | apply take_nil]. Qed.


Lemma sql_limit_sublist {A} (n : Z) (l : list A) :
  MedicineService.sql_limit n l `sublist_of` l.
Proof. unfold MedicineService.sql_limit. case_match; [done | apply sublist_take]. Qed.

Lemma execute_Ok {A} db q (answer a : A) :
  MedicineService.execute db q answer = Ok a → a = answer.
Proof. unfold MedicineService.execute. case_match; [done | by intros [= ->]]. Qed.


Lemma search_medicines_rows db query limit medicines m :
  MedicineService.search_medicines db query limit = Ok medicines →
  m ∈ medicines → m ∈ MedicineService.rows db.
Proof.
  intros ->%execute_Ok Hm.
  eapply elem_of_sublist in Hm; [|apply sql_limit_sublist].
  by apply list_elem_of_filter in Hm as [_ ?].
Qed.

Lemma get_medicines_rows db skip limit medicines m :
  MedicineService.get_medicines db skip limit = Ok medicines →
  m ∈ medicines → m ∈ MedicineService.rows db.
Proof.
  intros ->%execute_Ok Hm.
  eapply elem_of_sublist in Hm; [|apply sql_limit_sublist].
  eapply elem_of_sublist; [exact Hm | apply sublist_drop].
Qed.

Lemma get_medicine_by_barcode_rows db barcode m :
  MedicineService.get_medicine_by_barcode db barcode = Ok (Some m) →
  m ∈ MedicineService.rows db ∧ Medicine.barcode m = Some barcode.
Proof.
  intros H%execute_Ok. symmetry in H. apply head_Some_elem_of in H.
  by apply list_elem_of_filter in H as [? ?].
Qed.

Lemma for_each_elem {A B} (f : A → Result (list B)) l ys y :
  for_each f l = Ok ys → y ∈ ys → ∃ x zs, x ∈ l ∧ f x = Ok zs ∧ y ∈ zs.
Proof.
  revert ys. induction l as [|x l IH]; intros ys; simpl.
  - intros [= <-] ?%elem_of_nil. done.
  - intros (zs & Hzs & (ws & Hws & [= <-])%bind_Ok)%bind_Ok [Hy | Hy]%elem_of_app.
    + exists x, zs. split; [by left | done].
    + destruct (IH _ Hws Hy) as (x' & zs' & ? & ? & ?).
      exists x', zs'. split; [by right | done].
Qed.


Section catalog_entries.
Variables fuzz_ratio fuzz_partial_ratio : str -> str -> Z.

(** Every candidate is about an entry of the catalog. *)
Lemma collect_candidates_rows db text limit candidates r :
  collect_candidates fuzz_ratio fuzz_partial_ratio db text limit = Ok candidates →
  r ∈ candidates → Candidate.medicine r ∈ MedicineService.rows db.
Proof.
  intros (c1 & c2 & c3 & c4 & c5 & H1 & H2 & H3 & H4 & H5 & ->)%collect_candidates_Ok.
  rewrite !elem_of_app. intros [Hr | [Hr | [Hr | [Hr | Hr]]]].
  - unfold barcode_strategy in H1. destruct (truthy _); simplify_eq;
      [|by apply elem_of_nil in Hr].
    apply bind_Ok in H1 as ([m|] & Hm & ?); simplify_eq; [|by apply elem_of_nil in Hr].
    apply list_elem_of_singleton in Hr as ->.
    by apply get_medicine_by_barcode_rows in Hm as [? _].
  - unfold brand_strategy in H2. destruct (truthy _); simplify_eq;
      [|by apply elem_of_nil in Hr].
    apply bind_Ok in H2 as (ms & Hms & ?); simplify_eq.
    apply list_elem_of_omap in Hr as (m & Hm & Hr). cbv zeta in Hr.
    destruct (Qgtb _ _); simplify_eq. by eapply search_medicines_rows.
  - unfold generic_strategy in H3. destruct (truthy _); simplify_eq;
      [|by apply elem_of_nil in Hr].
    apply bind_Ok in H3 as (ms & Hms & ?); simplify_eq.
    apply list_elem_of_omap in Hr as (m & Hm & Hr). cbv zeta in Hr.
    destruct (Qgtb _ _); simplify_eq. by eapply search_medicines_rows.
  - unfold manufacturer_strategy in H4. destruct (truthy _); simplify_eq;
      [|by apply elem_of_nil in Hr].
    apply bind_Ok in H4 as (ms & Hms & ?); simplify_eq.
    apply list_elem_of_omap in Hr as (m & Hm & Hr). cbv zeta in Hr.
    destruct (Qgtb _ _); simplify_eq. by eapply search_medicines_rows.
  - unfold fuzzy_strategy in H5. apply bind_Ok in H5 as (ms & Hms & Hc5).
    destruct (for_each_elem _ _ _ _ Hc5 Hr) as (m & zs & Hm & Hzs & Hrz).
    unfold fuzzy_candidate in Hzs.
    apply bind_Ok in Hzs as (? & _ & (? & _ & (? & _ & Hzs)%bind_Ok)%bind_Ok).
    destruct (_ <? _)%Z; simplify_eq; [|by apply elem_of_nil in Hrz].
    apply list_elem_of_singleton in Hrz as ->. by eapply get_medicines_rows.
Qed.

End catalog_entries.



(** ** C7: the barcode strategy *)











(** ** C6: first seen wins *)

Lemma later_duplicate_discarded :
  (score Duplicates.by_brand < score Duplicates.by_fuzzy)%Q
  ∧ rank_results [Duplicates.by_brand; Duplicates.by_fuzzy] 10 = [Duplicates.by_brand].
Proof. split; [reflexivity | vm_compute; reflexivity]. Qed.

(** C6. [remove_duplicate_results] keeps, in their order, exactly the
    results that are the first of the list for their catalog entry,
    whatever the confidences; so the kept results have pairwise distinct
    entry ids, and so have the ranked list of lines 251-255 and the output
    of [search_medicines_by_ocr_text], whose results are the first
    candidates for their entry in the candidate list, which is in strategy
    order. *)
Theorem C6_first_seen_per_entry (results : list Candidate.t) (limit : Z) :
  (∀ r, r ∈ remove_duplicate_results results ↔
        first_seen results (Candidate.id r) = Some r)
  ∧ remove_duplicate_results results `sublist_of` results
  ∧ NoDup (Candidate.id <$> remove_duplicate_results results)
  ∧ (∀ r, r ∈ rank_results results limit →
          first_seen results (Candidate.id r) = Some r)
  ∧ NoDup (Candidate.id <$> rank_results results limit)
  ∧ (∀ fuzz_ratio fuzz_partial_ratio db text,
       NoDup (Candidate.id <$>
                search_medicines_by_ocr_text fuzz_ratio fuzz_partial_ratio db text limit)
       ∧ ∀ candidates,
           collect_candidates fuzz_ratio fuzz_partial_ratio db text limit = Ok candidates →
           StronglySorted tag_order candidates
           ∧ ∀ r, r ∈ search_medicines_by_ocr_text fuzz_ratio fuzz_partial_ratio
                        db text limit →
                  first_seen candidates (Candidate.id r) = Some r).
Proof.
  assert (Hfirst : ∀ l r, r ∈ remove_duplicate_results l ↔
                          first_seen l (Candidate.id r) = Some r).
  { intros l r. unfold remove_duplicate_results.
    rewrite remove_duplicates_from_elem. split; [by intros [_ ?]|].
    intros ?. split; [apply not_elem_of_empty | done]. }
  split; [apply Hfirst|].
  split; [apply remove_duplicates_from_sublist|].
  split; [apply remove_duplicates_from_NoDup|].
  split; [intros r Hr; by apply Hfirst, (rank_results_elem _ limit)|].
  split; [apply rank_results_NoDup|].
  intros fr fpr db text.
  destruct (search_cases fr fpr db text limit) as [(cs & Hcs & ->) | [[e He] ->]].
  - split; [apply rank_results_NoDup|]. intros cs'. rewrite Hcs. intros [= <-].
    split; [by eapply collect_candidates_tag_order|].
    intros r Hr. by apply Hfirst, (rank_results_elem _ limit).
  - split; [constructor|]. intros cs. by rewrite He.
Qed.

(** The brand candidate, seen first, is the one that is ranked. *)
Lemma C6_witness :
  first_seen [Duplicates.by_brand; Duplicates.by_fuzzy]
    (Candidate.id Duplicates.by_brand) = Some Duplicates.by_brand.
Proof.
  destruct (C6_first_seen_per_entry [Duplicates.by_brand; Duplicates.by_fuzzy] 10)
    as (_ & _ & _ & Hranked & _).
  apply Hranked. vm_compute. left.
Defined.

(** ** C1: the order of the output *)

Lemma two_napas_output :
  search_medicines_by_ocr_text Scenario.all_similar Scenario.all_similar
    TwoNapas.db (str_of "NAPA") 10
  = [TwoNapas.brand_hit TwoNapas.napa_extra; TwoNapas.brand_hit TwoNapas.napa_rapid].
Proof. vm_compute. reflexivity. Qed.

(** Counterexample to C1 as stated: the scan text ["NAPA"] matches both
    entries through the brand strategy with confidence 0.9; the output
    lists entry 5 before entry 2, although the scores and the tags are
    equal and 2 < 5. *)
Lemma C1_counterexample :
  ¬ ranked_as_specified
      (search_medicines_by_ocr_text Scenario.all_similar Scenario.all_similar
         TwoNapas.db (str_of "NAPA") 10).
Proof.
  rewrite two_napas_output. intros H.
  specialize (H 1 0 (TwoNapas.brand_hit TwoNapas.napa_rapid)
                (TwoNapas.brand_hit TwoNapas.napa_extra) eq_refl eq_refl).
  assert (1 < 0); [|lia]. apply H. right. right.
  split; [reflexivity|]. split; [reflexivity|]. reflexivity.
Qed.

(** C1, amended. In the output of [search_medicines_by_ocr_text] a result
    stands before another when its confidence is greater, or when the
    confidences are equal and its tag has higher priority. Results of equal
    confidence stand in the order of the candidate list: those with the
    same tag are in the order in which the catalog returned their entries,
    not in the order of the entry ids. *)
Theorem C1_ranking_order (fuzz_ratio fuzz_partial_ratio : str -> str -> Z)
    (db : MedicineService.Session) (text : str) (limit : Z) :
  let out := search_medicines_by_ocr_text fuzz_ratio fuzz_partial_ratio db text limit in
  (∀ i j r1 r2, out !! i = Some r1 → out !! j = Some r2 →
     (score r2 < score r1)%Q
     ∨ ((score r1 == score r2)%Q ∧ Tag.priority (tag r1) < Tag.priority (tag r2)) →
     i < j)
  ∧ (∀ candidates r1 r2,
       collect_candidates fuzz_ratio fuzz_partial_ratio db text limit = Ok candidates →
       before out r1 r2 → (score r1 == score r2)%Q → before candidates r1 r2).
Proof.
  intros out. unfold out.
  destruct (search_cases fuzz_ratio fuzz_partial_ratio db text limit)
    as [(cs & Hcs & ->) | [[e He] ->]].
  - assert (Hdedup : remove_duplicate_results cs `sublist_of` cs)
      by apply remove_duplicates_from_sublist.
    pose proof (collect_candidates_tag_order _ _ _ _ _ _ Hcs) as Htags.
    split.
    + intros i j r1 r2 Hi Hj Hprec.
      destruct (Nat.lt_trichotomy i j) as [Hlt | [-> | Hgt]]; [done|..].
      * rewrite Hi in Hj. injection Hj as <-.
        destruct Hprec as [H | [_ H]]; [by apply Qlt_irrefl in H | lia].
      * assert (Hbefore : before (rank_results cs limit) r2 r1) by (exists j, i; done).
        apply rank_results_before in Hbefore as [Hlt | [Heq Hbefore]].
        -- destruct Hprec as [H | [H _]].
           ++ exfalso. eapply Qlt_irrefl, Qlt_trans; eauto.
           ++ rewrite H in Hlt. by apply Qlt_irrefl in Hlt.
        -- destruct Hprec as [H | [_ H]].
           ++ rewrite Heq in H. by apply Qlt_irrefl in H.
           ++ apply (before_sublist _ cs) in Hbefore; [|done].
              apply (StronglySorted_before _ _ _ _ Htags) in Hbefore.
              unfold tag_order in Hbefore. lia.
    + intros cs' r1 r2. rewrite Hcs. intros [= <-] Hbefore Heq.
      apply rank_results_before in Hbefore as [Hlt | [_ Hbefore]].
      * rewrite Heq in Hlt. by apply Qlt_irrefl in Hlt.
      * by apply (before_sublist _ cs) in Hbefore.
  - split.
    + intros i j r1 r2 Hi. by rewrite lookup_nil in Hi.
    + intros cs r1 r2 _ Hbefore. by apply before_nil in Hbefore.
Qed.

(** The amended order on the two-entry catalog: entry 5, returned first by
    the catalog, stays before entry 2. *)
Lemma C1_witness :
  ∃ candidates,
    collect_candidates Scenario.all_similar Scenario.all_similar TwoNapas.db
      (str_of "NAPA") 10 = Ok candidates
    ∧ before candidates
        (TwoNapas.brand_hit TwoNapas.napa_extra) (TwoNapas.brand_hit TwoNapas.napa_rapid).
Proof.
  destruct (C1_ranking_order Scenario.all_similar Scenario.all_similar
              TwoNapas.db (str_of "NAPA") 10) as [_ Hties].
  eexists. split; [vm_compute; reflexivity|].
  apply Hties.
  - vm_compute. reflexivity.
  - rewrite two_napas_output. exists 0, 1. split; [lia | split; reflexivity].
  - reflexivity.
Defined.

(** ** C2: what a failure costs *)

(** Counterexample to C2 as stated: on the scenario scan the barcode
    strategy finds entry 1, yet the output is empty, once because the page
    listing of the fuzzy strategy fails and once because one other row has
    no brand name. *)
Lemma C2_counterexample :
  ¬ failures_isolated Scenario.all_similar Scenario.all_similar
      Failing.page_down Scenario.scan_text 10
  ∧ ¬ failures_isolated Scenario.all_similar Scenario.all_similar
      Failing.with_nameless Scenario.scan_text 10.
Proof.
  split; intros H; apply H; try (vm_compute; reflexivity);
    exists Scenario.barcode_hit, [Scenario.barcode_hit];
    (split; [by left | left; vm_compute; reflexivity]).
Qed.

Lemma for_each_raises {A B} (f : A → Result (list B)) l x :
  x ∈ l → raises (f x) → raises (for_each f l).
Proof.
  intros Hx Hfx. induction l as [|y l IH]; [by apply elem_of_nil in Hx|].
  simpl. destruct (f y) as [ys|e] eqn:Hy; [|by exists e].
  apply elem_of_cons in Hx as [-> | Hx].
  - destruct Hfx as [e He]. congruence.
  - destruct (IH Hx) as [e ->]. by exists e.
Qed.

Section failures.
Variables fuzz_ratio fuzz_partial_ratio : str -> str -> Z.
Variable db : MedicineService.Session.

Lemma fuzzy_candidate_poisoned text medicine :
  poisoned medicine → raises (fuzzy_candidate fuzz_partial_ratio text medicine).
Proof.
  unfold fuzzy_candidate. intros Hp.
  destruct medicine as [i [b|] [g|] s [m|] bc]; simpl;
    try (by exists AttributeError).
  destruct Hp as [Hp | [Hp | Hp]]; discriminate.
Qed.

Lemma fuzzy_strategy_raises text :
  MedicineService.fails db (MedicineService.Page 0 100) = true
  ∨ (∃ medicine,
       medicine ∈ MedicineService.sql_limit 100
                    (MedicineService.sql_offset 0 (MedicineService.rows db))
       ∧ poisoned medicine) →
  raises (fuzzy_strategy fuzz_partial_ratio db text).
Proof.
  unfold fuzzy_strategy, MedicineService.get_medicines, MedicineService.execute.
  destruct (MedicineService.fails db _); [by eexists|].
  intros [? | (m & Hm & Hp)]; [done|]. simpl.
  eapply for_each_raises; [exact Hm|]. by apply fuzzy_candidate_poisoned.
Qed.

Lemma collect_candidates_raises text limit :
  raises (barcode_strategy db (extract_medicine_info text))
  ∨ raises (brand_strategy fuzz_ratio db (extract_medicine_info text) limit)
  ∨ raises (generic_strategy fuzz_ratio db (extract_medicine_info text) limit)
  ∨ raises (manufacturer_strategy fuzz_ratio db (extract_medicine_info text) limit)
  ∨ raises (fuzzy_strategy fuzz_partial_ratio db text) →
  raises (collect_candidates fuzz_ratio fuzz_partial_ratio db text limit).
Proof.
  unfold collect_candidates. intros H.
  destruct (barcode_strategy _ _) as [c1|e1]; [|by exists e1].
  destruct (brand_strategy _ _ _ _) as [c2|e2]; [|by exists e2].
  destruct (generic_strategy _ _ _ _) as [c3|e3]; [|by exists e3].
  destruct (manufacturer_strategy _ _ _ _) as [c4|e4]; [|by exists e4].
  destruct (fuzzy_strategy _ _ _) as [c5|e5]; [|by exists e5].
  destruct H as [[? ?] | [[? ?] | [[? ?] | [[? ?] | [? ?]]]]]; discriminate.
Qed.

Lemma search_raises_empty text limit :
  raises (collect_candidates fuzz_ratio fuzz_partial_ratio db text limit) →
  search_medicines_by_ocr_text fuzz_ratio fuzz_partial_ratio db text limit = [].
Proof. unfold search_medicines_by_ocr_text. by intros [e ->]. Qed.

Lemma brand_candidates_None hint medicine medicines :
  Medicine.brand_name medicine = None →
  brand_candidates fuzz_ratio hint (medicine :: medicines) =
  brand_candidates fuzz_ratio hint medicines.
Proof.
  intros H. unfold brand_candidates. simpl.
  by rewrite H, name_confidence_None.
Qed.

Lemma generic_candidates_None hint medicine medicines :
  Medicine.generic_name medicine = None →
  generic_candidates fuzz_ratio hint (medicine :: medicines) =
  generic_candidates fuzz_ratio hint medicines.
Proof.
  intros H. unfold generic_candidates. simpl.
  by rewrite H, name_confidence_None.
Qed.

Lemma manufacturer_candidates_None hint medicine medicines :
  Medicine.manufacturer medicine = None →
  manufacturer_candidates fuzz_ratio hint (medicine :: medicines) =
  manufacturer_candidates fuzz_ratio hint medicines.
Proof.
  intros H. unfold manufacturer_candidates. simpl.
  by rewrite H, name_confidence_None.
Qed.
End failures.

(** C2, amended. [search_medicines_by_ocr_text] returns the empty list,
    whatever the other strategies found, as soon as the catalog call of a
    strategy that runs fails, or the page of catalog entries the fuzzy
    strategy scores holds an entry with a missing brand name, generic name
    or manufacturer. Only in the brand, generic-name and manufacturer
    strategies is a missing name contained: the entry is skipped and the
    other entries of the strategy are scored as without it. *)
Theorem C2_failure_empties_the_match (fuzz_ratio fuzz_partial_ratio : str -> str -> Z)
    (db : MedicineService.Session) (text : str) (limit : Z) :
  let medicine_info := extract_medicine_info text in
  ((truthy (Info.barcode medicine_info) = true
    ∧ MedicineService.fails db
        (MedicineService.ByBarcode (Info.barcode medicine_info)) = true)
   ∨ (truthy (Info.brand_name medicine_info) = true
      ∧ MedicineService.fails db
          (MedicineService.Search (Info.brand_name medicine_info) limit) = true)
   ∨ (truthy (Info.generic_name medicine_info) = true
      ∧ MedicineService.fails db
          (MedicineService.Search (Info.generic_name medicine_info) limit) = true)
   ∨ (truthy (Info.manufacturer medicine_info) = true
      ∧ MedicineService.fails db
          (MedicineService.Search (Info.manufacturer medicine_info) limit) = true)
   ∨ MedicineService.fails db (MedicineService.Page 0 100) = true
   ∨ (∃ medicine,
        medicine ∈ MedicineService.sql_limit 100
                     (MedicineService.sql_offset 0 (MedicineService.rows db))
        ∧ poisoned medicine) →
   search_medicines_by_ocr_text fuzz_ratio fuzz_partial_ratio db text limit = [])
  ∧ (∀ hint medicine medicines,
       (Medicine.brand_name medicine = None →
        brand_candidates fuzz_ratio hint (medicine :: medicines) =
        brand_candidates fuzz_ratio hint medicines)
       ∧ (Medicine.generic_name medicine = None →
          generic_candidates fuzz_ratio hint (medicine :: medicines) =
          generic_candidates fuzz_ratio hint medicines)
       ∧ (Medicine.manufacturer medicine = None →
          manufacturer_candidates fuzz_ratio hint (medicine :: medicines) =
          manufacturer_candidates fuzz_ratio hint medicines)).
Proof.
  intros medicine_info. split.
  - intros H. apply search_raises_empty, collect_candidates_raises.
    fold medicine_info.
    destruct H as [[Ht Hf] | [[Ht Hf] | [[Ht Hf] | [[Ht Hf] | H]]]].
    + left. unfold barcode_strategy, MedicineService.get_medicine_by_barcode,
        MedicineService.execute. rewrite Ht, Hf. by eexists.
    + right; left. unfold brand_strategy, MedicineService.search_medicines,
        MedicineService.execute. rewrite Ht, Hf. by eexists.
    + do 2 right; left. unfold generic_strategy, MedicineService.search_medicines,
        MedicineService.execute. rewrite Ht, Hf. by eexists.
    + do 3 right; left. unfold manufacturer_strategy, MedicineService.search_medicines,
        MedicineService.execute. rewrite Ht, Hf. by eexists.
    + do 4 right. by apply fuzzy_strategy_raises.
  - intros hint m ms. split; [|split].
    + apply brand_candidates_None.
    + apply generic_candidates_None.
    + apply manufacturer_candidates_None.
Qed.

(** The amended claim on the catalog with the nameless row. *)
Lemma C2_witness :
  search_medicines_by_ocr_text Scenario.all_similar Scenario.all_similar
    Failing.with_nameless Scenario.scan_text 10 = [].
Proof.
  destruct (C2_failure_empties_the_match Scenario.all_similar Scenario.all_similar
              Failing.with_nameless Scenario.scan_text 10) as [Hempty _].
  apply Hempty. do 5 right. exists Failing.nameless. split.
  - vm_compute. right. left.
  - left. reflexivity.
Defined.

(** ** The normaliser *)

Lemma sub_ws_from_elem in_run s c :
  c ∈ sub_ws_from in_run s → c = space ∨ (is_space c = false ∧ c ∈ s).
Proof.
  revert in_run. induction s as [|x s IH]; intros in_run; simpl.
  - by intros ?%elem_of_nil.
  - destruct (is_space x) eqn:Hx; [destruct in_run|].
    + intros [? | [? ?]]%IH; [by left | right; split; [done | by right]].
    + intros [-> | [? | [? ?]]%IH]%elem_of_cons;
        [by left | by left | right; split; [done | by right]].
    + intros [-> | [? | [? ?]]%IH]%elem_of_cons;
        [right; split; [done | by left] | by left | right; split; [done | by right]].
Qed.

Lemma strip_elem s c : c ∈ strip s → c ∈ s.
Proof. intros H. eapply elem_of_sublist; [exact H | apply strip_sublist]. Qed.

(** Every character of the normalised text is a space or a kept
    character that is no whitespace. *)
Lemma clean_extracted_text_elem text c :
  c ∈ clean_extracted_text text → c = space ∨ (is_space c = false ∧ kept c = true).
Proof.
  unfold clean_extracted_text, sub_ws.
  intros [? | [Hc Hin]]%strip_elem%sub_ws_from_elem; [by left | right].
  split; [done|]. by apply list_elem_of_filter in Hin as [?%Is_true_true _].
Qed.

Lemma split_without_separator sep s : sep ∉ s → split sep s = [s].
Proof.
  induction s as [|c s IH]; [done|]. intros Hsep. simpl.
  destruct (eqb_char c sep) eqn:Hc.
  - apply eqb_char_true in Hc as ->. exfalso. apply Hsep. by left.
  - rewrite IH; [done|]. intros ?. apply Hsep. by right.
Qed.

Lemma clean_extracted_text_one_line text :
  split newline (clean_extracted_text text) = [clean_extracted_text text].
Proof.
  apply split_without_separator.
  intros [? | [? _]]%clean_extracted_text_elem; discriminate.
Qed.

(** ** C3: line breaks do not survive normalisation *)

(** C3 fails on the code. The normalised text never contains a line break,
    so [extract_medicine_info] on it examines one line whatever the input;
    on the two-line label the brand hint ["NAPA"] and the manufacturer
    ["Beximco Pharma Ltd"] of the separate lines are found on the raw text
    and lost on its normalisation, where the manufacturer is the whole
    flattened text and no brand hint is found. *)
Theorem C3_line_breaks_lost :
  (∀ text, split newline (clean_extracted_text text) = [clean_extracted_text text])
  ∧ clean_extracted_text Label.raw = str_of "NAPA Beximco Pharma Ltd"
  ∧ Info.brand_name (extract_medicine_info Label.raw) = str_of "NAPA"
  ∧ Info.manufacturer (extract_medicine_info Label.raw) = str_of "Beximco Pharma Ltd"
  ∧ Info.brand_name (extract_medicine_info (clean_extracted_text Label.raw)) = []
  ∧ Info.manufacturer (extract_medicine_info (clean_extracted_text Label.raw))
    = str_of "NAPA Beximco Pharma Ltd".
Proof.
  split; [apply clean_extracted_text_one_line|].
  repeat split; vm_compute; reflexivity.
Qed.

(** ** C9: the allow-list of the normaliser *)

(** What the code keeps: the same and the underscore. *)
Lemma clean_extracted_text_allowed text c :
  c ∈ clean_extracted_text text → specified_allowed c = true ∨ is_underscore c = true.
Proof.
  intros [-> | [Hspace Hkept]]%clean_extracted_text_elem; [by left|].
  unfold kept, is_word in Hkept. rewrite Hspace, orb_false_r in Hkept.
  unfold specified_allowed.
  destruct (is_alpha c), (is_digit c), (is_underscore c); simpl in *; auto.
  left. rewrite Hkept. apply orb_true_r.
Qed.

(** C9 fails on the code at an underscore: [\w] keeps it, and it is
    outside the allow-list. The two examples of the specification hold. *)
Theorem C9_underscore_kept :
  clean_extracted_text (str_of "a_b") = str_of "a_b"
  ∧ specified_allowed "_"%char = false
  ∧ clean_extracted_text (str_of "A  B" ++ [newline; "009"%char] ++ str_of "C")
    = str_of "A B C"
  ∧ clean_extracted_text [] = [].
Proof. repeat split; vm_compute; reflexivity. Qed.

(** ** C4: undecodable images *)

(** Counterexample to C4 as stated: with a decoder that accepts nothing,
    neither entry point raises, on the empty buffer or on a one-byte
    buffer; each returns the empty text and the empty dict. *)
Lemma C4_counterexample :
  ¬ raises (process_image_file unit NoImage.imdecode NoImage.cv2_binarize
              NoImage.image_to_string [])
  ∧ ¬ raises (process_image_file unit NoImage.imdecode NoImage.cv2_binarize
                NoImage.image_to_string [Byte.x00])
  ∧ ¬ raises (process_base64_image unit NoImage.imdecode NoImage.cv2_binarize
                NoImage.image_to_string NoImage.b64decode [])
  ∧ ¬ raises (process_base64_image unit NoImage.imdecode NoImage.cv2_binarize
                NoImage.image_to_string NoImage.b64decode (str_of "AA==")).
Proof. repeat split; intros [e He]; vm_compute in He; discriminate. Qed.

Section entry_points.
Variable Image : Type.
Variable imdecode : list Byte.byte -> Result (option Image).
Variable cv2_binarize : Image -> Result Image.
Variable image_to_string : Image -> Result str.
Variable b64decode : str -> Result (list Byte.byte).

Lemma scan_bytes_undecodable image_bytes :
  undecodable Image imdecode image_bytes →
  raises (scan_bytes Image imdecode cv2_binarize image_to_string image_bytes).
Proof.
  unfold scan_bytes. intros [-> | [e ->]]; simpl; by eexists.
Qed.

Lemma try_except_default {A} (body : Result A) (a : A) :
  raises body → try_except body (λ _, Ok a) = Ok a.
Proof. by intros [e ->]. Qed.

Lemma try_except_never_raises {A} (body : Result A) (a : A) :
  ¬ raises (try_except body (λ _, Ok a)).
Proof. destruct body; intros [e' He']; discriminate. Qed.
End entry_points.

(** C4, amended. For every byte buffer that cannot be decoded into an
    image (the decoder returns [None] or raises), [process_image_file], and
    [process_base64_image] on a string that decodes to that buffer, with or
    without a data-URL prefix, log the error and return the empty text with
    the empty dict; neither entry point raises on any input. *)
Theorem C4_decode_failure_returns_empty (Image : Type)
    (imdecode : list Byte.byte -> Result (option Image))
    (cv2_binarize : Image -> Result Image)
    (image_to_string : Image -> Result str)
    (b64decode : str -> Result (list Byte.byte)) :
  (∀ image_bytes,
     undecodable Image imdecode image_bytes →
     process_image_file Image imdecode cv2_binarize image_to_string image_bytes
     = Ok ([], None))
  ∧ (∀ base64_string image_bytes,
       startswith (str_of "data:image") base64_string = false →
       b64decode base64_string = Ok image_bytes →
       undecodable Image imdecode image_bytes →
       process_base64_image Image imdecode cv2_binarize image_to_string b64decode
         base64_string = Ok ([], None))
  ∧ (∀ base64_string payload image_bytes,
       startswith (str_of "data:image") base64_string = true →
       split ","%char base64_string !! 1%nat = Some payload →
       b64decode payload = Ok image_bytes →
       undecodable Image imdecode image_bytes →
       process_base64_image Image imdecode cv2_binarize image_to_string b64decode
         base64_string = Ok ([], None))
  ∧ (∀ image_bytes,
       ¬ raises (process_image_file Image imdecode cv2_binarize image_to_string
                   image_bytes))
  ∧ (∀ base64_string,
       ¬ raises (process_base64_image Image imdecode cv2_binarize image_to_string
                   b64decode base64_string)).
Proof.
  split; [|split; [|split; [|split]]].
  - intros image_bytes H. unfold process_image_file.
    by apply try_except_default, scan_bytes_undecodable.
  - intros s image_bytes Hprefix Hdecode H. unfold process_base64_image.
    apply try_except_default. rewrite Hprefix. simpl. rewrite Hdecode. simpl.
    by apply scan_bytes_undecodable.
  - intros s payload image_bytes Hprefix Hpayload Hdecode H.
    unfold process_base64_image.
    apply try_except_default. rewrite Hprefix, Hpayload. simpl. rewrite Hdecode. simpl.
    by apply scan_bytes_undecodable.
  - intros image_bytes. apply try_except_never_raises.
  - intros s. apply try_except_never_raises.
Qed.

(** The amended claim at the empty buffer. *)
Lemma C4_witness :
  process_image_file unit NoImage.imdecode NoImage.cv2_binarize
    NoImage.image_to_string [] = Ok ([], None).
Proof.
  destruct (C4_decode_failure_returns_empty unit NoImage.imdecode NoImage.cv2_binarize
              NoImage.image_to_string NoImage.b64decode) as [Hfile _].
  apply Hfile. right. exists (LibraryError "cv2"). reflexivity.
Defined.

(** ** Whitespace of the normalised text *)

Lemma sub_ws_from_single_spaced in_run s :
  single_spaced in_run (sub_ws_from in_run s) = true.
Proof.
  revert in_run. induction s as [|c s IH]; intros in_run; simpl; [done|].
  destruct (is_space c) eqn:Hc; [destruct in_run|]; simpl; rewrite ?Hc; auto.
Qed.

Lemma single_spaced_lstrip b s :
  single_spaced b s = true → single_spaced false (lstrip s) = true.
Proof.
  revert b. induction s as [|c s IH]; intros b; simpl; [done|].
  destruct (is_space c) eqn:Hc.
  - intros [_ H]%andb_true_iff. eauto.
  - simpl. by rewrite Hc.
Qed.

Lemma single_spaced_app b s1 s2 :
  single_spaced b (s1 ++ s2) = true → single_spaced b s1 = true.
Proof.
  revert b. induction s1 as [|c s1 IH]; intros b; simpl; [done|].
  destruct (is_space c); [|by apply IH].
  intros [-> H]%andb_true_iff. simpl. eauto.
Qed.

Lemma single_spaced_strip b s :
  single_spaced b s = true → single_spaced false (strip s) = true.
Proof.
  intros H%single_spaced_lstrip. unfold strip.
  destruct (rstrip_prefix (lstrip s)) as (post & Heq & _).
  rewrite Heq in H. by apply single_spaced_app in H.
Qed.

Lemma lstrip_head s c : head (lstrip s) = Some c → is_space c = false.
Proof.
  induction s as [|x s IH]; simpl; [done|].
  destruct (is_space x) eqn:Hx; [done|]. simpl. by intros [= <-].
Qed.

Lemma rstrip_cons c s :
  rstrip (c :: s) = match rstrip s with
                    | [] => if is_space c then [] else [c]
                    | _ :: _ => c :: rstrip s
                    end.
Proof. done. Qed.

Lemma rstrip_last s c : last (rstrip s) = Some c → is_space c = false.
Proof.
  induction s as [|x s IH]; [done|]. rewrite rstrip_cons.
  destruct (rstrip s) as [|d r].
  - destruct (is_space x) eqn:Hx; [done|]. simpl. by intros [= <-].
  - done.
Qed.

Lemma rstrip_head s c : head (rstrip s) = Some c → head s = Some c.
Proof.
  destruct (rstrip_prefix s) as (post & Heq & _).
  destruct (rstrip s) as [|d r]; [done|]. rewrite Heq. done.
Qed.

(** The normalised text has single spaces only, and none at its ends. *)
Lemma clean_extracted_text_whitespace text :
  single_spaced false (clean_extracted_text text) = true
  ∧ (∀ c, head (clean_extracted_text text) = Some c → is_space c = false)
  ∧ (∀ c, last (clean_extracted_text text) = Some c → is_space c = false)
  ∧ (∀ c, c ∈ clean_extracted_text text → is_space c = true → c = space).
Proof.
  unfold clean_extracted_text. repeat split.
  - eapply single_spaced_strip, sub_ws_from_single_spaced.
  - intros c H. by apply rstrip_head, lstrip_head in H.
  - intros c H. by apply rstrip_last in H.
  - intros c [? | [Hc _]]%clean_extracted_text_elem Hs; [done | congruence].
Qed.

(** * Further properties of the code *)

(** ** The normaliser: shape of the result and idempotence *)

Lemma lstrip_id s : (∀ c, head s = Some c → is_space c = false) → lstrip s = s.
Proof.
  destruct s as [|c s]; [done|]. intros H. simpl. by rewrite (H c).
Qed.

Lemma rstrip_id s : (∀ c, last s = Some c → is_space c = false) → rstrip s = s.
Proof.
  induction s as [|c s IH]; [done|]. intros H. rewrite rstrip_cons.
  destruct s as [|d s].
  - simpl. by rewrite (H c).
  - rewrite IH; [done|]. intros c' Hc'. by apply H.
Qed.

Lemma strip_id s :
  (∀ c, head s = Some c → is_space c = false) →
  (∀ c, last s = Some c → is_space c = false) → strip s = s.
Proof. intros Hh Hl. unfold strip. rewrite lstrip_id by done. by apply rstrip_id. Qed.

Lemma sub_ws_from_id in_run s :
  single_spaced in_run s = true →
  (∀ c, c ∈ s → is_space c = true → c = space) →
  sub_ws_from in_run s = s.
Proof.
  revert in_run. induction s as [|c s IH]; intros in_run Hs Hc; simpl; [done|].
  simpl in Hs. destruct (is_space c) eqn:Hsp.
  - apply andb_true_iff in Hs as [Hrun Hs]. apply negb_true_iff in Hrun as ->.
    rewrite IH; [|done|intros; apply Hc; [by right | done]].
    f_equal. symmetry. apply Hc; [by left | done].
  - rewrite IH; [done | done | intros; apply Hc; [by right | done]].
Qed.

Lemma filter_kept_id (s : str) :
  (∀ c, c ∈ s → c = space ∨ (is_space c = false ∧ kept c = true)) →
  filter kept s = s.
Proof.
  induction s as [|c s IH]; intros H; [done|].
  rewrite filter_cons. assert (kept c = true) as Hc.
  { destruct (H c) as [-> | [_ ?]]; [by left | done | done]. }
  rewrite decide_True by (by rewrite Hc). f_equal. apply IH. intros; apply H. by right.
Qed.

(** X1. Whatever the text, the result of [clean_extracted_text] consists of
    letters, digits, underscores, the listed punctuation marks and spaces
    only; its only whitespace is the space, no two spaces are adjacent, and
    it neither begins nor ends with one. *)
Theorem X1_clean_text_shape (text : str) :
  Forall (λ c, normal_char c = true) (clean_extracted_text text)
  ∧ (∀ c, c ∈ clean_extracted_text text → is_space c = true → c = space)
  ∧ single_spaced false (clean_extracted_text text) = true
  ∧ (∀ c, head (clean_extracted_text text) = Some c → c ≠ space)
  ∧ (∀ c, last (clean_extracted_text text) = Some c → c ≠ space).
Proof.
  destruct (clean_extracted_text_whitespace text) as (Hsingle & Hhead & Hlast & Hspace).
  repeat split; try done.
  - apply Forall_forall. intros c [Ha | Hu]%clean_extracted_text_allowed.
    + unfold specified_allowed in Ha. unfold normal_char.
      destruct (is_alpha c), (is_digit c), (is_underscore c); simpl in *; try done.
    + unfold normal_char. rewrite Hu. by rewrite !orb_true_r.
  - intros c Hc ->. by apply Hhead in Hc.
  - intros c Hc ->. by apply Hlast in Hc.
Qed.

Lemma X1_witness :
  single_spaced false (clean_extracted_text (str_of "  Napa*  500mg ")) = true
  ∧ "N"%char ≠ space.
Proof.
  destruct (X1_clean_text_shape (str_of "  Napa*  500mg ")) as (_ & _ & Hs & Hhead & _).
  split; [exact Hs|]. apply Hhead. reflexivity.
Defined.

Lemma clean_extracted_text_idempotent (text : str) :
  clean_extracted_text (clean_extracted_text text) = clean_extracted_text text.
Proof.
  destruct (clean_extracted_text_whitespace text) as (Hsingle & Hhead & Hlast & Hspace).
  set (u := clean_extracted_text text) in *.
  unfold clean_extracted_text at 1. unfold sub_ws.
  rewrite (strip_id u) by done.
  rewrite (sub_ws_from_id false u) by done.
  rewrite (filter_kept_id u) by (intros c Hc; by apply clean_extracted_text_elem in Hc).
  rewrite (sub_ws_from_id false u) by done.
  by apply strip_id.
Qed.

(** X2. [clean_extracted_text] is idempotent: normalising a normalised
    text changes nothing. *)
Theorem X2_clean_text_idempotent (text : str) :
  clean_extracted_text (clean_extracted_text text) = clean_extracted_text text.
Proof. apply clean_extracted_text_idempotent. Qed.

(** ** The regular expressions of the field extractor *)

Lemma rep_spec {A} p lo hi prev s (k : option ascii → str → option A) x :
  rep p lo hi prev s k = Some x →
  ∃ pre rest prev',
    s = pre ++ rest ∧ Forall (λ c, p c = true) pre ∧ lo ≤ length pre
    ∧ (∀ h, hi = Some h → length pre ≤ h) ∧ k prev' rest = Some x.
Proof.
  revert lo hi prev. induction s as [|c s IH]; intros lo hi prev.
  - simpl. destruct lo; [|done]. intros H. exists [], [], prev.
    repeat split; [constructor | done | simpl; lia | done].
  - simpl.
    assert (Hstop : match lo with 0 => k prev (c :: s) | S _ => None end = Some x →
      ∃ pre rest prev', c :: s = pre ++ rest ∧ Forall (λ c, p c = true) pre
        ∧ lo ≤ length pre ∧ (∀ h, hi = Some h → length pre ≤ h) ∧ k prev' rest = Some x).
    { destruct lo; [|done]. intros H. exists [], (c :: s), prev.
      repeat split; [constructor | done | simpl; lia | done]. }
    destruct (p c) eqn:Hp; [|done]. destruct (hi_allows hi) eqn:Hhi; [|done]. simpl.
    destruct (rep p (pred lo) (pred <$> hi) (Some c) s k) as [y|] eqn:Hrep; [|done].
    intros [= ->]. apply IH in Hrep as (pre & rest & prev' & -> & Hpre & Hlo & Hh & Hk).
    exists (c :: pre), rest, prev'. repeat split.
    + by constructor.
    + simpl. lia.
    + intros h ->. simpl in *. destruct h; [done|]. specialize (Hh h eq_refl). lia.
    + done.
Qed.

Lemma rmatch_suffix {A} r prev s (k : option ascii → str → option A) x :
  rmatch r prev s k = Some x → ∃ prev' rest, rest `suffix_of` s ∧ k prev' rest = Some x.
Proof.
  revert prev s k. induction r as [p|p lo hi| | |r1 IH1 r2 IH2|r1 IH1 r2 IH2|r1 IH1];
    intros prev s k; simpl.
  - destruct s as [|c s]; [done|]. destruct (p c); [|done]. intros H.
    exists (Some c), s. split; [by apply suffix_cons_r | done].
  - intros (pre & rest & prev' & -> & _ & _ & _ & Hk)%rep_spec.
    exists prev', rest. split; [by apply suffix_app_r | done].
  - destruct (at_boundary prev s); [|done]. intros H. by exists prev, s.
  - intros H. by exists prev, s.
  - intros (p1 & rest1 & Hs1 & (p2 & rest2 & Hs2 & Hk)%IH2)%IH1.
    exists p2, rest2. split; [by etrans | done].
  - destruct (rmatch r1 prev s k) as [y|] eqn:H1.
    + intros [= ->]. by apply IH1 in H1.
    + apply IH2.
  - destruct (rmatch r1 prev s k) as [y|] eqn:H1.
    + intros [= ->]. by apply IH1 in H1.
    + intros H. by exists prev, s.
Qed.

Lemma suffix_length_take {A} (rest s : list A) :
  rest `suffix_of` s → ∃ pre, s = pre ++ rest ∧ take (length s - length rest) s = pre.
Proof.
  intros [pre ->]. exists pre. split; [done|].
  rewrite length_app. replace (length pre + length rest - length rest) with (length pre)
    by lia. apply take_app_length.
Qed.

(** A match is a prefix of what is left of the line. *)
Lemma match_here_prefix r prev s g : match_here r prev s = Some g → g `prefix_of` s.
Proof.
  unfold match_here. intros (prev' & rest & Hsuffix & [= <-])%rmatch_suffix.
  destruct (suffix_length_take _ _ Hsuffix) as (pre & Hs & ->). by exists rest.
Qed.

(** A pattern [\b p{lo+1,hi} r] matches a non-empty text whose first
    [lo+1] characters at least are of the class [p]. *)
Lemma match_here_run p lo hi r prev s g :
  match_here (Seq Bnd (Seq (Rep p (S lo) hi) r)) prev s = Some g →
  ∃ run more, g = run ++ more ∧ Forall (λ c, p c = true) run ∧ S lo ≤ length run
              ∧ (∀ h, hi = Some h → length run ≤ h)
              ∧ (r = Bnd → more = []).
Proof.
  unfold match_here.
  change (rmatch (Seq Bnd (Seq (Rep p (S lo) hi) r)) prev s ?k)
    with (if at_boundary prev s
          then rep p (S lo) hi prev s (λ prev' s', rmatch r prev' s' k)
          else None).
  destruct (at_boundary prev s); [|done].
  intros (run & rest1 & prev1 & -> & Hrun & Hlo & Hhi & Hk)%rep_spec.
  pose proof Hk as (prev2 & rest2 & [more ->] & [= <-])%rmatch_suffix.
  exists run, more. rewrite !length_app.
  replace (length run + (length more + length rest2) - length rest2)
    with (length (run ++ more)) by (rewrite length_app; lia).
  rewrite (app_assoc run more rest2), take_app_length.
  repeat split; try done.
  intros ->. simpl in Hk. destruct (at_boundary prev1 (more ++ rest2)); [|done].
  injection Hk as Hk. apply (f_equal length) in Hk.
  rewrite !length_take, !length_app in Hk. destruct more; [done|]. simpl in Hk. lia.
Qed.

Lemma search_from_match r prev s g :
  search_from r prev s = Some g →
  ∃ prev' before after, s = before ++ after ∧ match_here r prev' after = Some g.
Proof.
  revert prev. induction s as [|c s IH]; intros prev; simpl.
  - destruct (match_here r prev []) as [y|] eqn:Hm; [|done].
    intros [= ->]. by exists prev, [], [].
  - destruct (match_here r prev (c :: s)) as [y|] eqn:Hm.
    + intros [= ->]. by exists prev, [], (c :: s).
    + intros (prev' & before & after & -> & H)%IH.
      by exists prev', (c :: before), after.
Qed.

(** What [re.search] returns occurs in the line. *)
Lemma search_substring r line g : search r line = Some g → substring g line.
Proof.
  intros (prev' & before & after & -> & [rest ->]%match_here_prefix)%search_from_match.
  by exists before, rest.
Qed.

(** A barcode match is a run of 8 to 13 digits. *)
Lemma search_barcode_digits line g :
  search barcode_re line = Some g →
  Forall (λ c, is_digit c = true) g ∧ 8 ≤ length g ≤ 13.
Proof.
  intros (prev' & before & after & _ & H)%search_from_match.
  apply match_here_run in H as (run & more & -> & Hrun & Hlo & Hhi & Hmore).
  rewrite (Hmore eq_refl), app_nil_r. split; [done|]. split; [done|]. by apply Hhi.
Qed.

Lemma search_barcode_truthy line g : search barcode_re line = Some g → truthy g = true.
Proof. intros [_ [H _]]%search_barcode_digits. destruct g; [simpl in H; lia | done]. Qed.

Lemma search_strength_truthy line g : search strength_re line = Some g → truthy g = true.
Proof.
  intros (prev' & before & after & _ & H)%search_from_match.
  apply match_here_run in H as (run & more & -> & _ & Hlo & _).
  destruct run; [simpl in Hlo; lia | done].
Qed.

(** ** The field extractor: the first qualifying line sets a field *)

Lemma head_omap_filter {A} (P : A → bool) (l : list A) :
  head (omap (λ x, if P x then Some x else None) l) = head (filter P l).
Proof.
  induction l as [|x l IH]; [done|]. rewrite filter_cons. simpl.
  case_decide as HP; destruct (P x); try done.
Qed.

(** A loop that sets a field from a line unless the field is set keeps the
    value found on the first line that gives one. *)
Lemma first_line_wins {S} (step : S → str → S) (get : S → str) (f : str → option str) :
  (∀ st l, get (step st l) =
           match f (strip l) with
           | Some g => if negb (truthy (get st)) then g else get st
           | None => get st
           end) →
  (∀ l g, f l = Some g → truthy g = true) →
  ∀ ls st, get (foldl step st ls) =
           if truthy (get st) then get st
           else default [] (head (omap f (strip <$> ls))).
Proof.
  intros Hstep Hf. induction ls as [|l ls IH]; intros st; simpl.
  - by destruct (get st).
  - rewrite IH, Hstep. destruct (f (strip l)) as [g|] eqn:Hg; simpl.
    + destruct (truthy (get st)) eqn:Hst; simpl; [by rewrite Hst|].
      by rewrite (Hf _ _ Hg).
    + done.
Qed.

Lemma info_step_barcode info l :
  Info.barcode (info_step info l) =
  match search barcode_re (strip l) with
  | Some g => if negb (truthy (Info.barcode info)) then g else Info.barcode info
  | None => Info.barcode info
  end.
Proof. unfold info_step. by destruct (strip l). Qed.

Lemma info_step_strength info l :
  Info.strength (info_step info l) =
  match search strength_re (strip l) with
  | Some g => if negb (truthy (Info.strength info)) then g else Info.strength info
  | None => Info.strength info
  end.
Proof. unfold info_step. by destruct (strip l). Qed.

Lemma info_step_manufacturer info l :
  Info.manufacturer (info_step info l) =
  match (if has_manufacturer_keyword (strip l) then Some (strip l) else None) with
  | Some g => if negb (truthy (Info.manufacturer info)) then g else Info.manufacturer info
  | None => Info.manufacturer info
  end.
Proof.
  unfold info_step, has_manufacturer_keyword. destruct (strip l) as [|c s]; [done|].
  simpl truthy. cbv iota beta. simpl negb. cbv iota.
  cbn [Info.manufacturer]. by destruct (existsb _ manufacturer_keywords).
Qed.

Lemma names_step_brand names l :
  Names.brand_name (names_step names l) =
  match (if brand_line (strip l) then Some (strip l) else None) with
  | Some g => if negb (truthy (Names.brand_name names)) then g else Names.brand_name names
  | None => Names.brand_name names
  end.
Proof.
  unfold names_step, brand_line, name_line.
  assert (negb (truthy (strip l)) || (length (strip l) <? 3) = (length (strip l) <? 3))
    as -> by (by destruct (strip l)).
  destruct (length (strip l) <? 3); [done|].
  destruct (existsb _ skip_words); [done|]. simpl.
  destruct ((length (strip l) <=? 30) && isupper (strip l)); simpl.
  - by destruct (truthy (Names.brand_name names)).
  - destruct ((10 <? length (strip l)) && (length (strip l) <=? 50)); [|done].
    by destruct (truthy (Names.generic_name names)).
Qed.

Lemma names_step_generic names l :
  Names.generic_name (names_step names l) =
  match (if generic_line (strip l) then Some (strip l) else None) with
  | Some g => if negb (truthy (Names.generic_name names)) then g
              else Names.generic_name names
  | None => Names.generic_name names
  end.
Proof.
  unfold names_step, generic_line, name_line.
  assert (negb (truthy (strip l)) || (length (strip l) <? 3) = (length (strip l) <? 3))
    as -> by (by destruct (strip l)).
  destruct (length (strip l) <? 3); [done|].
  destruct (existsb _ skip_words); [done|]. simpl.
  destruct ((length (strip l) <=? 30) && isupper (strip l)); simpl.
  - by destruct (truthy (Names.brand_name names)).
  - destruct ((10 <? length (strip l)) && (length (strip l) <=? 50)); [|done].
    by destruct (truthy (Names.generic_name names)).
Qed.

Lemma line_test_truthy (P : str → bool) l g :
  P [] = false → (if P l then Some l else None) = Some g → truthy g = true.
Proof. intros HP. destruct (P l) eqn:Hl; [|done]. intros [= <-]. by destruct l; [congruence|]. Qed.

(** X3. In the fields of [extract_medicine_info] the barcode is the first
    match of the barcode pattern among the stripped lines in reading order,
    the strength the first match of the strength pattern, and the
    manufacturer the first stripped line that contains a manufacturer
    keyword; a field without such a line is empty. *)
Theorem X3_first_line_sets_field (text : str) :
  Info.barcode (extract_medicine_info text) =
    default [] (head (omap (search barcode_re) (stripped_lines text)))
  ∧ Info.strength (extract_medicine_info text) =
    default [] (head (omap (search strength_re) (stripped_lines text)))
  ∧ Info.manufacturer (extract_medicine_info text) =
    default [] (head (filter has_manufacturer_keyword (stripped_lines text))).
Proof.
  unfold extract_medicine_info, stripped_lines. cbn [Info.barcode Info.strength Info.manufacturer].
  split; [|split].
  - rewrite (first_line_wins info_step Info.barcode (search barcode_re)); [done|..].
    + apply info_step_barcode.
    + apply search_barcode_truthy.
  - rewrite (first_line_wins info_step Info.strength (search strength_re)); [done|..].
    + apply info_step_strength.
    + apply search_strength_truthy.
  - rewrite <- head_omap_filter.
    rewrite (first_line_wins info_step Info.manufacturer
               (λ l, if has_manufacturer_keyword l then Some l else None)); [done|..].
    + apply info_step_manufacturer.
    + intros l g. by apply line_test_truthy.
Qed.

(** X4. The name hints of [extract_potential_names] are the first stripped
    line that passes the brand test (at least 3 characters, no dosage-form
    word, at most 30 characters, upper-case) and the first one that passes
    the generic test (at least 3 characters, no dosage-form word, not a
    brand line, more than 10 and at most 50 characters); so a brand hint
    and a generic hint that are both set are different lines. *)
Theorem X4_first_line_sets_hint (lines : list str) :
  Names.brand_name (extract_potential_names lines) =
    default [] (head (filter brand_line (strip <$> lines)))
  ∧ Names.generic_name (extract_potential_names lines) =
    default [] (head (filter generic_line (strip <$> lines)))
  ∧ (Names.brand_name (extract_potential_names lines) ≠ [] →
     brand_line (Names.brand_name (extract_potential_names lines)) = true)
  ∧ (Names.generic_name (extract_potential_names lines) ≠ [] →
     generic_line (Names.generic_name (extract_potential_names lines)) = true)
  ∧ (Names.brand_name (extract_potential_names lines) ≠ [] →
     Names.brand_name (extract_potential_names lines)
     ≠ Names.generic_name (extract_potential_names lines)).
Proof.
  assert (Hb : Names.brand_name (extract_potential_names lines) =
               default [] (head (filter brand_line (strip <$> lines)))).
  { unfold extract_potential_names. rewrite <- head_omap_filter.
    rewrite (first_line_wins names_step Names.brand_name
               (λ l, if brand_line l then Some l else None)); [done|..].
    - apply names_step_brand.
    - intros l g. by apply line_test_truthy. }
  assert (Hg : Names.generic_name (extract_potential_names lines) =
               default [] (head (filter generic_line (strip <$> lines)))).
  { unfold extract_potential_names. rewrite <- head_omap_filter.
    rewrite (first_line_wins names_step Names.generic_name
               (λ l, if generic_line l then Some l else None)); [done|..].
    - apply names_step_generic.
    - intros l g. by apply line_test_truthy. }
  assert (Hbl : Names.brand_name (extract_potential_names lines) ≠ [] →
                brand_line (Names.brand_name (extract_potential_names lines)) = true).
  { rewrite Hb. destruct (head (filter brand_line _)) as [g|] eqn:Hh; [|done].
    intros _. simpl.
    apply head_Some_elem_of, list_elem_of_filter in Hh as [Hh _].
    by apply Is_true_true. }
  assert (Hgl : Names.generic_name (extract_potential_names lines) ≠ [] →
                generic_line (Names.generic_name (extract_potential_names lines)) = true).
  { rewrite Hg. destruct (head (filter generic_line _)) as [g|] eqn:Hh; [|done].
    intros _. simpl.
    apply head_Some_elem_of, list_elem_of_filter in Hh as [Hh _].
    by apply Is_true_true. }
  repeat split; try done.
  intros Hset Heq. pose proof (Hbl Hset) as H1. rewrite Heq in Hset.
  pose proof (Hgl Hset) as H2. rewrite Heq in H1.
  unfold brand_line in H1. unfold generic_line in H2.
  apply andb_true_iff in H1 as [_ H1]. apply andb_true_iff in H2 as [H2 _].
  apply andb_true_iff in H2 as [_ H2]. by rewrite H1 in H2.
Qed.

(** The brand hint of a two-line label with a short line first. *)
Lemma X4_witness :
  brand_line (Names.brand_name
                (extract_potential_names [str_of "AB"; str_of " NAPA "])) = true.
Proof.
  destruct (X4_first_line_sets_hint [str_of "AB"; str_of " NAPA "])
    as (_ & _ & Hbrand & _).
  apply Hbrand. vm_compute. discriminate.
Defined.

(** ** The extracted barcode *)

Lemma extracted_barcode (text : str) :
  Info.barcode (extract_medicine_info text) =
  default [] (head (omap (search barcode_re) (stripped_lines text))).
Proof.
  unfold extract_medicine_info, stripped_lines. cbn [Info.barcode].
  rewrite (first_line_wins info_step Info.barcode (search barcode_re)); [done|..].
  - apply info_step_barcode.
  - apply search_barcode_truthy.
Qed.

Lemma digit_no_separator c : is_digit c = true → MedicineSearch.separator c = false.
Proof. destruct c as [[] [] [] [] [] [] [] []]; vm_compute; congruence. Qed.

Lemma validate_barcode_digits (g : str) :
  Forall (λ c, is_digit c = true) g → 8 ≤ length g ≤ 13 →
  MedicineSearch.validate_barcode g = true.
Proof.
  intros Hdigits [Hlo Hhi]. unfold MedicineSearch.validate_barcode.
  assert (filter (λ c, negb (MedicineSearch.separator c)) g = g) as ->.
  { clear Hlo Hhi. induction Hdigits as [|c g Hc _ IH]; [done|].
    rewrite filter_cons, IH. rewrite (digit_no_separator c Hc). done. }
  destruct g as [|c g]; [done|]. simpl truthy. cbv iota beta. simpl negb. cbv iota.
  unfold MedicineSearch.isdigit. simpl truthy.
  rewrite (proj2 (forallb_forall _ _)).
  - simpl. rewrite (proj2 (Nat.ltb_ge _ _)) by (simpl in *; lia).
    by rewrite (proj2 (Nat.ltb_ge _ _)) by (simpl in *; lia).
  - intros x Hx. rewrite Forall_forall in Hdigits. apply Hdigits.
    by apply list_elem_of_In.
Qed.

Lemma extracted_barcode_checked (text : str) :
  MedicineSearch.validate_barcode (Info.barcode (extract_medicine_info text)) = true
  ∧ (Info.barcode (extract_medicine_info text) ≠ [] →
     Forall (λ c, is_digit c = true) (Info.barcode (extract_medicine_info text))
     ∧ 8 ≤ length (Info.barcode (extract_medicine_info text)) ≤ 13
     ∧ ∃ line, line ∈ stripped_lines text
               ∧ substring (Info.barcode (extract_medicine_info text)) line).
Proof.
  rewrite extracted_barcode.
  destruct (head (omap (search barcode_re) (stripped_lines text))) as [g|] eqn:Hh;
    [|done].
  simpl. apply head_Some_elem_of, list_elem_of_omap in Hh as (line & Hline & Hg).
  destruct (search_barcode_digits _ _ Hg) as [Hdigits Hlen].
  split; [by apply validate_barcode_digits|]. intros _.
  split; [done|]. split; [done|]. exists line. split; [done|].
  by eapply search_substring.
Qed.

(** X5. The barcode that [extract_medicine_info] extracts, when there is
    one, is a run of 8 to 13 digits that occurs in one of the stripped
    lines of the text; and whether there is one or not,
    [validate_barcode] of the catalog service accepts it. *)
Theorem X5_extracted_barcode_valid (text : str) :
  MedicineSearch.validate_barcode (Info.barcode (extract_medicine_info text)) = true
  ∧ (Info.barcode (extract_medicine_info text) ≠ [] →
     Forall (λ c, is_digit c = true) (Info.barcode (extract_medicine_info text))
     ∧ 8 ≤ length (Info.barcode (extract_medicine_info text)) ≤ 13
     ∧ ∃ line, line ∈ stripped_lines text
               ∧ substring (Info.barcode (extract_medicine_info text)) line).
Proof. apply extracted_barcode_checked. Qed.

(** The barcode of the scenario scan. *)
Lemma X5_witness :
  8 ≤ length (Info.barcode (extract_medicine_info Scenario.scan_text)) ≤ 13.
Proof.
  destruct (X5_extracted_barcode_valid Scenario.scan_text) as [_ H].
  apply H. vm_compute. discriminate.
Defined.

(** ** Blank and empty text *)

Lemma lstrip_blank s : blank s → lstrip s = [].
Proof. induction 1 as [|c s Hc _ IH]; [done|]. simpl. by rewrite Hc. Qed.

Lemma strip_blank s : blank s → strip s = [].
Proof. intros H. unfold strip. by rewrite lstrip_blank. Qed.

Lemma split_blank sep s : blank s → Forall blank (split sep s).
Proof.
  induction 1 as [|c s Hc Hs IH]; simpl; [by repeat constructor|].
  destruct (eqb_char c sep).
  - constructor; [constructor | done].
  - destruct (split sep s) as [|h t]; [by repeat constructor|].
    apply Forall_cons in IH as [Hh Ht]. constructor; [by constructor | done].
Qed.

Lemma info_fold_blank ls info : Forall blank ls → foldl info_step info ls = info.
Proof.
  induction 1 as [|l ls Hl _ IH]; [done|]. simpl.
  unfold info_step at 2. by rewrite (strip_blank l Hl).
Qed.

Lemma names_fold_blank ls names : Forall blank ls → foldl names_step names ls = names.
Proof.
  induction 1 as [|l ls Hl _ IH]; [done|]. simpl.
  unfold names_step at 2. by rewrite (strip_blank l Hl).
Qed.

Lemma extract_blank text : blank text → extract_medicine_info text = empty_info.
Proof.
  intros H. unfold extract_medicine_info, extract_potential_names.
  rewrite info_fold_blank, names_fold_blank by (by apply split_blank). done.
Qed.

Lemma collect_candidates_blank (fuzz_ratio fuzz_partial_ratio : str -> str -> Z)
    (db : MedicineService.Session) (text : str) (limit : Z) :
  blank text →
  collect_candidates fuzz_ratio fuzz_partial_ratio db text limit
  = fuzzy_strategy fuzz_partial_ratio db text.
Proof.
  intros H. unfold collect_candidates. rewrite (extract_blank text H).
  unfold barcode_strategy, brand_strategy, generic_strategy, manufacturer_strategy.
  simpl. by destruct (fuzzy_strategy fuzz_partial_ratio db text).
Qed.

Lemma rank_results_nil limit : rank_results [] limit = [].
Proof. unfold rank_results, slice_to. simpl. case_match; by rewrite ?take_nil. Qed.

(** X6. On a text of whitespace only, [extract_medicine_info] leaves every
    field empty, and [search_medicines_by_ocr_text] sends no barcode lookup
    and no name search to the catalog: its candidates are those of the
    fuzzy strategy alone. *)
Theorem X6_blank_text (fuzz_ratio fuzz_partial_ratio : str -> str -> Z)
    (db : MedicineService.Session) (text : str) (limit : Z) :
  blank text →
  extract_medicine_info text = empty_info
  ∧ collect_candidates fuzz_ratio fuzz_partial_ratio db text limit
    = fuzzy_strategy fuzz_partial_ratio db text.
Proof.
  intros H. split; [by apply extract_blank | by apply collect_candidates_blank].
Qed.

Lemma X6_witness :
  extract_medicine_info (str_of "   ") = empty_info
  ∧ collect_candidates Scenario.all_similar Scenario.all_similar
      Failing.page_down (str_of "   ") 10
    = fuzzy_strategy Scenario.all_similar Failing.page_down (str_of "   ").
Proof.
  apply (X6_blank_text Scenario.all_similar Scenario.all_similar Failing.page_down
           (str_of "   ") 10).
  repeat constructor.
Defined.

Lemma for_each_nothing_in {A B} (f : A → Result (list B)) l :
  (∀ x, x ∈ l → f x = Ok [] ∨ raises (f x)) →
  for_each f l = Ok [] ∨ raises (for_each f l).
Proof.
  intros Hf. induction l as [|x l IH]; simpl; [by left|].
  destruct (Hf x) as [-> | [e ->]]; [by left | |right; by exists e]. simpl.
  destruct IH as [-> | [e ->]]; [intros; apply Hf; by right | by left |].
  right. by exists e.
Qed.

Lemma lower_nil_inv (s : str) : lower s = [] → s = [].
Proof. by destruct s. Qed.

(** X7. When [fuzz.partial_ratio] rates the empty string at most 70 against
    every name that is not empty, as the library does, and no entry of the
    catalog has an empty string as a name, the search on the empty text,
    which is what [process_image_file] returns after a failure, yields no
    result, for every session and every limit. *)
Theorem X7_empty_text_no_result (fuzz_ratio fuzz_partial_ratio : str -> str -> Z)
    (db : MedicineService.Session) (limit : Z) :
  (∀ name, name ≠ [] → (fuzz_partial_ratio [] name ≤ 70)%Z) →
  (∀ m, m ∈ MedicineService.rows db → no_empty_name m) →
  search_medicines_by_ocr_text fuzz_ratio fuzz_partial_ratio db [] limit = [].
Proof.
  intros Hempty Hnames. unfold search_medicines_by_ocr_text.
  rewrite collect_candidates_blank by constructor.
  unfold fuzzy_strategy.
  destruct (MedicineService.get_medicines db 0 100) as [ms|e] eqn:Hms; [|done]. simpl.
  destruct (for_each_nothing_in (fuzzy_candidate fuzz_partial_ratio []) ms)
    as [-> | [e ->]]; [|simpl; apply rank_results_nil|done].
  intros m Hm. eapply get_medicines_rows in Hm; [|exact Hms].
  destruct (Hnames m Hm) as (Hb & Hg & Hmf). unfold fuzzy_candidate.
  destruct (Medicine.brand_name m) as [b|]; [|right; by eexists].
  destruct (Medicine.generic_name m) as [g|]; [|right; by eexists].
  destruct (Medicine.manufacturer m) as [mf|]; [|right; by eexists].
  simpl. left.
  assert (Hne : ∀ name : str, Some name ≠ Some [] → lower name ≠ []).
  { intros name Hname Hl. apply Hname. f_equal. by apply lower_nil_inv. }
  pose proof (Hempty _ (Hne b Hb)). pose proof (Hempty _ (Hne g Hg)).
  pose proof (Hempty _ (Hne mf Hmf)).
  by rewrite (proj2 (Z.ltb_ge _ _)) by lia.
Qed.

Lemma X7_witness :
  search_medicines_by_ocr_text guarded_ratio guarded_ratio
    (Scenario.healthy [Scenario.napa]) [] 10 = [].
Proof.
  apply (X7_empty_text_no_result guarded_ratio guarded_ratio
           (Scenario.healthy [Scenario.napa]) 10).
  - intros [|c name] Hname; [done|]. vm_compute. discriminate.
  - intros m ->%list_elem_of_singleton. repeat split; discriminate.
Defined.

(** ** Where the results of the search come from *)

Section provenance.
Variables fuzz_ratio fuzz_partial_ratio : str -> str -> Z.
Variable db : MedicineService.Session.

Lemma name_candidates_elem (field : Medicine.t → option str) (t : Tag.t) threshold
    hint (medicines : list Medicine.t) r :
  r ∈ omap (λ medicine,
              let confidence := calculate_name_confidence fuzz_ratio hint (field medicine) in
              if Qgtb confidence threshold then
                Some {| Candidate.medicine := medicine;
                        Candidate.confidence_score := confidence;
                        Candidate.matched_text := field medicine;
                        Candidate.match_type := t |}
              else None) medicines →
  Candidate.medicine r ∈ medicines ∧ tag r = t
  ∧ Candidate.matched_text r = field (Candidate.medicine r)
  ∧ score r = calculate_name_confidence fuzz_ratio hint (field (Candidate.medicine r))
  ∧ (threshold < score r)%Q.
Proof.
  intros (m & Hm & Hr)%list_elem_of_omap. cbv zeta in Hr.
  destruct (Qgtb _ _) eqn:Hgt; [|done]. injection Hr as <-. simpl.
  repeat split; try done. by apply Qgtb_true.
Qed.

(** Every candidate was found by one of the five strategies, with the
    tag, the confidence and the matched text of that strategy. *)
Lemma collect_candidates_elem text limit candidates r :
  collect_candidates fuzz_ratio fuzz_partial_ratio db text limit = Ok candidates →
  r ∈ candidates →
  found_by_barcode db (extract_medicine_info text) r
  ∨ (tag r = Tag.brand_name ∧ (0.7 < score r)%Q
     ∧ found_by_name fuzz_ratio db limit (Info.brand_name (extract_medicine_info text))
         Medicine.brand_name r)
  ∨ (tag r = Tag.generic_name ∧ (0.7 < score r)%Q
     ∧ found_by_name fuzz_ratio db limit (Info.generic_name (extract_medicine_info text))
         Medicine.generic_name r)
  ∨ (tag r = Tag.manufacturer
     ∧ found_by_manufacturer fuzz_ratio db limit
         (Info.manufacturer (extract_medicine_info text)) r)
  ∨ (tag r = Tag.fuzzy ∧ found_by_fuzzy fuzz_partial_ratio db text r).
Proof.
  intros (c1 & c2 & c3 & c4 & c5 & H1 & H2 & H3 & H4 & H5 & ->)%collect_candidates_Ok.
  rewrite !elem_of_app. intros [Hr | [Hr | [Hr | [Hr | Hr]]]].
  - left. unfold barcode_strategy in H1. destruct (truthy _); simplify_eq;
      [|by apply elem_of_nil in Hr].
    apply bind_Ok in H1 as ([m|] & Hm & ?); simplify_eq; [|by apply elem_of_nil in Hr].
    apply list_elem_of_singleton in Hr as ->. by repeat split.
  - right; left. unfold brand_strategy in H2. destruct (truthy _); simplify_eq;
      [|by apply elem_of_nil in Hr].
    apply bind_Ok in H2 as (ms & Hms & ?); simplify_eq.
    apply name_candidates_elem in Hr as (? & ? & ? & ? & ?).
    repeat split; eauto.
  - do 2 right; left. unfold generic_strategy in H3. destruct (truthy _); simplify_eq;
      [|by apply elem_of_nil in Hr].
    apply bind_Ok in H3 as (ms & Hms & ?); simplify_eq.
    apply name_candidates_elem in Hr as (? & ? & ? & ? & ?).
    repeat split; eauto.
  - do 3 right; left. unfold manufacturer_strategy in H4. destruct (truthy _); simplify_eq;
      [|by apply elem_of_nil in Hr].
    apply bind_Ok in H4 as (ms & Hms & ?); simplify_eq.
    apply manufacturer_candidates_elem in Hr as (m & Hm & Hgt & Hm1 & Hs & Ht & Htag).
    subst m. repeat split; eauto.
  - do 4 right. unfold fuzzy_strategy in H5. apply bind_Ok in H5 as (ms & Hms & Hc5).
    destruct (for_each_elem _ _ _ _ Hc5 Hr) as (m & zs & Hm & Hzs & Hrz).
    unfold fuzzy_candidate in Hzs.
    apply bind_Ok in Hzs as (b & Hb & (g & Hg & (mf & Hmf & Hzs)%bind_Ok)%bind_Ok).
    destruct (_ <? _)%Z eqn:Hgt; simplify_eq; [|by apply elem_of_nil in Hrz].
    apply list_elem_of_singleton in Hrz as ->. apply Z.ltb_lt in Hgt. simpl.
    split; [done|]. split; [eauto|]. split; [done|].
    exists b, g, mf. by repeat split.
Qed.

(** What is ranked was collected. *)
Lemma search_elem text limit r :
  r ∈ search_medicines_by_ocr_text fuzz_ratio fuzz_partial_ratio db text limit →
  ∃ candidates,
    collect_candidates fuzz_ratio fuzz_partial_ratio db text limit = Ok candidates
    ∧ r ∈ candidates.
Proof.
  destruct (search_cases fuzz_ratio fuzz_partial_ratio db text limit)
    as [(cs & Hcs & ->) | [_ ->]]; [|by intros ?%elem_of_nil].
  intros Hr%rank_results_elem. exists cs. split; [done|].
  eapply elem_of_sublist; [exact Hr | apply remove_duplicates_from_sublist].
Qed.
End provenance.

(** ** Confidences of the results *)

Lemma weighted_above (c : Q) : (0.8 < c)%Q → (0.64 < c * 0.8)%Q.
Proof.
  destruct c as [n d]. unfold Qlt. simpl. rewrite !Pos2Z.inj_mul. lia.
Qed.

Lemma above_floor (c : Q) : (0.7 < c)%Q → (0.64 < c)%Q.
Proof. apply Qlt_trans. reflexivity. Qed.

Lemma percent_above (s : Z) : (70 < s)%Z → (0.7 < inject_Z s / 100)%Q.
Proof. unfold Qlt, Qdiv, Qmult, Qinv, inject_Z. simpl. lia. Qed.

Lemma percent_at_most_1 (s : Z) : (s ≤ 100)%Z → (inject_Z s / 100 <= 1)%Q.
Proof. unfold Qle, Qdiv, Qmult, Qinv, inject_Z. simpl. lia. Qed.

Lemma weighted_at_most_1 (c : Q) : (c <= 1)%Q → (c * 0.8 <= 1)%Q.
Proof.
  destruct c as [n d]. unfold Qle. simpl. rewrite !Pos2Z.inj_mul. lia.
Qed.

Lemma name_confidence_at_most_1 (fuzz_ratio : str -> str -> Z) extracted database_name :
  (∀ a b, (fuzz_ratio a b ≤ 100)%Z) →
  (calculate_name_confidence fuzz_ratio extracted database_name <= 1)%Q.
Proof.
  intros Hrange. unfold calculate_name_confidence.
  destruct (negb (truthy extracted) || negb (truthy_attr database_name)); [done|].
  destruct database_name as [d|]; [|done]. simpl.
  destruct (eqb_str _ _); [done|]. destruct (_ || _); [done|]. simpl.
  by apply percent_at_most_1.
Qed.

Section results.
Variables fuzz_ratio fuzz_partial_ratio : str -> str -> Z.
Variable db : MedicineService.Session.
Variable text : str.
Variable limit : Z.

Lemma search_result_found r :
  r ∈ search_medicines_by_ocr_text fuzz_ratio fuzz_partial_ratio db text limit →
  found_by_barcode db (extract_medicine_info text) r
  ∨ (tag r = Tag.brand_name ∧ (0.7 < score r)%Q
     ∧ found_by_name fuzz_ratio db limit (Info.brand_name (extract_medicine_info text))
         Medicine.brand_name r)
  ∨ (tag r = Tag.generic_name ∧ (0.7 < score r)%Q
     ∧ found_by_name fuzz_ratio db limit (Info.generic_name (extract_medicine_info text))
         Medicine.generic_name r)
  ∨ (tag r = Tag.manufacturer
     ∧ found_by_manufacturer fuzz_ratio db limit
         (Info.manufacturer (extract_medicine_info text)) r)
  ∨ (tag r = Tag.fuzzy ∧ found_by_fuzzy fuzz_partial_ratio db text r).
Proof.
  intros (cs & Hcs & Hr)%search_elem. by eapply collect_candidates_elem.
Qed.
End results.

(** X8. Every result of [search_medicines_by_ocr_text] is about a row of
    the catalog. A result tagged [fuzzy] is about one of the first 100
    rows; a result tagged [barcode] has confidence 0.95 and is about a row
    whose barcode is the extracted one, which is its matched text. *)
Theorem X8_results_from_catalog (fuzz_ratio fuzz_partial_ratio : str -> str -> Z)
    (db : MedicineService.Session) (text : str) (limit : Z) (r : Candidate.t) :
  r ∈ search_medicines_by_ocr_text fuzz_ratio fuzz_partial_ratio db text limit →
  Candidate.medicine r ∈ MedicineService.rows db
  ∧ (tag r = Tag.fuzzy → Candidate.medicine r ∈ take 100 (MedicineService.rows db))
  ∧ (tag r = Tag.barcode →
     score r = 0.95%Q
     ∧ Medicine.barcode (Candidate.medicine r)
       = Some (Info.barcode (extract_medicine_info text))
     ∧ Candidate.matched_text r = Some (Info.barcode (extract_medicine_info text))).
Proof.
  intros Hr. split; [|split].
  - apply search_elem in Hr as (cs & Hcs & Hr). by eapply collect_candidates_rows.
  - intros Htag.
    apply search_result_found in Hr
      as [(? & _) | [(? & _) | [(? & _) | [(? & _) | (_ & ((ms & Hms & Hm) & _))]]]];
      try congruence.
    apply execute_Ok in Hms as ->. exact Hm.
  - intros Htag.
    apply search_result_found in Hr
      as [(_ & ? & ? & Hm) | [(? & _) | [(? & _) | [(? & _) | (? & _)]]]];
      try congruence.
    by apply get_medicine_by_barcode_rows in Hm as [_ ?].
Qed.

Lemma X8_witness :
  Medicine.barcode (Candidate.medicine Scenario.barcode_hit)
  = Some (Info.barcode (extract_medicine_info Scenario.scan_text)).
Proof.
  destruct (X8_results_from_catalog Scenario.all_similar Scenario.all_similar
              (Scenario.healthy [Scenario.napa]) Scenario.scan_text 10
              Scenario.barcode_hit) as (_ & _ & Hbarcode).
  - vm_compute. left.
  - by apply Hbarcode.
Defined.

(** X9. Every result of [search_medicines_by_ocr_text] has a confidence
    above 0.64: it is 0.95 for the tag [barcode], above 0.7 for the tags
    [brand_name], [generic_name] and [fuzzy], and above 0.64 for the tag
    [manufacturer]. When [fuzz.ratio] and [fuzz.partial_ratio] answer at
    most 100, no confidence exceeds 1, and none of a [manufacturer] result
    exceeds 0.8. *)
Theorem X9_confidence_range (fuzz_ratio fuzz_partial_ratio : str -> str -> Z)
    (db : MedicineService.Session) (text : str) (limit : Z) (r : Candidate.t) :
  r ∈ search_medicines_by_ocr_text fuzz_ratio fuzz_partial_ratio db text limit →
  (0.64 < score r)%Q
  ∧ (tag r ≠ Tag.manufacturer → (0.7 < score r)%Q)
  ∧ ((∀ a b, (fuzz_ratio a b ≤ 100)%Z) → (∀ a b, (fuzz_partial_ratio a b ≤ 100)%Z) →
     (score r <= 1)%Q ∧ (tag r = Tag.manufacturer → (score r <= 0.8)%Q)).
Proof.
  intros Hr.
  apply search_result_found in Hr
    as [(Ht & Hs & _) | [(Ht & Hs & (_ & _ & Hc))
       | [(Ht & Hs & (_ & _ & Hc)) | [(Ht & (_ & _ & Hgt & Hs)) | (Ht & (_ & _ & Hf))]]]].
  - rewrite Hs. repeat split; try done. congruence.
  - split; [by apply above_floor|]. split; [done|]. intros H1 _. rewrite Hc.
    split; [by apply name_confidence_at_most_1 | congruence].
  - split; [by apply above_floor|]. split; [done|]. intros H1 _. rewrite Hc.
    split; [by apply name_confidence_at_most_1 | congruence].
  - rewrite Hs. split; [by apply weighted_above|]. split; [done|]. intros H1 _.
    assert (manufacturer_score fuzz_ratio (Info.manufacturer (extract_medicine_info text))
              (Candidate.medicine r) <= 1)%Q as Hle
      by (by apply name_confidence_at_most_1).
    split; [by apply weighted_at_most_1|]. intros _.
    destruct (manufacturer_score _ _ _) as [n d]. revert Hle. unfold Qle. simpl.
    rewrite !Pos2Z.inj_mul. lia.
  - destruct Hf as (b & g & mf & _ & Hgt & Hs). rewrite Hs.
    pose proof (percent_above _ Hgt) as Habove.
    split; [by apply above_floor|]. split; [done|]. intros _ H2.
    split; [|congruence]. apply percent_at_most_1.
    pose proof (H2 (lower text) b). pose proof (H2 (lower text) g).
    pose proof (H2 (lower text) mf). lia.
Qed.

Lemma X9_witness : (0.64 < score Scenario.barcode_hit)%Q.
Proof.
  destruct (X9_confidence_range Scenario.all_similar Scenario.all_similar
              (Scenario.healthy [Scenario.napa]) Scenario.scan_text 10
              Scenario.barcode_hit) as (Hfloor & _).
  - vm_compute. left.
  - exact Hfloor.
Defined.

(** ** The number of results *)

Lemma slice_to_length {A} (l : list A) (n : Z) :
  (0 ≤ n)%Z → length (slice_to l n) ≤ Z.to_nat n.
Proof.
  intros Hn. unfold slice_to. rewrite (proj2 (Z.leb_le 0 n)) by done.
  rewrite length_take. lia.
Qed.

Lemma slice_to_all {A} (l : list A) (n : Z) :
  length l ≤ Z.to_nat n → (0 ≤ n)%Z → slice_to l n = l.
Proof.
  intros Hl Hn. unfold slice_to. rewrite (proj2 (Z.leb_le 0 n)) by done.
  by apply take_ge.
Qed.

(** X10. For a limit that is not negative, [search_medicines_by_ocr_text]
    returns at most [limit] results; and when the candidates the strategies
    collected are about at most [limit] different catalog entries, nothing
    is cut: the results are the deduplicated candidates, reordered, so every
    entry some strategy found appears in the output. *)
Theorem X10_limit (fuzz_ratio fuzz_partial_ratio : str -> str -> Z)
    (db : MedicineService.Session) (text : str) (limit : Z) :
  (0 ≤ limit)%Z →
  length (search_medicines_by_ocr_text fuzz_ratio fuzz_partial_ratio db text limit)
    ≤ Z.to_nat limit
  ∧ ∀ candidates,
      collect_candidates fuzz_ratio fuzz_partial_ratio db text limit = Ok candidates →
      length (remove_duplicate_results candidates) ≤ Z.to_nat limit →
      search_medicines_by_ocr_text fuzz_ratio fuzz_partial_ratio db text limit
        ≡ₚ remove_duplicate_results candidates
      ∧ ∀ r, r ∈ candidates →
             ∃ r', r' ∈ search_medicines_by_ocr_text fuzz_ratio fuzz_partial_ratio
                          db text limit
                   ∧ Candidate.id r' = Candidate.id r.
Proof.
  intros Hlimit. split.
  - destruct (search_cases fuzz_ratio fuzz_partial_ratio db text limit)
      as [(cs & _ & ->) | [_ ->]]; [|simpl; lia].
    by apply slice_to_length.
  - intros cs Hcs Hlen.
    assert (Hout : search_medicines_by_ocr_text fuzz_ratio fuzz_partial_ratio
                     db text limit ≡ₚ remove_duplicate_results cs).
    { unfold search_medicines_by_ocr_text. rewrite Hcs. simpl. unfold rank_results.
      rewrite slice_to_all; [apply sort_by_confidence_perm | | done].
      by rewrite sort_by_confidence_perm. }
    split; [done|]. intros r Hr.
    destruct (first_seen_is_Some _ _ Hr) as [r' Hr'].
    exists r'. split; [|by eapply first_seen_id].
    rewrite Hout. unfold remove_duplicate_results.
    apply remove_duplicates_from_elem. split; [apply not_elem_of_empty|].
    by rewrite (first_seen_id _ _ _ Hr').
Qed.

Lemma X10_witness :
  length (search_medicines_by_ocr_text Scenario.all_similar Scenario.all_similar
            TwoNapas.db (str_of "NAPA") 1) ≤ 1.
Proof.
  destruct (X10_limit Scenario.all_similar Scenario.all_similar TwoNapas.db
              (str_of "NAPA") 1) as [Hlen _]; [lia|].
  exact Hlen.
Defined.

(** ** [get_best_match] *)

(** X11. For a catalog entry with its three names, [get_best_match] returns
    the name that [fuzz.partial_ratio] rates highest against the text, the
    brand name before the generic name before the manufacturer on equal
    ratings; so the matched text of a fuzzy candidate is a name whose rating
    is the one its confidence was computed from. For an entry with a
    missing name it returns the brand name, missing or not. *)
Theorem X11_best_match (fuzz_partial_ratio : str -> str -> Z) (text : str)
    (medicine : Medicine.t) :
  (poisoned medicine →
   get_best_match fuzz_partial_ratio text medicine = Medicine.brand_name medicine)
  ∧ ∀ brand generic manufacturer,
      Medicine.brand_name medicine = Some brand →
      Medicine.generic_name medicine = Some generic →
      Medicine.manufacturer medicine = Some manufacturer →
      get_best_match fuzz_partial_ratio text medicine =
        Some (if (Z.max (fuzz_partial_ratio (lower text) (lower brand))
                        (fuzz_partial_ratio (lower text) (lower generic))
                  <? fuzz_partial_ratio (lower text) (lower manufacturer))%Z
              then manufacturer
              else if (fuzz_partial_ratio (lower text) (lower brand)
                       <? fuzz_partial_ratio (lower text) (lower generic))%Z
                   then generic else brand)
      ∧ ∃ name,
          get_best_match fuzz_partial_ratio text medicine = Some name
          ∧ name ∈ [brand; generic; manufacturer]
          ∧ fuzz_partial_ratio (lower text) (lower name) =
            Z.max (Z.max (fuzz_partial_ratio (lower text) (lower brand))
                         (fuzz_partial_ratio (lower text) (lower generic)))
                  (fuzz_partial_ratio (lower text) (lower manufacturer)).
Proof.
  split.
  - unfold get_best_match. destruct medicine as [i [b|] [g|] s [m|] bc]; simpl; try done.
    intros [H | [H | H]]; discriminate.
  - intros b g m Hb Hg Hm. unfold get_best_match. rewrite Hb, Hg, Hm. simpl.
    set (sb := fuzz_partial_ratio (lower text) (lower b)).
    set (sg := fuzz_partial_ratio (lower text) (lower g)).
    set (sm := fuzz_partial_ratio (lower text) (lower m)).
    destruct (sb <? sg)%Z eqn:H1; simpl.
    + apply Z.ltb_lt in H1. rewrite (Z.max_r sb sg) by lia.
      destruct (sg <? sm)%Z eqn:H2; simpl.
      * apply Z.ltb_lt in H2. split; [done|]. exists m.
        split; [done|]. split; [set_solver|]. fold sm. lia.
      * apply Z.ltb_ge in H2. split; [done|]. exists g.
        split; [done|]. split; [set_solver|]. fold sg. lia.
    + apply Z.ltb_ge in H1. rewrite (Z.max_l sb sg) by lia.
      destruct (sb <? sm)%Z eqn:H2; simpl.
      * apply Z.ltb_lt in H2. split; [done|]. exists m.
        split; [done|]. split; [set_solver|]. fold sm. lia.
      * apply Z.ltb_ge in H2. split; [done|]. exists b.
        split; [done|]. split; [set_solver|]. fold sb. lia.
Qed.

Lemma X11_witness :
  get_best_match Scenario.all_similar Scenario.scan_text Scenario.napa
  = Some (str_of "Napa").
Proof.
  destruct (X11_best_match Scenario.all_similar Scenario.scan_text Scenario.napa)
    as [_ H].
  destruct (H (str_of "Napa") (str_of "Paracetamol") (str_of "Beximco Pharma")
              eq_refl eq_refl eq_refl) as [-> _].
  reflexivity.
Defined.

(** ** What a scan returns *)

Lemma clean_extracted_text_strip text :
  strip (clean_extracted_text text) = clean_extracted_text text.
Proof.
  destruct (clean_extracted_text_whitespace text) as (_ & Hhead & Hlast & _).
  by apply strip_id.
Qed.

Lemma stripped_lines_clean text :
  stripped_lines (clean_extracted_text text) = [clean_extracted_text text].
Proof.
  unfold stripped_lines. rewrite clean_extracted_text_one_line. simpl.
  by rewrite clean_extracted_text_strip.
Qed.

Lemma head_filter_singleton (P : str → bool) (u : str) :
  default [] (head (filter P [u])) = [] ∨ default [] (head (filter P [u])) = u.
Proof.
  rewrite filter_cons, filter_nil. case_decide; [by right | by left].
Qed.

Lemma extracted_manufacturer (text : str) :
  Info.manufacturer (extract_medicine_info text) =
  default [] (head (filter has_manufacturer_keyword (stripped_lines text))).
Proof.
  unfold extract_medicine_info, stripped_lines. cbn [Info.manufacturer].
  rewrite <- head_omap_filter.
  rewrite (first_line_wins info_step Info.manufacturer
             (λ l, if has_manufacturer_keyword l then Some l else None)); [done|..].
  - apply info_step_manufacturer.
  - intros l g. by apply line_test_truthy.
Qed.

Lemma extracted_brand (lines : list str) :
  Names.brand_name (extract_potential_names lines) =
  default [] (head (filter brand_line (strip <$> lines))).
Proof.
  unfold extract_potential_names. rewrite <- head_omap_filter.
  rewrite (first_line_wins names_step Names.brand_name
             (λ l, if brand_line l then Some l else None)); [done|..].
  - apply names_step_brand.
  - intros l g. by apply line_test_truthy.
Qed.

Lemma extracted_generic (lines : list str) :
  Names.generic_name (extract_potential_names lines) =
  default [] (head (filter generic_line (strip <$> lines))).
Proof.
  unfold extract_potential_names. rewrite <- head_omap_filter.
  rewrite (first_line_wins names_step Names.generic_name
             (λ l, if generic_line l then Some l else None)); [done|..].
  - apply names_step_generic.
  - intros l g. by apply line_test_truthy.
Qed.

(** The fields of a normalised text: it is examined as one line. *)
Lemma extract_clean_fields text :
  let u := clean_extracted_text text in
  (Info.manufacturer (extract_medicine_info u) = []
   ∨ Info.manufacturer (extract_medicine_info u) = u)
  ∧ (Info.brand_name (extract_medicine_info u) = []
     ∨ Info.brand_name (extract_medicine_info u) = u)
  ∧ (Info.generic_name (extract_medicine_info u) = []
     ∨ Info.generic_name (extract_medicine_info u) = u).
Proof.
  intros u. split; [|split].
  - rewrite extracted_manufacturer. unfold u. rewrite stripped_lines_clean.
    apply head_filter_singleton.
  - unfold extract_medicine_info. cbn [Info.brand_name].
    rewrite extracted_brand. fold (stripped_lines u). unfold u.
    rewrite stripped_lines_clean. apply head_filter_singleton.
  - unfold extract_medicine_info. cbn [Info.generic_name].
    rewrite extracted_generic. fold (stripped_lines u). unfold u.
    rewrite stripped_lines_clean. apply head_filter_singleton.
Qed.

Section scans.
Variable Image : Type.
Variable imdecode : list Byte.byte -> Result (option Image).
Variable cv2_binarize : Image -> Result Image.
Variable image_to_string : Image -> Result str.
Variable b64decode : str -> Result (list Byte.byte).

Lemma extract_text_normalised image :
  clean_extracted_text (extract_text_from_image Image cv2_binarize image_to_string image)
  = extract_text_from_image Image cv2_binarize image_to_string image.
Proof.
  unfold extract_text_from_image.
  destruct (image_to_string _) as [t|e]; simpl; [|done].
  apply clean_extracted_text_idempotent.
Qed.
End scans.

Section scan_results.
Variable Image : Type.
Variable imdecode : list Byte.byte -> Result (option Image).
Variable cv2_binarize : Image -> Result Image.
Variable image_to_string : Image -> Result str.
Variable b64decode : str -> Result (list Byte.byte).

Lemma scan_bytes_Ok image_bytes text info :
  scan_bytes Image imdecode cv2_binarize image_to_string image_bytes = Ok (text, info) →
  ∃ image, imdecode image_bytes = Ok (Some image)
           ∧ text = extract_text_from_image Image cv2_binarize image_to_string image
           ∧ info = Some (extract_medicine_info text).
Proof.
  unfold scan_bytes. intros ([image|] & Himage & H)%bind_Ok; [|done].
  injection H as <- <-. by exists image.
Qed.

Lemma process_image_file_Some image_bytes text info :
  process_image_file Image imdecode cv2_binarize image_to_string image_bytes
    = Ok (text, Some info) →
  scan_bytes Image imdecode cv2_binarize image_to_string image_bytes
    = Ok (text, Some info).
Proof.
  unfold process_image_file. by destruct (scan_bytes _ _ _ _ _) as [[t i]|e].
Qed.

Lemma process_base64_image_Some base64_string text info :
  process_base64_image Image imdecode cv2_binarize image_to_string b64decode
    base64_string = Ok (text, Some info) →
  ∃ image_bytes,
    scan_bytes Image imdecode cv2_binarize image_to_string image_bytes
    = Ok (text, Some info).
Proof.
  unfold process_base64_image.
  match goal with |- try_except ?body _ = _ → _ => destruct body as [[t i]|e] eqn:Hbody end;
    simpl; [|done].
  intros [= -> ->].
  apply bind_Ok in Hbody as (payload & _ & (image_bytes & _ & H)%bind_Ok).
  by exists image_bytes.
Qed.

Lemma scan_fields image_bytes text info :
  scan_bytes Image imdecode cv2_binarize image_to_string image_bytes
    = Ok (text, Some info) →
  clean_extracted_text text = text
  ∧ info = extract_medicine_info text
  ∧ (Info.manufacturer info = [] ∨ Info.manufacturer info = text)
  ∧ (Info.brand_name info = [] ∨ Info.brand_name info = text)
  ∧ (Info.generic_name info = [] ∨ Info.generic_name info = text)
  ∧ MedicineSearch.validate_barcode (Info.barcode info) = true.
Proof.
  intros (image & _ & Htext & [= ->])%scan_bytes_Ok.
  assert (Hclean : clean_extracted_text text = text)
    by (rewrite Htext; apply extract_text_normalised).
  split; [done|]. split; [done|].
  pose proof (extract_clean_fields text) as H. simpl in H. rewrite Hclean in H.
  destruct H as (? & ? & ?). repeat split; try done.
  apply extracted_barcode_checked.
Qed.
End scan_results.

(** X12. When the image decodes, [process_image_file] returns the text with
    the fields extracted from it. When the OCR engine raises, the text is
    empty and every field is empty, a result with an info dict, unlike the
    empty dict of a decode failure; when it answers, the text is the
    normalisation of its answer. When the cv2 preprocessing raises, the
    engine is given the decoded image itself. *)
Theorem X12_scan_outcome (Image : Type)
    (imdecode : list Byte.byte -> Result (option Image))
    (cv2_binarize : Image -> Result Image)
    (image_to_string : Image -> Result str)
    (image_bytes : list Byte.byte) (image : Image) :
  imdecode image_bytes = Ok (Some image) →
  (raises (cv2_binarize image) → preprocess_image Image cv2_binarize image = image)
  ∧ (raises (image_to_string (preprocess_image Image cv2_binarize image)) →
     process_image_file Image imdecode cv2_binarize image_to_string image_bytes
     = Ok ([], Some empty_info))
  ∧ (∀ raw, image_to_string (preprocess_image Image cv2_binarize image) = Ok raw →
     process_image_file Image imdecode cv2_binarize image_to_string image_bytes
     = Ok (clean_extracted_text raw,
           Some (extract_medicine_info (clean_extracted_text raw)))).
Proof.
  intros Himage. split; [|split].
  - unfold preprocess_image. by intros [e ->].
  - intros [e He]. unfold process_image_file, scan_bytes, extract_text_from_image.
    rewrite Himage. simpl. by rewrite He.
  - intros raw Hraw. unfold process_image_file, scan_bytes, extract_text_from_image.
    rewrite Himage. simpl. by rewrite Hraw.
Qed.

(** X13. Whenever [process_image_file] or [process_base64_image] returns a
    text with an info dict, the text is normalised, the dict holds the
    fields of that text, the manufacturer, the brand hint and the generic
    hint are each empty or the whole text, and [validate_barcode] accepts
    the barcode. *)
Theorem X13_scan_fields (Image : Type)
    (imdecode : list Byte.byte -> Result (option Image))
    (cv2_binarize : Image -> Result Image)
    (image_to_string : Image -> Result str)
    (b64decode : str -> Result (list Byte.byte))
    (text : str) (info : Info.t) :
  (∃ image_bytes,
     process_image_file Image imdecode cv2_binarize image_to_string image_bytes
     = Ok (text, Some info))
  ∨ (∃ base64_string,
       process_base64_image Image imdecode cv2_binarize image_to_string b64decode
         base64_string = Ok (text, Some info)) →
  clean_extracted_text text = text
  ∧ info = extract_medicine_info text
  ∧ (Info.manufacturer info = [] ∨ Info.manufacturer info = text)
  ∧ (Info.brand_name info = [] ∨ Info.brand_name info = text)
  ∧ (Info.generic_name info = [] ∨ Info.generic_name info = text)
  ∧ MedicineSearch.validate_barcode (Info.barcode info) = true.
Proof.
  intros [[image_bytes H%process_image_file_Some]
         | [s [image_bytes H]%process_base64_image_Some]];
    by eapply scan_fields.
Qed.

Lemma X12_witness :
  process_image_file unit OneImage.imdecode NoImage.cv2_binarize OneImage.no_engine
    [Byte.x00] = Ok ([], Some empty_info).
Proof.
  destruct (X12_scan_outcome unit OneImage.imdecode NoImage.cv2_binarize
              OneImage.no_engine [Byte.x00] tt eq_refl) as (_ & Hfail & _).
  apply Hfail. by eexists.
Defined.

Lemma X13_witness :
  Info.manufacturer (extract_medicine_info (str_of "NAPA Beximco Pharma Ltd")) = []
  ∨ Info.manufacturer (extract_medicine_info (str_of "NAPA Beximco Pharma Ltd"))
    = str_of "NAPA Beximco Pharma Ltd".
Proof.
  destruct (X13_scan_fields unit OneImage.imdecode NoImage.cv2_binarize
              OneImage.image_to_string NoImage.b64decode
              (str_of "NAPA Beximco Pharma Ltd")
              (extract_medicine_info (str_of "NAPA Beximco Pharma Ltd")))
    as (_ & _ & H & _).
  - left. exists [Byte.x00]. vm_compute. reflexivity.
  - exact H.
Defined.

(** ** Data URLs *)

Lemma split_at_separator sep (a b : str) :
  sep ∉ a → split sep (a ++ sep :: b) = a :: split sep b.
Proof.
  induction a as [|c a IH]; intros Ha; simpl.
  - by rewrite (proj2 (eqb_char_true sep sep)).
  - destruct (eqb_char c sep) eqn:Hc.
    + apply eqb_char_true in Hc as ->. exfalso. apply Ha. by left.
    + rewrite IH; [done|]. intros ?. apply Ha. by right.
Qed.

Lemma startswith_app p (a b : str) : startswith p a = true → startswith p (a ++ b) = true.
Proof.
  intros [q ->]%startswith_spec. apply startswith_spec. exists (q ++ b).
  by rewrite app_assoc.
Qed.

(** X14. [process_base64_image] strips a data-URL header: on a string that
    starts with ["data:image"] and has one comma it decodes what follows
    the comma, so the result is that of the bare payload; a string that
    starts with ["data:image"] and has no comma gives the empty text and
    the empty dict. *)
Theorem X14_data_url (Image : Type)
    (imdecode : list Byte.byte -> Result (option Image))
    (cv2_binarize : Image -> Result Image)
    (image_to_string : Image -> Result str)
    (b64decode : str -> Result (list Byte.byte))
    (header payload : str) :
  startswith (str_of "data:image") header = true →
  ","%char ∉ header →
  (","%char ∉ payload → startswith (str_of "data:image") payload = false →
   process_base64_image Image imdecode cv2_binarize image_to_string b64decode
     (header ++ ","%char :: payload)
   = process_base64_image Image imdecode cv2_binarize image_to_string b64decode payload)
  ∧ process_base64_image Image imdecode cv2_binarize image_to_string b64decode header
    = Ok ([], None).
Proof.
  intros Hheader Hcomma. split.
  - intros Hpayload Hbare. unfold process_base64_image.
    rewrite (startswith_app _ header _ Hheader), Hbare.
    rewrite split_at_separator by done.
    by rewrite (split_without_separator _ _ Hpayload).
  - unfold process_base64_image. rewrite Hheader.
    by rewrite (split_without_separator _ _ Hcomma).
Qed.

Lemma X14_witness :
  process_base64_image unit OneImage.imdecode NoImage.cv2_binarize
    OneImage.image_to_string NoImage.b64decode (str_of "data:image/png;base64")
  = Ok ([], None).
Proof.
  destruct (X14_data_url unit OneImage.imdecode NoImage.cv2_binarize
              OneImage.image_to_string NoImage.b64decode
              (str_of "data:image/png;base64") (str_of "AA==")) as [_ H].
  - reflexivity.
  - vm_compute. intros H. repeat (apply elem_of_cons in H as [H | H]; [discriminate|]).
    by apply elem_of_nil in H.
  - exact H.
Defined.

(** ** [validate_barcode] *)

Lemma isdigit_spec (s : str) :
  MedicineSearch.isdigit s = true ↔ s ≠ [] ∧ Forall (λ c, is_digit c = true) s.
Proof.
  unfold MedicineSearch.isdigit. rewrite andb_true_iff, truthy_true, forallb_forall.
  rewrite Forall_forall. split; intros [? H]; (split; [done|]); intros c Hc; apply H;
    by apply list_elem_of_In.
Qed.

(** X15. [validate_barcode] accepts the empty string, and a non-empty
    string exactly when, spaces and dashes apart, it consists of 8 to 13
    digits; so a non-empty string of separators only is rejected, and
    inserting or removing separators in a string that keeps a digit changes
    nothing. *)
Theorem X15_validate_barcode (barcode : str) :
  (barcode = [] → MedicineSearch.validate_barcode barcode = true)
  ∧ (barcode ≠ [] →
     (MedicineSearch.validate_barcode barcode = true ↔
      Forall (λ c, is_digit c = true)
        (filter (λ c, negb (MedicineSearch.separator c)) barcode)
      ∧ 8 ≤ length (filter (λ c, negb (MedicineSearch.separator c)) barcode) ≤ 13))
  ∧ (barcode ≠ [] → Forall (λ c, MedicineSearch.separator c = true) barcode →
     MedicineSearch.validate_barcode barcode = false)
  ∧ (∀ other, barcode ≠ [] → other ≠ [] →
       filter (λ c, negb (MedicineSearch.separator c)) other
       = filter (λ c, negb (MedicineSearch.separator c)) barcode →
       MedicineSearch.validate_barcode other = MedicineSearch.validate_barcode barcode).
Proof.
  assert (Hiff : ∀ b, b ≠ [] →
    (MedicineSearch.validate_barcode b = true ↔
     Forall (λ c, is_digit c = true) (filter (λ c, negb (MedicineSearch.separator c)) b)
     ∧ 8 ≤ length (filter (λ c, negb (MedicineSearch.separator c)) b) ≤ 13)).
  { intros b Hb%truthy_true. unfold MedicineSearch.validate_barcode. rewrite Hb. simpl.
    set (d := filter _ b).
    destruct (MedicineSearch.isdigit d) eqn:Hd; simpl.
    - apply isdigit_spec in Hd as [_ Hd].
      destruct (length d <? 8) eqn:H8; simpl.
      + apply Nat.ltb_lt in H8. split; [done | lia].
      + apply Nat.ltb_ge in H8. destruct (13 <? length d) eqn:H13.
        * apply Nat.ltb_lt in H13. split; [done | lia].
        * apply Nat.ltb_ge in H13. split; [|done]. intros _. split; [done | lia].
    - split; [done|]. intros [Hdigits Hlen].
      assert (MedicineSearch.isdigit d = true); [|congruence].
      apply isdigit_spec. split; [|done]. intros Hnil. rewrite Hnil in Hlen.
      simpl in Hlen. lia. }
  split; [by intros ->|]. split; [apply Hiff|]. split.
  - intros Hb Hsep. apply not_true_iff_false. rewrite (Hiff _ Hb).
    intros [_ Hlen].
    assert (filter (λ c, negb (MedicineSearch.separator c)) barcode = []) as Hnil.
    { clear Hb Hlen. induction Hsep as [|c b Hc _ IH]; [done|].
      rewrite filter_cons, IH. by rewrite Hc. }
    rewrite Hnil in Hlen. simpl in Hlen. lia.
  - intros other Hb Ho Heq.
    destruct (MedicineSearch.validate_barcode barcode) eqn:Hv.
    + apply (Hiff _ Ho). rewrite Heq. by apply (Hiff _ Hb).
    + apply not_true_iff_false. rewrite (Hiff _ Ho), Heq, <- (Hiff _ Hb). congruence.
Qed.

Lemma X15_witness :
  MedicineSearch.validate_barcode (str_of "8901-2345 67")
  = MedicineSearch.validate_barcode (str_of "8901234567").
Proof.
  destruct (X15_validate_barcode (str_of "8901234567")) as (_ & _ & _ & H).
  apply H; [discriminate | discriminate | vm_compute; reflexivity].
Defined.

(** ** [search_medicines]: what [ILIKE] finds *)

Lemma like_percent p (s : str) :
  MedicineService.like ("%"%char :: p) s =
  MedicineService.like p s
  || match s with
     | [] => false
     | _ :: s' => MedicineService.like ("%"%char :: p) s'
     end.
Proof. by destruct s. Qed.










Lemma like_anything (s : str) : MedicineService.like ["%"%char] s = true.
Proof.
  induction s as [|x s IH]; [done|]. rewrite like_percent. by rewrite IH, orb_true_r.
Qed.

Lemma like_percent_more p (s : str) :
  MedicineService.like p s = true → MedicineService.like ("%"%char :: p) s = true.
Proof. intros H. rewrite like_percent. by rewrite H. Qed.

Lemma like_percents (p s : str) :
  p ≠ [] → Forall (λ c, c = "%"%char) p → MedicineService.like p s = true.
Proof.
  intros Hp Hall. induction Hall as [|c p -> Hall IH]; [done|].
  destruct p as [|c' p]; [apply like_anything|].
  apply like_percent_more, IH. done.
Qed.

Lemma lower_percents (p : str) : Forall (λ c, c = "%"%char) p → lower p = p.
Proof. induction 1 as [|c p -> _ IH]; [done|]. simpl. by rewrite IH. Qed.

(** X17. The wildcards of [LIKE] in a query are interpreted: for the empty
    query and for every query of [%] signs only, when the statement
    succeeds, [search_medicines] returns the rows that have a brand name, a
    generic name or a manufacturer that is not NULL, whatever the names
    are, cut to [limit]. *)
Theorem X17_wildcard_query (db : MedicineService.Session) (query : str) (limit : Z)
    (medicines : list Medicine.t) :
  Forall (λ c, c = "%"%char) query →
  MedicineService.search_medicines db query limit = Ok medicines →
  medicines = MedicineService.sql_limit limit
                (filter (λ m, ¬ (Medicine.brand_name m = None
                                 ∧ Medicine.generic_name m = None
                                 ∧ Medicine.manufacturer m = None))
                        (MedicineService.rows db)).
Proof.
  intros Hq ->%execute_Ok. f_equal. apply list_filter_iff. intros m.
  assert (Hany : ∀ column, MedicineService.ilike column ("%"%char :: query ++ ["%"%char])
                           = bool_decide (column ≠ None)).
  { intros [v|]; [|done]. unfold MedicineService.ilike.
    assert (Hall : Forall (λ c, c = "%"%char) ("%"%char :: query ++ ["%"%char])).
    { constructor; [done|]. apply Forall_app. split; [done | by constructor]. }
    rewrite (lower_percents _ Hall). by rewrite like_percents. }
  rewrite !Hany.
  destruct (Medicine.brand_name m), (Medicine.generic_name m), (Medicine.manufacturer m);
    simpl; split; try done; try (by intros _ (? & ? & ?)).
  intros H. by destruct H.
Qed.

Lemma X17_witness :
  [Scenario.napa; Failing.nameless] =
  MedicineService.sql_limit 10
    (filter (λ m, ¬ (Medicine.brand_name m = None
                     ∧ Medicine.generic_name m = None
                     ∧ Medicine.manufacturer m = None))
            (MedicineService.rows Failing.with_nameless)).
Proof.
  apply (X17_wildcard_query Failing.with_nameless [] 10 [Scenario.napa; Failing.nameless]).
  - constructor.
  - vm_compute. reflexivity.
Defined.

(** ** [_calculate_confidence_score] *)

Lemma eqb_str_startswith (a b : str) : eqb_str a b = true → startswith b a = true.
Proof.
  intros ->%eqb_str_true. apply startswith_spec. exists []. by rewrite app_nil_r.
Qed.

Lemma startswith_contains (p s : str) : startswith p s = true → contains p s = true.
Proof. intros [q ->]%startswith_spec. apply contains_spec. by exists [], q. Qed.

Lemma contains_nil (s : str) : contains [] s = true.
Proof. by destruct s. Qed.

Lemma confidence_score_raises query medicine :
  raises (MedicineSearch._calculate_confidence_score query medicine)
  ↔ name_missing medicine.
Proof.
  unfold MedicineSearch._calculate_confidence_score, name_missing, raises.
  destruct (Medicine.brand_name medicine), (Medicine.generic_name medicine),
    (Medicine.manufacturer medicine); simpl; split;
    try (intros [e He]; discriminate); try (intros [H | [H | H]]; discriminate);
    eauto.
Qed.

Lemma confidence_score_Ok query medicine s :
  MedicineSearch._calculate_confidence_score query medicine = Ok s →
  ∃ brand generic manufacturer,
    Medicine.brand_name medicine = Some brand
    ∧ Medicine.generic_name medicine = Some generic
    ∧ Medicine.manufacturer medicine = Some manufacturer.
Proof.
  unfold MedicineSearch._calculate_confidence_score.
  destruct (Medicine.brand_name medicine), (Medicine.generic_name medicine),
    (Medicine.manufacturer medicine); simpl; try discriminate. eauto 10.
Qed.

Lemma confidence_score_spec (query : str) (medicine : Medicine.t) (s : Q) :
  MedicineSearch._calculate_confidence_score query medicine = Ok s →
  (0 <= s)%Q ∧ (s <= 1)%Q
  ∧ ((s == 0)%Q ↔ name_contains query medicine = false)
  ∧ (name_contains query medicine = true → (0.3 <= s)%Q)
  ∧ (column_contains query (Medicine.brand_name medicine) = true → (0.6 <= s)%Q)
  ∧ (∀ brand, Medicine.brand_name medicine = Some brand →
              lower brand = lower query → (s == 1)%Q)
  ∧ (query = [] → (s == 1)%Q).
Proof.
  intros Hs.
  destruct (confidence_score_Ok _ _ _ Hs) as (b & g & m & Hb & Hg & Hm).
  unfold MedicineSearch._calculate_confidence_score in Hs.
  unfold name_contains. rewrite Hb, Hg, Hm in *. simpl in Hs. simpl column_contains.
  pose proof (eqb_str_startswith (lower b) (lower query)) as Hb1.
  pose proof (startswith_contains (lower query) (lower b)) as Hb2.
  pose proof (eqb_str_startswith (lower g) (lower query)) as Hg1.
  pose proof (startswith_contains (lower query) (lower g)) as Hg2.
  pose proof (eqb_str_startswith (lower m) (lower query)) as Hm1.
  pose proof (startswith_contains (lower query) (lower m)) as Hm2.
  assert (Hbrand : ∀ brand, Some b = Some brand → lower brand = lower query →
                            eqb_str (lower b) (lower query) = true).
  { intros brand [= <-] H. by apply eqb_str_true. }
  assert (Hempty : query = [] →
                   startswith (lower query) (lower b) = true
                   ∧ startswith (lower query) (lower g) = true
                   ∧ contains (lower query) (lower m) = true).
  { intros ->. simpl. split; [done|]. split; [done | apply contains_nil]. }
  injection Hs as <-.
  destruct (eqb_str (lower b) (lower query)),
    (startswith (lower query) (lower b)), (contains (lower query) (lower b)),
    (eqb_str (lower g) (lower query)),
    (startswith (lower query) (lower g)), (contains (lower query) (lower g)),
    (eqb_str (lower m) (lower query)),
    (startswith (lower query) (lower m)), (contains (lower query) (lower m));
    try (specialize (Hb1 eq_refl); discriminate);
    try (specialize (Hb2 eq_refl); discriminate);
    try (specialize (Hg1 eq_refl); discriminate);
    try (specialize (Hg2 eq_refl); discriminate);
    try (specialize (Hm1 eq_refl); discriminate);
    try (specialize (Hm2 eq_refl); discriminate);
    clear Hb1 Hb2 Hg1 Hg2 Hm1 Hm2;
    (split; [by vm_compute|]); (split; [by vm_compute|]);
    (split; [split; [by vm_compute | done || (by intros _; vm_compute)]|]);
    (split; [done || (by intros _; vm_compute)|]);
    (split; [done || (by intros _; vm_compute)|]);
    (split; [intros brand H1 H2; specialize (Hbrand brand H1 H2);
             done || (by vm_compute)|]);
    intros Hq; destruct (Hempty Hq) as (? & ? & ?); done || (by vm_compute).
Qed.

(** X18. [_calculate_confidence_score] raises exactly when the brand name,
    the generic name or the manufacturer of the medicine is missing.
    Otherwise the score lies between 0 and 1; it is 0 exactly when none of
    the three names contains the query, case apart, and at least 0.3
    otherwise; it is at least 0.6 when the brand name contains the query, and
    1 when the brand name is the query, case apart, or the query is empty. *)
Theorem X18_confidence_score (query : str) (medicine : Medicine.t) :
  (raises (MedicineSearch._calculate_confidence_score query medicine)
   ↔ name_missing medicine)
  ∧ ∀ s, MedicineSearch._calculate_confidence_score query medicine = Ok s →
      (0 <= s)%Q ∧ (s <= 1)%Q
      ∧ ((s == 0)%Q ↔ name_contains query medicine = false)
      ∧ (name_contains query medicine = true → (0.3 <= s)%Q)
      ∧ (column_contains query (Medicine.brand_name medicine) = true → (0.6 <= s)%Q)
      ∧ (∀ brand, Medicine.brand_name medicine = Some brand →
                  lower brand = lower query → (s == 1)%Q)
      ∧ (query = [] → (s == 1)%Q).
Proof.
  split; [apply confidence_score_raises | apply confidence_score_spec].
Qed.

Lemma X18_witness :
  name_missing Failing.nameless
  ∧ ∃ s, MedicineSearch._calculate_confidence_score (str_of "napa") Scenario.napa = Ok s
         ∧ (s == 1)%Q.
Proof.
  split.
  - apply (X18_confidence_score (str_of "ibu") Failing.nameless).
    exists AttributeError. reflexivity.
  - eexists. split; [vm_compute; reflexivity|].
    destruct (X18_confidence_score (str_of "napa") Scenario.napa) as [_ H].
    destruct (H 1%Q) as (_ & _ & _ & _ & _ & Hbrand & _); [vm_compute; reflexivity|].
    apply (Hbrand (str_of "Napa")); reflexivity.
Defined.

(** ** [search_medicines_with_confidence] *)

Lemma insert_desc_perm {A} (key : A → Q) x l :
  MedicineSearch.insert_desc key x l ≡ₚ x :: l.
Proof.
  induction l as [|y l IH]; simpl; [done|].
  case_match; [|done]. rewrite IH. apply perm_swap.
Qed.

Lemma sort_desc_perm {A} (key : A → Q) l : MedicineSearch.sort_desc key l ≡ₚ l.
Proof.
  induction l as [|x l IH]; simpl; [done|].
  by rewrite insert_desc_perm, IH.
Qed.

Lemma insert_desc_sorted {A} (key : A → Q) (R : relation A) x l :
  (∀ a b, R a b → (key b <= key a)%Q) →
  (∀ y, y ∈ l → (key x < key y)%Q → R y x) →
  (∀ y, y ∈ l → (key y <= key x)%Q → R x y) →
  StronglySorted R l → StronglySorted R (MedicineSearch.insert_desc key x l).
Proof.
  intros Hle Habove Hbelow. induction 1 as [|y l Hl IH Hy]; simpl.
  - repeat constructor.
  - destruct (Qgtb (key y) (key x)) eqn:Hgt.
    + apply Qgtb_true in Hgt. constructor.
      * apply IH; intros; [apply Habove | apply Hbelow]; by try right.
      * rewrite insert_desc_perm. constructor; [|done].
        apply Habove; [by left | done].
    + apply Qgtb_false in Hgt. constructor; [by constructor|].
      rewrite Forall_forall in Hy. apply Forall_forall.
      intros z [-> | Hz]%elem_of_cons.
      * apply Hbelow; [by left | done].
      * apply Hbelow; [by right|]. eapply Qle_trans; [|exact Hgt]. auto.
Qed.

Lemma sort_desc_sorted {A} (key : A → Q) l :
  StronglySorted (desc_before key l) (MedicineSearch.sort_desc key l).
Proof.
  induction l as [|x l IH]; simpl; [constructor|].
  apply insert_desc_sorted.
  - intros a b [H | [H _]]; [by apply Qlt_le_weak | rewrite H; apply Qle_refl].
  - intros y _ Hlt. by left.
  - intros y Hy Hle. rewrite sort_desc_perm in Hy.
    apply Qle_lt_or_eq in Hle as [Hlt | Heq]; [by left | right].
    split; [done|]. apply before_cons. by left.
  - eapply StronglySorted_impl; [|exact IH].
    intros a b [H | [H1 H2]]; [by left | right].
    split; [done|]. apply before_cons. by right.
Qed.

Lemma get_matched_text_total query medicine :
  ¬ name_missing medicine →
  ∃ matched, MedicineSearch._get_matched_text query medicine = Ok matched.
Proof.
  unfold name_missing, MedicineSearch._get_matched_text. intros H.
  destruct (Medicine.brand_name medicine); [|tauto].
  destruct (Medicine.generic_name medicine); [|tauto].
  destruct (Medicine.manufacturer medicine); [|tauto].
  simpl. repeat case_match; eauto.
Qed.

Lemma score_medicine_Ok query medicine zs :
  MedicineSearch.score_medicine query medicine = Ok zs →
  ∃ r, zs = [r] ∧ MedicineSearch.medicine r = medicine
       ∧ MedicineSearch._calculate_confidence_score query medicine
         = Ok (MedicineSearch.confidence_score r)
       ∧ MedicineSearch._get_matched_text query medicine
         = Ok (MedicineSearch.matched_text r).
Proof.
  unfold MedicineSearch.score_medicine.
  intros (c & Hc & (t & Ht & [= <-])%bind_Ok)%bind_Ok. eauto.
Qed.

Lemma score_medicine_raises query medicine :
  raises (MedicineSearch.score_medicine query medicine) ↔ name_missing medicine.
Proof.
  split.
  - intros [e He]. destruct (decide (name_missing medicine)) as [|Hn]; [done|].
    exfalso. unfold MedicineSearch.score_medicine in He.
    destruct (MedicineSearch._calculate_confidence_score query medicine) as [c|e'] eqn:Hc.
    + destruct (get_matched_text_total query medicine Hn) as [t Ht].
      simpl in He. rewrite Ht in He. done.
    + apply Hn, (confidence_score_raises query). by exists e'.
  - intros [e He]%(confidence_score_raises query).
    exists e. unfold MedicineSearch.score_medicine. by rewrite He.
Qed.

Lemma for_each_score query medicines scored :
  for_each (MedicineSearch.score_medicine query) medicines = Ok scored →
  MedicineSearch.medicine <$> scored = medicines.
Proof.
  revert scored. induction medicines as [|m medicines IH]; intros scored; simpl.
  - by intros [= <-].
  - intros (zs & (r & -> & Hr & _)%score_medicine_Ok
            & (ws & Hws & [= <-])%bind_Ok)%bind_Ok.
    change ([r] ++ ws) with (r :: ws). rewrite fmap_cons, Hr. f_equal. by apply IH.
Qed.

Lemma for_each_raises_inv {A B} (f : A → Result (list B)) l :
  raises (for_each f l) → ∃ x, x ∈ l ∧ raises (f x).
Proof.
  induction l as [|x l IH]; simpl; [by intros [e He]|].
  destruct (f x) as [zs|e] eqn:Hx.
  - destruct (for_each f l) as [ws|e] eqn:Hl; [by intros [e He]|].
    intros _. destruct IH as (y & Hy & Hfy); [by exists e|].
    exists y. split; [by right | done].
  - intros _. exists x. split; [by left|]. rewrite Hx. by exists e.
Qed.

(** X19. [search_medicines_with_confidence], when the catalog search
    returns, raises exactly when one of the entries found has no brand
    name, no generic name or no manufacturer. Otherwise it returns one
    result per entry found, carrying the score and the matched text computed
    for that entry, sorted by decreasing score, results of equal score in
    the order of the catalog search. *)
Theorem X19_search_with_confidence (db : MedicineService.Session) (query : str)
    (limit : Z) (medicines : list Medicine.t) :
  MedicineService.search_medicines db query limit = Ok medicines →
  (raises (MedicineSearch.search_medicines_with_confidence db query limit)
   ↔ ∃ m, m ∈ medicines ∧ name_missing m)
  ∧ ∀ results,
      MedicineSearch.search_medicines_with_confidence db query limit = Ok results →
      ∃ scored,
        MedicineSearch.medicine <$> scored = medicines
        ∧ results ≡ₚ scored
        ∧ StronglySorted (desc_before MedicineSearch.confidence_score scored) results
        ∧ ∀ r, r ∈ results →
            MedicineSearch._calculate_confidence_score query (MedicineSearch.medicine r)
            = Ok (MedicineSearch.confidence_score r)
            ∧ MedicineSearch._get_matched_text query (MedicineSearch.medicine r)
              = Ok (MedicineSearch.matched_text r).
Proof.
  intros Hs. unfold MedicineSearch.search_medicines_with_confidence.
  rewrite Hs. simpl. split.
  - split.
    + intros Hr.
      destruct (for_each_raises_inv (MedicineSearch.score_medicine query) medicines)
        as (m & Hm & Hfm).
      { destruct Hr as [e He]. exists e.
        by destruct (for_each (MedicineSearch.score_medicine query) medicines). }
      exists m. split; [done|]. by apply (score_medicine_raises query).
    + intros (m & Hm & Hmiss).
      destruct (for_each_raises (MedicineSearch.score_medicine query) medicines m Hm)
        as [e He]; [by apply score_medicine_raises|].
      exists e. by rewrite He.
  - intros results (scored & Hscored & [= <-])%bind_Ok.
    exists scored. split; [by eapply for_each_score|].
    split; [apply sort_desc_perm|]. split; [apply sort_desc_sorted|].
    intros r Hr. rewrite sort_desc_perm in Hr.
    destruct (for_each_elem _ _ _ _ Hscored Hr) as (m & zs & _ & Hzs & Hrz).
    apply score_medicine_Ok in Hzs as (r' & -> & <- & Hc & Ht).
    by apply list_elem_of_singleton in Hrz as ->.
Qed.

Lemma X19_witness :
  raises (MedicineSearch.search_medicines_with_confidence
            Failing.with_nameless (str_of "pharma") 10).
Proof.
  apply (X19_search_with_confidence Failing.with_nameless (str_of "pharma") 10
           [Scenario.napa; Failing.nameless]).
  - vm_compute. reflexivity.
  - exists Failing.nameless. split; [right; left | left; reflexivity].
Defined.




(** ** [get_medicine_by_barcode] and [get_medicines] *)

Lemma head_filter_first {A} (P : A → Prop) `{!∀ x, Decision (P x)} (l : list A) x :
  head (filter P l) = Some x →
  ∃ i, l !! i = Some x ∧ P x ∧ ∀ j y, j < i → l !! j = Some y → ¬ P y.
Proof.
  induction l as [|a l IH]; [done|]. rewrite filter_cons.
  destruct (decide (P a)) as [Ha|Ha].
  - intros [= <-]. exists 0. split; [done|]. split; [done|]. intros; lia.
  - intros (i & Hi & Hx & Hfirst)%IH. exists (S i). split; [done|]. split; [done|].
    intros [|j] y Hj Hy; [by injection Hy as <- |].
    apply (Hfirst j); [lia | done].
Qed.

Lemma head_filter_None {A} (P : A → Prop) `{!∀ x, Decision (P x)} (l : list A) :
  head (filter P l) = None ↔ ∀ x, x ∈ l → ¬ P x.
Proof.
  split.
  - intros Hnone x Hx HP.
    assert (Hin : x ∈ filter P l) by (by apply list_elem_of_filter).
    destruct (filter P l); [by apply elem_of_nil in Hin | done].
  - intros Hnone. destruct (filter P l) as [|x l'] eqn:Hf; [done|].
    assert (Hin : x ∈ filter P l) by (rewrite Hf; by left).
    apply list_elem_of_filter in Hin as [HP Hx]. by destruct (Hnone x Hx).
Qed.

Lemma NoDup_omap_lookup {A B} (f : A → option B) (l : list A) i j x y b :
  NoDup (omap f l) → l !! i = Some x → l !! j = Some y →
  f x = Some b → f y = Some b → i = j.
Proof.
  revert i j. induction l as [|a l IH]; intros i j Hnodup Hi Hj Hx Hy; [done|].
  simpl in Hnodup. destruct i as [|i], j as [|j]; simpl in Hi, Hj.
  - done.
  - injection Hi as ->. rewrite Hx in Hnodup. apply NoDup_cons in Hnodup as [Hb _].
    exfalso. apply Hb, list_elem_of_omap. exists y.
    split; [by eapply list_elem_of_lookup_2 | done].
  - injection Hj as ->. rewrite Hy in Hnodup. apply NoDup_cons in Hnodup as [Hb _].
    exfalso. apply Hb, list_elem_of_omap. exists x.
    split; [by eapply list_elem_of_lookup_2 | done].
  - f_equal. apply IH; try done.
    destruct (f a); [by apply NoDup_cons in Hnodup as [_ ?] | done].
Qed.

(** X21. [get_medicine_by_barcode], when the statement succeeds, returns
    [None] exactly when no entry of the catalog has the barcode; otherwise
    it returns the first entry of the catalog that has it. When no two
    entries share a barcode, entries without a barcode left aside, every
    entry that has a barcode is the one found under it. *)
Theorem X21_barcode_lookup (db : MedicineService.Session) (barcode : str)
    (found : option Medicine.t) :
  MedicineService.get_medicine_by_barcode db barcode = Ok found →
  (found = None ↔
   ∀ m, m ∈ MedicineService.rows db → Medicine.barcode m ≠ Some barcode)
  ∧ (∀ m, found = Some m →
       Medicine.barcode m = Some barcode
       ∧ ∃ i, MedicineService.rows db !! i = Some m
              ∧ ∀ j m', j < i → MedicineService.rows db !! j = Some m' →
                        Medicine.barcode m' ≠ Some barcode)
  ∧ (NoDup (omap Medicine.barcode (MedicineService.rows db)) →
     ∀ m, m ∈ MedicineService.rows db → Medicine.barcode m = Some barcode →
          found = Some m).
Proof.
  intros ->%execute_Ok. split; [apply head_filter_None|]. split.
  - intros m (i & Hi & Hm & Hfirst)%head_filter_first. eauto.
  - intros Hnodup m Hm Hb.
    destruct (head (filter (λ m, Medicine.barcode m = Some barcode)
                      (MedicineService.rows db))) as [m'|] eqn:Hhead.
    + apply head_filter_first in Hhead as (i & Hi & Hb' & _).
      apply list_elem_of_lookup_1 in Hm as [j Hj]. f_equal.
      assert (i = j) as ->; [|congruence].
      by eapply (NoDup_omap_lookup Medicine.barcode).
    + rewrite head_filter_None in Hhead. by destruct (Hhead m Hm).
Qed.

(** A catalog with two entries without a barcode around entry 1: the
    lookup of the barcode of entry 1 finds entry 1. *)
Lemma X21_witness :
  MedicineService.get_medicine_by_barcode
    (Scenario.healthy [TwoNapas.napa_extra; Scenario.napa; TwoNapas.napa_rapid])
    (str_of "8901234567")
  = Ok (Some Scenario.napa).
Proof.
  destruct (X21_barcode_lookup
              (Scenario.healthy [TwoNapas.napa_extra; Scenario.napa; TwoNapas.napa_rapid])
              (str_of "8901234567")
              (head (filter (λ m, Medicine.barcode m = Some (str_of "8901234567"))
                       [TwoNapas.napa_extra; Scenario.napa; TwoNapas.napa_rapid])))
    as (_ & _ & Hunique).
  - reflexivity.
  - apply (f_equal Ok). apply Hunique.
    + apply NoDup_singleton.
    + right. left.
    + reflexivity.
Defined.

(** X22. [get_medicines] with [skip >= 0] and [limit >= 0], when the
    statement succeeds, returns the [limit] entries of the catalog that
    follow the first [skip] ones, fewer at the end of the catalog and none
    beyond it; a page of [a] entries followed by the page of [b] entries
    that starts where it ends is the page of [a + b] entries. *)
Theorem X22_pages (db : MedicineService.Session) (skip a b : Z)
    (first second both : list Medicine.t) :
  (0 ≤ skip)%Z → (0 ≤ a)%Z → (0 ≤ b)%Z →
  MedicineService.get_medicines db skip a = Ok first →
  MedicineService.get_medicines db (skip + a) b = Ok second →
  MedicineService.get_medicines db skip (a + b) = Ok both →
  first = take (Z.to_nat a) (drop (Z.to_nat skip) (MedicineService.rows db))
  ∧ length first = Z.to_nat a `min` (length (MedicineService.rows db) - Z.to_nat skip)
  ∧ (length (MedicineService.rows db) ≤ Z.to_nat skip → first = [])
  ∧ both = first ++ second.
Proof.
  intros Hskip Ha Hb ->%execute_Ok ->%execute_Ok ->%execute_Ok.
  unfold MedicineService.sql_limit, MedicineService.sql_offset.
  rewrite !(proj2 (Z.ltb_ge _ _)) by lia.
  split; [done|]. split; [by rewrite length_take, length_drop|].
  split; [intros Hlen; by rewrite drop_ge, take_nil|].
  rewrite !Z2Nat.inj_add by done.
  rewrite <- drop_drop, <- take_take_drop. done.
Qed.

Lemma X22_witness :
  [TwoNapas.napa_extra; TwoNapas.napa_rapid] = [TwoNapas.napa_extra] ++ [TwoNapas.napa_rapid].
Proof.
  eapply (X22_pages TwoNapas.db 0 1 1); [lia | lia | lia | reflexivity..].
Defined.
